(** * go-fixtures: the row compiler and the load orchestrator

    A shallow embedding of the fixture loader of [package fixtures]:
    the row compiler ([Row.Init] and the [Get...] accessors), the key
    registry ([PrimaryKeyGenerator.Set], [PrimaryKeyReference.Get]) and the
    load orchestrator ([LoadWithContext], [Load], [LoadFile], [LoadFiles],
    [fixPostgresPKSequence]).

    Go's [interface{}] is the inductive type [value]; a Go
    [map[string]interface{}] is a [gmap string value]; the database handle
    behind [Context.Db] is a record of operations over an abstract state. *)

From Stdlib Require Import ZArith NArith List Ascii String Sorted Permutation.
From Stdlib Require Import DecimalString.
From Stdlib Require OrderedTypeEx.
From stdpp Require Import base option list sorting gmap strings.

Local Open Scope string_scope.

(* ================================================================= *)
(** ** Go's [strings] and [fmt] helpers used by the package *)

Module GoStrings.

(** The double quote, written by its code point. *)
Definition dq : string := String (ascii_of_nat 34) EmptyString.
Definition nl : string := String (ascii_of_nat 10) EmptyString.
Definition tab : string := String (ascii_of_nat 9) EmptyString.

(** [strings.HasPrefix(s, prefix)]:
    [len(s) >= len(prefix) && s[0:len(prefix)] == prefix]. *)
Definition HasPrefix (s prefix : string) : bool :=
  (String.length prefix <=? String.length s)%nat
  && String.eqb (String.substring 0 (String.length prefix) s) prefix.

(** [strings.HasSuffix(s, suffix)]:
    [len(s) >= len(suffix) && s[len(s)-len(suffix):] == suffix]. *)
Definition HasSuffix (s suffix : string) : bool :=
  (String.length suffix <=? String.length s)%nat
  && String.eqb
       (String.substring (String.length s - String.length suffix)
          (String.length suffix) s)
       suffix.

(** [strings.TrimPrefix]: [s[len(prefix):]] when [s] has the prefix. *)
Definition TrimPrefix (s prefix : string) : string :=
  if HasPrefix s prefix
  then String.substring (String.length prefix)
         (String.length s - String.length prefix) s
  else s.

(** [strings.TrimSuffix]: [s[:len(s)-len(suffix)]] when [s] has the suffix. *)
Definition TrimSuffix (s suffix : string) : string :=
  if HasSuffix s suffix
  then String.substring 0 (String.length s - String.length suffix) s
  else s.

(** [unicode.IsSpace] on the UTF-8 bytes of one rune: the code points with
    the White_Space property. [rv] says the bytes are given last byte
    first, which is how the trailing scan meets them. *)
Definition is_space_rune (rv : bool) (bs : list N) : bool :=
  match (if rv then rev bs else bs) with
  | [b] => ((9 <=? b) && (b <=? 13) || (b =? 32))%N
  | [b1; b2] => ((b1 =? 194) && ((b2 =? 133) || (b2 =? 160)))%N
  | [b1; b2; b3] =>
      ((b1 =? 225) && (b2 =? 154) && (b3 =? 128)
       || (b1 =? 226) && (b2 =? 128)
          && ((128 <=? b3) && (b3 <=? 138)
              || (b3 =? 168) || (b3 =? 169) || (b3 =? 175))
       || (b1 =? 226) && (b2 =? 129) && (b3 =? 159)
       || (b1 =? 227) && (b2 =? 128) && (b3 =? 128))%N
  | _ => false
  end.

(** Drop the runes of white space at the front of a byte list. *)
Fixpoint trim_front (rv : bool) (l : list N) : list N :=
  match l with
  | [] => []
  | b1 :: t1 =>
      if is_space_rune rv [b1] then trim_front rv t1
      else match t1 with
           | [] => l
           | b2 :: t2 =>
               if is_space_rune rv [b1; b2] then trim_front rv t2
               else match t2 with
                    | [] => l
                    | b3 :: t3 =>
                        if is_space_rune rv [b1; b2; b3]
                        then trim_front rv t3 else l
                    end
           end
  end.

Definition bytes_of (s : string) : list N :=
  List.map N_of_ascii (list_ascii_of_string s).
Definition of_bytes (l : list N) : string :=
  string_of_list_ascii (List.map ascii_of_N l).

(** [strings.TrimSpace]: leading and trailing white space removed. *)
Definition TrimSpace (s : string) : string :=
  of_bytes (rev (trim_front true (rev (trim_front false (bytes_of s))))).

(** [strings.Join(elems, sep)]. *)
Fixpoint Join (elems : list string) (sep : string) : string :=
  match elems with
  | [] => EmptyString
  | [e] => e
  | e :: rest => e +:+ sep +:+ Join rest sep
  end.

(** [%d] of a non-negative [int]. *)
Definition itoa (n : nat) : string :=
  NilEmpty.string_of_uint (Nat.to_uint n).

(** The column name between double quotes, as [fmt.Sprintf] builds it. *)
Definition quoted (c : string) : string := dq +:+ c +:+ dq.

End GoStrings.
Import GoStrings.

(* ================================================================= *)
(** ** Values, the key registry and rows *)

(** The dynamic types an [interface{}] of this package holds: what the
    YAML decoder produces ([VNil], [VBool], [VInt], [VStr], and [VOther]
    for any other decoded node), a [time.Time] from [time.Now()], and the
    two marker pointers [*PrimaryKeyGenerator] and [*PrimaryKeyReference]. *)
Inductive value : Type :=
| VNil
| VBool (b : bool)
| VInt (n : Z)
| VStr (s : string)
| VOther (tag : nat)
| VTime (t : Z)
| VGen (name : string)
| VRef (name : string).

#[global] Instance value_eq_dec : EqDecision value.
Proof. solve_decision. Defined.

(** [m[k]] on a [map[string]interface{}]: [nil] when the key is absent. *)
Definition index (m : gmap string value) (k : string) : value :=
  default VNil (m !! k).

(** [(pk *PrimaryKeyGenerator) Set(values, key)]: [values[pk.name] = key]. *)
Definition Set_ (name : string) (values : gmap string value) (key : value)
  : gmap string value :=
  <[name := key]> values.

(** [(pk *PrimaryKeyReference) Get(values)]: [values[pk.name]]. *)
Definition Get (name : string) (values : gmap string value) : value :=
  index values name.

Definition onInsertNow : string := "ON_INSERT_NOW()".
Definition onUpdateNow : string := "ON_UPDATE_NOW()".
Definition onPKGeneratePrefix : string := "PK_GENERATE(".
Definition onPKGenerateSuffix : string := ")".
Definition onPKReferencePrefix : string := "PK_REFERENCE(".
Definition onPKReferenceSuffix : string := ")".
Definition postgresDriver : string := "postgres".

Record Row : Type := mkRow {
  Table : string;
  PK : gmap string value;
  Fields : gmap string value;
  pkColumns : list string;
  pkValues : list value;
  insertColumns : list string;
  updateColumns : list string;
  insertValues : list value;
  updateValues : list value
}.

(** A row as the YAML decoder leaves it: the unexported slices are nil. *)
Definition decoded (table : string) (pk fields : gmap string value) : Row :=
  mkRow table pk fields [] [] [] [] [] [].

(** The wall clock behind [time.Now()]: the [ticks]-th call reads
    [wall ticks]. *)
Record Clock : Type := mkClock { wall : nat -> Z; ticks : nat }.

Definition Now (c : Clock) : Z * Clock :=
  (wall c (ticks c), mkClock (wall c) (S (ticks c))).

(** Byte-wise order of Go strings. *)
Definition str_le (a b : string) : Prop := String.leb a b = true.

#[global] Instance str_le_dec : RelDecision str_le.
Proof. intros a b. unfold str_le. apply _. Defined.

(** [sort.Strings]. *)
Definition sort_Strings (l : list string) : list string :=
  merge_sort str_le l.

(** The keys a [for k := range m] visits, in some order. *)
Definition keys (m : gmap string value) : list string :=
  (map_to_list m).*1.

(* ================================================================= *)
(** ** The row compiler: [Row.Init] *)

Module RowCompiler.

(** [strings.TrimSpace(strings.TrimPrefix(strings.TrimSuffix(sv, suffix),
    prefix))]: the logical key name inside a marker. *)
Definition keyName (sv prefix suffix : string) : string :=
  TrimSpace (TrimPrefix (TrimSuffix sv suffix) prefix).

(** Body of the loop over [row.pkColumns]: one value appended to
    [row.pkValues] per primary-key column. *)
Definition initPK (pk : gmap string value) (acc : list value)
    (pkKey : string) : list value :=
  match index pk pkKey with
  | VStr sv =>
      if HasPrefix sv onPKGeneratePrefix && HasSuffix sv onPKGenerateSuffix
      then acc ++ [VGen (keyName sv onPKGeneratePrefix onPKGenerateSuffix)]
      else if HasPrefix sv onPKReferencePrefix
              && HasSuffix sv onPKReferenceSuffix
      then acc ++ [VRef (keyName sv onPKReferencePrefix onPKReferenceSuffix)]
      else acc ++ [index pk pkKey]
  | _ => acc ++ [index pk pkKey]
  end.

Definition appendInsert (row : Row) (c : string) (v : value) : Row :=
  mkRow (Table row) (PK row) (Fields row) (pkColumns row) (pkValues row)
    (insertColumns row ++ [c]) (updateColumns row)
    (insertValues row ++ [v]) (updateValues row).

Definition appendUpdate (row : Row) (c : string) (v : value) : Row :=
  mkRow (Table row) (PK row) (Fields row) (pkColumns row) (pkValues row)
    (insertColumns row) (updateColumns row ++ [c])
    (insertValues row) (updateValues row ++ [v]).

(** The field value as it is appended outside the two timestamp cases: a
    [PK_REFERENCE(...)] string becomes a reference marker. *)
Definition fieldMarker (fieldValue : value) : value :=
  match fieldValue with
  | VStr sv =>
      if HasPrefix sv onPKReferencePrefix && HasSuffix sv onPKReferenceSuffix
      then VRef (keyName sv onPKReferencePrefix onPKReferenceSuffix)
      else fieldValue
  | _ => fieldValue
  end.

Definition isString (v : value) (s : string) : bool :=
  match v with VStr sv => String.eqb sv s | _ => false end.

(** Body of the loop over the sorted field keys. *)
Definition initField (SetUpdatedAtOnInsert : bool) (st : Row * Clock)
    (fieldKey : string) : Row * Clock :=
  let '(row, clk) := st in
  let fieldValue := index (Fields row) fieldKey in
  if isString fieldValue onInsertNow then
    let '(t, clk1) := Now clk in
    (appendInsert row fieldKey (VTime t), clk1)
  else if isString fieldValue onUpdateNow then
    let '(t, clk1) := Now clk in
    let row1 := appendUpdate row fieldKey (VTime t) in
    if SetUpdatedAtOnInsert then
      let '(t2, clk2) := Now clk1 in
      (appendInsert row1 fieldKey (VTime t2), clk2)
    else (row1, clk1)
  else
    let fv := fieldMarker fieldValue in
    (appendUpdate (appendInsert row fieldKey fv) fieldKey fv, clk).

(** [Row.Init]. The flag is the package variable [SetUpdatedAtOnInsert]
    (the [Context] field of the same name in [load.go]). *)
Definition Init (SetUpdatedAtOnInsert : bool) (row : Row) (clk : Clock)
  : Row * Clock :=
  let pkCols := sort_Strings (keys (PK row)) in
  let pkVals := fold_left (initPK (PK row)) pkCols [] in
  let row1 :=
    mkRow (Table row) (PK row) (Fields row) pkCols pkVals [] [] [] [] in
  let fieldKeys := sort_Strings (keys (Fields row)) in
  fold_left (initField SetUpdatedAtOnInsert) fieldKeys (row1, clk).

(** A [*PrimaryKeyReference] is replaced by its registry entry; any other
    value is passed as it is. *)
Definition resolve (primaryKeys : gmap string value) (v : value) : value :=
  match v with
  | VRef name => Get name primaryKeys
  | _ => v
  end.

Definition isPostgres (driver : string) : bool :=
  String.eqb driver postgresDriver.

Definition GetInsertColumns (row : Row) : list string :=
  List.map quoted (insertColumns row).

Definition GetInsertValues (row : Row) (primaryKeys : gmap string value)
  : list value :=
  List.map (resolve primaryKeys) (insertValues row).

(** [placeholders[i]] of the two INSERT placeholder loops. *)
Definition placeholder (driver : string) (i : nat) : string :=
  if isPostgres driver then "$" +:+ itoa (i + 1) else "?".

Definition GetInsertPlaceholders (row : Row) (driver : string) : list string :=
  List.map (placeholder driver) (seq 0 (length (insertValues row))).

Definition GetPKAndInsertColumns (row : Row) : list string :=
  List.map quoted (pkColumns row) ++ List.map quoted (insertColumns row).

Definition GetPKAndInsertValues (row : Row)
    (primaryKeys : gmap string value) : list value :=
  List.map (resolve primaryKeys) (pkValues row)
  ++ List.map (resolve primaryKeys) (insertValues row).

Definition GetPKAndInsertPlaceholders (row : Row) (driver : string)
  : list string :=
  List.map (placeholder driver)
    (seq 0 (length (pkValues row) + length (insertValues row))).

Definition GetUpdateColumns (row : Row) : list string :=
  List.map quoted (updateColumns row).

Definition GetUpdateColumnsLength (row : Row) : nat :=
  length (GetUpdateColumns row).

Definition GetUpdateValues (row : Row) (primaryKeys : gmap string value)
  : list value :=
  List.map (resolve primaryKeys) (updateValues row).

(** [fmt.Sprintf("%s = $%d", c, i+1)] or [fmt.Sprintf("%s = ?", c)]. *)
Definition assignment (driver : string) (i : nat) (c : string) : string :=
  if isPostgres driver then c +:+ " = $" +:+ itoa (i + 1)
  else c +:+ " = ?".

Definition GetUpdatePlaceholders (row : Row) (driver : string)
  : list string :=
  imap (assignment driver) (GetUpdateColumns row).

(** The loop of [GetWhere]: [wheres[i-j] = ...; i++] for each primary-key
    column; [k] is [i-j]. Writing past the end of [wheres] panics
    ([None]). *)
Fixpoint whereLoop (driver : string) (cols : list string) (i k : nat)
    (wheres : list string) : option (list string) :=
  match cols with
  | [] => Some wheres
  | c :: rest =>
      if (k <? length wheres)%nat
      then whereLoop driver rest (S i) (S k)
             (<[k := assignment driver i c]> wheres)
      else None
  end.

(** [Row.GetWhere(driver, i)]; [wheres] has [len(row.PK)] slots. *)
Definition GetWhere (row : Row) (driver : string) (i : nat)
  : option string :=
  wheres ← whereLoop driver (pkColumns row) i 0
              (replicate (size (PK row)) EmptyString);
  Some (Join wheres " AND ").

Definition GetPKValues (row : Row) (primaryKeys : gmap string value)
  : list value :=
  List.map (resolve primaryKeys) (pkValues row).

Definition GetPKColumns (row : Row) : list string := pkColumns row.

End RowCompiler.
Import RowCompiler.

(* ================================================================= *)
(** ** The load orchestrator *)

Module Loader.

(** What a load returns: [nil], an [error] with its message, or a run-time
    panic (an index past the end of a slice). *)
Inductive outcome : Type :=
| Success
| Failure (err : string)
| Panic.

(** [sql.Result], as far as the loader reads it: [LastInsertId()]. *)
Record Result : Type := mkResult { LastInsertId : string + Z }.

(** The handle behind [Context.Db] over a database state [DB]. A query is
    consumed together with the [Scan] of its single column: into an integer
    ([&pk], [&count]) or into a [*string] that is nil for NULL. An [inl]
    carries the error. *)
Record Handle (DB : Type) : Type := mkHandle {
  QueryRowScanInt : string -> list value -> DB -> DB * (string + Z);
  QueryRowScanName : string -> list value -> DB -> DB * (string + option string);
  Exec : string -> list value -> DB -> DB * (string + Result)
}.
Arguments QueryRowScanInt {DB} _ _ _ _.
Arguments QueryRowScanName {DB} _ _ _ _.
Arguments Exec {DB} _ _ _ _.

(** [Context]; [Db] holds the state the handle works on. The diagnostic
    output of [DumpSQL] goes to the process logger and is not modelled. *)
Record Context (DB : Type) : Type := mkContext {
  primaryKeys : gmap string value;
  Db : DB;
  Driver : string;
  DumpSQL : bool;
  SetUpdatedAtOnInsert : bool
}.
Arguments mkContext {DB} _ _ _ _ _.
Arguments primaryKeys {DB} _.
Arguments Db {DB} _.
Arguments Driver {DB} _.
Arguments DumpSQL {DB} _.
Arguments SetUpdatedAtOnInsert {DB} _.

Definition withDb {DB} (ctx : Context DB) (s : DB) : Context DB :=
  mkContext (primaryKeys ctx) s (Driver ctx) (DumpSQL ctx)
    (SetUpdatedAtOnInsert ctx).

(** [generator.Set(ctx.primaryKeys, pk)] on the context's registry. *)
Definition withKey {DB} (ctx : Context DB) (name : string) (pk : Z)
  : Context DB :=
  mkContext (Set_ name (primaryKeys ctx) (VInt pk)) (Db ctx) (Driver ctx)
    (DumpSQL ctx) (SetUpdatedAtOnInsert ctx).

Definition NewProcessingError (row : nat) (cause : string) : string :=
  "Error loading row " +:+ itoa row +:+ ": " +:+ cause.

Definition NewFileError (filename cause : string) : string :=
  "Error loading file " +:+ filename +:+ ": " +:+ cause.

(** [fmt.Sprintf(`INSERT INTO "%s"(%s) VALUES(%s)`, table,
    strings.Join(columns, ", "), strings.Join(placeholders, ", "))]. *)
Definition insertStatement (table : string) (columns placeholders : list string)
  : string :=
  "INSERT INTO " +:+ quoted table +:+ "(" +:+ Join columns ", "
  +:+ ") VALUES(" +:+ Join placeholders ", " +:+ ")".

(** [fmt.Sprintf(`SELECT COUNT( * ) FROM "%s" WHERE %s`, table, where)]. *)
Definition selectStatement (table where_ : string) : string :=
  "SELECT COUNT(*) FROM " +:+ quoted table +:+ " WHERE " +:+ where_.

(** [fmt.Sprintf(`UPDATE "%s" SET %s WHERE %s`, table,
    strings.Join(assignments, ", "), where)]. *)
Definition updateStatement (table : string) (assignments : list string)
    (where_ : string) : string :=
  "UPDATE " +:+ quoted table +:+ " SET " +:+ Join assignments ", "
  +:+ " WHERE " +:+ where_.

(** The two raw string literals of [fixPostgresPKSequence]. *)
Definition serialSequenceQuery : string :=
  nl +:+ tab +:+ tab +:+ "SELECT pg_get_serial_sequence($1, $2)"
  +:+ nl +:+ tab.

Definition setvalStatement (column table : string) : string :=
  nl +:+ tab +:+ tab +:+ "SELECT pg_catalog.setval($1, (SELECT MAX("
  +:+ quoted column +:+ ") FROM " +:+ quoted table +:+ "))" +:+ nl +:+ tab.

Section Orchestrator.

Context {DB : Type}.
Variable conn : Handle DB.

(** [fixPostgresPKSequence(ctx, table, column)]; [None] is a nil error. *)
Definition fixPostgresPKSequence (table column : string) (s : DB)
  : DB * option string :=
  match QueryRowScanName conn serialSequenceQuery
          [VStr table; VStr column] s with
  | (s1, inl err) => (s1, Some err)
  | (s1, inr None) => (s1, None)
  | (s1, inr (Some seqName)) =>
      match Exec conn (setvalStatement column table) [VStr seqName] s1 with
      | (s2, inl err) => (s2, Some err)
      | (s2, inr _) => (s2, None)
      end
  end.

(** The sequence fix-up as the loop calls it, with its error wrapped for
    row [i+1]. *)
Definition fixSequence (i : nat) (row : Row) (ctx : Context DB)
  : Context DB * outcome :=
  match fixPostgresPKSequence (Table row) "id" (Db ctx) with
  | (s1, Some err) => (withDb ctx s1, Failure (NewProcessingError (i + 1) err))
  | (s1, None) => (withDb ctx s1, Success)
  end.

(** Lines 52-86 of [LoadWithContext]: the single primary-key value is a
    generator. *)
Definition generatedInsert (i : nat) (row : Row) (name : string)
    (ctx : Context DB) : Context DB * outcome :=
  let insertQuery :=
    insertStatement (Table row) (GetInsertColumns row)
      (GetInsertPlaceholders row (Driver ctx)) in
  if String.eqb "postgres" (Driver ctx) then
    match GetPKColumns row with
    | [] => (ctx, Panic)
    | pkColumn :: _ =>
        match QueryRowScanInt conn (insertQuery +:+ " RETURNING " +:+ pkColumn)
                (GetInsertValues row (primaryKeys ctx)) (Db ctx) with
        | (s1, inl err) =>
            (withDb ctx s1, Failure (NewProcessingError (i + 1) err))
        | (s1, inr pk) => (withKey (withDb ctx s1) name pk, Success)
        end
    end
  else
    match Exec conn insertQuery (GetInsertValues row (primaryKeys ctx))
            (Db ctx) with
    | (s1, inl err) =>
        (withDb ctx s1, Failure (NewProcessingError (i + 1) err))
    | (s1, inr res) =>
        match LastInsertId res with
        | inl err => (withDb ctx s1, Failure (NewProcessingError (i + 1) err))
        | inr pk => (withKey (withDb ctx s1) name pk, Success)
        end
    end.

(** Lines 107-127: the count is zero. *)
Definition insertRow (i : nat) (row : Row) (ctx : Context DB)
  : Context DB * outcome :=
  let insertQuery :=
    insertStatement (Table row) (GetPKAndInsertColumns row)
      (GetPKAndInsertPlaceholders row (Driver ctx)) in
  match Exec conn insertQuery (GetPKAndInsertValues row (primaryKeys ctx))
          (Db ctx) with
  | (s1, inl err) => (withDb ctx s1, Failure (NewProcessingError (i + 1) err))
  | (s1, inr _) =>
      if String.eqb (Driver ctx) postgresDriver then
        match GetPKAndInsertColumns row with
        | [] => (withDb ctx s1, Panic)
        | first :: _ =>
            if String.eqb first (quoted "id")
            then fixSequence i row (withDb ctx s1)
            else (withDb ctx s1, Success)
        end
      else (withDb ctx s1, Success)
  end.

(** Lines 128-150: the count is not zero and there are update columns. *)
Definition updateRow (i : nat) (row : Row) (ctx : Context DB)
  : Context DB * outcome :=
  match GetWhere row (Driver ctx) (GetUpdateColumnsLength row) with
  | None => (ctx, Panic)
  | Some where_ =>
      let updateQuery :=
        updateStatement (Table row) (GetUpdatePlaceholders row (Driver ctx))
          where_ in
      let values :=
        (GetUpdateValues row (primaryKeys ctx)
         ++ GetPKValues row (primaryKeys ctx))%list in
      match Exec conn updateQuery values (Db ctx) with
      | (s1, inl err) =>
          (withDb ctx s1, Failure (NewProcessingError (i + 1) err))
      | (s1, inr _) =>
          if String.eqb (Driver ctx) postgresDriver then
            match GetUpdateColumns row with
            | [] => (withDb ctx s1, Panic)
            | first :: _ =>
                if String.eqb first (quoted "id")
                then fixSequence i row (withDb ctx s1)
                else (withDb ctx s1, Success)
            end
          else (withDb ctx s1, Success)
      end
  end.

(** Lines 90-150: the existence check and what follows it. *)
Definition checkedWrite (i : nat) (row : Row) (ctx : Context DB)
  : Context DB * outcome :=
  match GetWhere row (Driver ctx) 0 with
  | None => (ctx, Panic)
  | Some where_ =>
      match QueryRowScanInt conn (selectStatement (Table row) where_)
              (GetPKValues row (primaryKeys ctx)) (Db ctx) with
      | (s1, inl err) =>
          (withDb ctx s1, Failure (NewProcessingError (i + 1) err))
      | (s1, inr count) =>
          if (count =? 0)%Z then insertRow i row (withDb ctx s1)
          else if (0 <? GetUpdateColumnsLength row)%nat
               then updateRow i row (withDb ctx s1)
               else (withDb ctx s1, Success)
      end
  end.

(** One iteration of the loop of [LoadWithContext] on the row at index
    [i], after [row.Init]. *)
Definition loadCompiled (i : nat) (row : Row) (ctx : Context DB)
  : Context DB * outcome :=
  match GetPKValues row (primaryKeys ctx) with
  | [VGen name] => generatedInsert i row name ctx
  | _ => checkedWrite i row ctx
  end.

Definition loadRow (i : nat) (row : Row) (st : Context DB * Clock)
  : (Context DB * Clock) * outcome :=
  let '(ctx, clk) := st in
  let '(row1, clk1) := Init (SetUpdatedAtOnInsert ctx) row clk in
  let '(ctx1, out) := loadCompiled i row1 ctx in
  ((ctx1, clk1), out).

(** The [for i, row := range rows] of [LoadWithContext], from index [i]. *)
Fixpoint loadRows (i : nat) (rows : list Row) (st : Context DB * Clock)
  : (Context DB * Clock) * outcome :=
  match rows with
  | [] => (st, Success)
  | row :: rest =>
      match loadRow i row st with
      | (st1, Success) => loadRows (S i) rest st1
      | failed => failed
      end
  end.

(** [yaml.Unmarshal(data, &rows)], the deserialization collaborator. *)
Variable Unmarshal : string -> string + list Row.

Definition LoadWithContext (ctx : Context DB) (data : string) (clk : Clock)
  : (Context DB * Clock) * outcome :=
  match Unmarshal data with
  | inl err => ((ctx, clk), Failure err)
  | inr rows => loadRows 0 rows (ctx, clk)
  end.

End Orchestrator.

(** [*sql.DB] with the transaction it opens: [db.Begin()], the handle of
    the open transaction, [tx.Commit()] and [tx.Rollback()]. [Some err] is
    a non-nil error. *)
Record Database (DB : Type) : Type := mkDatabase {
  Begin : DB -> DB * option string;
  Tx : Handle DB;
  Commit : DB -> DB * option string;
  Rollback : DB -> DB * option string
}.
Arguments Begin {DB} _ _.
Arguments Tx {DB} _.
Arguments Commit {DB} _ _.
Arguments Rollback {DB} _ _.

(** The package variables read by the entry points. *)
Record Globals : Type := mkGlobals {
  DefaultDumpSQL : bool;
  DefaultSetUpdatedAtOnInsert : bool
}.

Section EntryPoints.

Context {DB : Type}.
Variable db : Database DB.
Variable Unmarshal : string -> string + list Row.
(** [ioutil.ReadFile]. *)
Variable ReadFile : string -> string + string.
Variable globals : Globals.

(** The context literal built by [Load], [LoadFile] and [LoadFiles]:
    [primaryKeys: map[string]interface{}{}], [Db: tx]. *)
Definition newContext (s : DB) (driver : string) : Context DB :=
  mkContext ∅ s driver (DefaultDumpSQL globals)
    (DefaultSetUpdatedAtOnInsert globals).

(** [defer tx.Rollback()]: runs when the function returns or panics; its
    error is dropped. *)
Definition deferredRollback (r : (DB * Clock) * outcome)
  : (DB * Clock) * outcome :=
  let '((s, clk), out) := r in (((Rollback db s).1, clk), out).

(** What follows the load inside the transaction: return its error, or
    [return tx.Commit()]. *)
Definition commitOrReturn (r : (Context DB * Clock) * outcome)
  : (DB * Clock) * outcome :=
  match r with
  | ((ctx, clk), Success) =>
      match Commit db (Db ctx) with
      | (s, None) => ((s, clk), Success)
      | (s, Some err) => ((s, clk), Failure err)
      end
  | ((ctx, clk), failed) => ((Db ctx, clk), failed)
  end.

(** [Load(data, db, driver)]. *)
Definition Load (data driver : string) (st : DB * Clock)
  : (DB * Clock) * outcome :=
  let '(s, clk) := st in
  match Begin db s with
  | (s1, Some err) => ((s1, clk), Failure err)
  | (s1, None) =>
      deferredRollback
        (commitOrReturn
           (LoadWithContext (Tx db) Unmarshal (newContext s1 driver) data clk))
  end.

(** [LoadFile(filename, db, driver)]: after the read it repeats the body of
    [Load] statement for statement. *)
Definition LoadFile (filename driver : string) (st : DB * Clock)
  : (DB * Clock) * outcome :=
  match ReadFile filename with
  | inl err => (st, Failure (NewFileError filename err))
  | inr data => Load data driver st
  end.

(** The [for _, filename := range filenames] of [LoadFiles]: every file
    is loaded with the one context [ctx]. *)
Fixpoint loadFiles (filenames : list string) (st : Context DB * Clock)
  : (Context DB * Clock) * outcome :=
  match filenames with
  | [] => (st, Success)
  | filename :: rest =>
      match ReadFile filename with
      | inl err => (st, Failure (NewFileError filename err))
      | inr data =>
          match LoadWithContext (Tx db) Unmarshal st.1 data st.2 with
          | (st1, Success) => loadFiles rest st1
          | failed => failed
          end
      end
  end.

(** [LoadFiles(filenames, db, driver)]. *)
Definition LoadFiles (filenames : list string) (driver : string)
    (st : DB * Clock) : (DB * Clock) * outcome :=
  let '(s, clk) := st in
  match Begin db s with
  | (s1, Some err) => ((s1, clk), Failure err)
  | (s1, None) =>
      deferredRollback
        (commitOrReturn (loadFiles filenames (newContext s1 driver, clk)))
  end.

End EntryPoints.

End Loader.
Import Loader.

(* ================================================================= *)
(** ** The earlier loader kept in the repository

    The second copy of the loader has no [Context]: [Load] decodes the
    document, opens its own transaction and its own registry, and runs the
    same loop over the rows; [LoadFile] and [LoadFiles] are built on it. *)

Module Legacy.

Section EntryPoints.

Context {DB : Type}.
Variable db : Database DB.
Variable Unmarshal : string -> string + list Row.
Variable ReadFile : string -> string + string.
(** The package variables [DumpSQL] and [SetUpdatedAtOnInsert]. *)
Variable DumpSQL_ SetUpdatedAtOnInsert_ : bool.

(** [Load(data, db, driver)]: the loop over the rows is the one of
    [LoadWithContext], with [primaryKeys], [tx] and [driver] as locals. *)
Definition Load (data driver : string) (st : DB * Clock)
  : (DB * Clock) * outcome :=
  let '(s, clk) := st in
  match Unmarshal data with
  | inl err => (st, Failure err)
  | inr rows =>
      match Begin db s with
      | (s1, Some err) => ((s1, clk), Failure err)
      | (s1, None) =>
          deferredRollback db
            (commitOrReturn db
               (loadRows (Tx db) 0 rows
                  (mkContext ∅ s1 driver DumpSQL_ SetUpdatedAtOnInsert_, clk)))
      end
  end.

(** [LoadFile(filename, db, driver)]. *)
Definition LoadFile (filename driver : string) (st : DB * Clock)
  : (DB * Clock) * outcome :=
  match ReadFile filename with
  | inl err => (st, Failure (NewFileError filename err))
  | inr data => Load data driver st
  end.

(** [LoadFiles(filenames, db, driver)]: one [LoadFile] per file. *)
Fixpoint LoadFiles (filenames : list string) (driver : string)
    (st : DB * Clock) : (DB * Clock) * outcome :=
  match filenames with
  | [] => (st, Success)
  | filename :: rest =>
      match LoadFile filename driver st with
      | (st1, Success) => LoadFiles rest driver st1
      | failed => failed
      end
  end.

End EntryPoints.

End Legacy.

(* ================================================================= *)
(** ** Observing the statements sent to the database *)

Module Trace.

Inductive call : Type :=
| QueryRowCall (query : string) (args : list value)
| ExecCall (query : string) (args : list value)
| BeginCall
| CommitCall
| RollbackCall.

#[global] Instance call_eq_dec : EqDecision call.
Proof. solve_decision. Defined.

Section Recording.

Context {DB : Type}.

Definition logged {A : Type} (c : call) (log : list call) (r : DB * A)
  : (DB * list call) * A :=
  ((r.1, (log ++ [c])%list), r.2).

(** The same handle, with every statement appended to a log kept next to
    the database state. *)
Definition recordHandle (h : Handle DB) : Handle (DB * list call) :=
  mkHandle (DB * list call)
    (fun q args st =>
       logged (QueryRowCall q args) st.2 (QueryRowScanInt h q args st.1))
    (fun q args st =>
       logged (QueryRowCall q args) st.2 (QueryRowScanName h q args st.1))
    (fun q args st => logged (ExecCall q args) st.2 (Exec h q args st.1)).

Definition recordDatabase (d : Database DB) : Database (DB * list call) :=
  mkDatabase (DB * list call)
    (fun st => logged BeginCall st.2 (Begin d st.1))
    (recordHandle (Tx d))
    (fun st => logged CommitCall st.2 (Commit d st.1))
    (fun st => logged RollbackCall st.2 (Rollback d st.1)).

(** A context over the recorded state, and back. *)
Definition withLog (ctx : Context DB) (log : list call)
  : Context (DB * list call) :=
  mkContext (primaryKeys ctx) (Db ctx, log) (Driver ctx) (DumpSQL ctx)
    (SetUpdatedAtOnInsert ctx).

Definition logOf (ctx : Context (DB * list call)) : list call := (Db ctx).2.

(** The statements the loop body sends for a compiled row, and for a row
    as decoded. *)
Definition compiledCalls (conn : Handle DB) (i : nat) (row : Row)
    (ctx : Context DB) : list call :=
  logOf (loadCompiled (recordHandle conn) i row (withLog ctx [])).1.

Definition rowCalls (conn : Handle DB) (i : nat) (row : Row)
    (ctx : Context DB) (clk : Clock) : list call :=
  logOf (loadRow (recordHandle conn) i row (withLog ctx [], clk)).1.1.

End Recording.

(** An [INSERT] statement, the existence check, and the two statements of
    the sequence fix-up. *)
Definition isInsertCall (c : call) : bool :=
  match c with
  | QueryRowCall q _ | ExecCall q _ => HasPrefix q "INSERT INTO "
  | _ => false
  end.

Definition isCountCall (c : call) : bool :=
  match c with
  | QueryRowCall q _ => HasPrefix q "SELECT COUNT(*) FROM "
  | _ => false
  end.

(** A statement sent through the handle of the transaction. *)
Definition isStatement (c : call) : bool :=
  match c with
  | QueryRowCall _ _ | ExecCall _ _ => true
  | _ => false
  end.

Definition isFixupCall (table : string) (c : call) : bool :=
  match c with
  | QueryRowCall q args =>
      String.eqb q serialSequenceQuery
      && bool_decide (args = [VStr table; VStr "id"])
  | ExecCall q _ => String.eqb q (setvalStatement "id" table)
  | _ => false
  end.

End Trace.
Import Trace.

(* ================================================================= *)
(** ** A small in-memory database to run the loader on *)

Module MemoryDb.

(** The statements applied so far ([committed]), the statements of the
    open transaction ([pending]), the answer to every [COUNT] query
    ([existing]) and the serial sequence of the [id] column, if any. *)
Record store : Type := mkStore {
  committed : list call;
  pending : list call;
  existing : Z;
  sequence : option string
}.

Definition write (c : call) (s : store) : store :=
  mkStore (committed s) (pending s ++ [c])%list (existing s) (sequence s).

Definition isNil (v : value) : bool :=
  match v with VNil => true | _ => false end.

(** The next generated key: one more than the number of statements seen. *)
Definition nextKey (s : store) : Z :=
  Z.of_nat (length (committed s) + length (pending s)) + 1.

Definition notNull : string := "null value violates not-null constraint".

(** A [strict] handle refuses a statement with a NULL argument; an
    [INSERT ... RETURNING] stores the row and returns its key; any other
    query is a [COUNT]. *)
Definition handle (strict : bool) : Handle store :=
  mkHandle store
    (fun q args s =>
       if strict && existsb isNil args then (s, inl notNull)
       else if HasPrefix q "INSERT"
            then (write (QueryRowCall q args) s, inr (nextKey s))
            else (s, inr (existing s)))
    (fun q args s => (s, inr (sequence s)))
    (fun q args s =>
       if strict && existsb isNil args then (s, inl notNull)
       else (write (ExecCall q args) s, inr (mkResult (inr (nextKey s))))).

Definition database (strict : bool) : Database store :=
  mkDatabase store
    (fun s => (mkStore (committed s) [] (existing s) (sequence s), None))
    (handle strict)
    (fun s =>
       (mkStore (committed s ++ pending s)%list [] (existing s) (sequence s),
        None))
    (fun s => (mkStore (committed s) [] (existing s) (sequence s), None)).

Definition empty : store := mkStore [] [] 0 None.

(** A clock that reads the number of the call. *)
Definition clock0 : Clock := mkClock Z.of_nat 0.

(** A file system and a decoder over three documents. *)
Definition usersRows : list Row :=
  [decoded "users" {["id" := VStr "PK_GENERATE(uid)"]}
     {["name" := VStr "Alice"]}].

Definition postsRows : list Row :=
  [decoded "posts" {["id" := VInt 1]}
     {["user_id" := VStr "PK_REFERENCE(uid)"]}].

Definition twoRows : list Row :=
  [decoded "tags" {["id" := VInt 7]} {["label" := VStr "go"]};
   decoded "tags" {["id" := VInt 8]} {["label" := VNil]}].

Definition unmarshal (data : string) : string + list Row :=
  if String.eqb data "users-doc" then inr usersRows
  else if String.eqb data "posts-doc" then inr postsRows
  else if String.eqb data "tags-doc" then inr twoRows
  else inl "yaml: unmarshal errors".

Definition readFile (filename : string) : string + string :=
  if String.eqb filename "users.yml" then inr "users-doc"
  else if String.eqb filename "posts.yml" then inr "posts-doc"
  else if String.eqb filename "tags.yml" then inr "tags-doc"
  else inl "open: no such file or directory".

Definition globals0 : Globals := mkGlobals true false.

(** Rows and starting points of the examples. *)
Definition userRow : Row :=
  decoded "users" {["id" := VStr "PK_GENERATE( uid )"]}
    {["name" := VStr "Alice"]}.

Definition postRow : Row :=
  decoded "posts" {["id" := VInt 1]}
    {["user_id" := VStr "PK_REFERENCE(uid)"]}.

Definition tagRow : Row :=
  decoded "tags" {["id" := VInt 7]} {["label" := VStr "go"]}.


Definition memberRow : Row :=
  decoded "members"
    {["id" := VStr "PK_GENERATE(mid)"; "tenant" := VInt 3]}
    {["role" := VStr "admin"]}.

Definition eventRow : Row :=
  decoded "events" {["id" := VInt 1]}
    {["created_at" := VStr "ON_INSERT_NOW()";
      "updated_at" := VStr "ON_UPDATE_NOW()";
      "note" := VStr "PK_GENERATE(x"]}.

Definition storeWith (count : Z) (seqName : option string) : store :=
  mkStore [] [] count seqName.

Definition context (driver : string) (s : store) : Context store :=
  mkContext ∅ s driver true false.

End MemoryDb.

(* ================================================================= *)
(** ** Vocabulary of the statements about the row compiler *)

Module Compiled.

(** What [Init] stores for a primary-key value. *)
Definition pkMarker (v : value) : value :=
  match v with
  | VStr sv =>
      if HasPrefix sv onPKGeneratePrefix && HasSuffix sv onPKGenerateSuffix
      then VGen (keyName sv onPKGeneratePrefix onPKGenerateSuffix)
      else if HasPrefix sv onPKReferencePrefix
              && HasSuffix sv onPKReferenceSuffix
      then VRef (keyName sv onPKReferencePrefix onPKReferenceSuffix)
      else v
  | _ => v
  end.

(** The field keys that get an insert column, and those that get an
    update column. *)
Definition insertsField (flag : bool) (fields : gmap string value)
    (k : string) : bool :=
  negb (isString (index fields k) onUpdateNow) || flag.

Definition updatesField (fields : gmap string value) (k : string) : bool :=
  negb (isString (index fields k) onInsertNow).

(** The value stored next to the insert column, and next to the update
    column, of field [k]: a time for a timestamp marker, the field's
    marker otherwise. *)
Definition insertValueOf (fields : gmap string value) (k : string)
    (v : value) : Prop :=
  if isString (index fields k) onInsertNow
     || isString (index fields k) onUpdateNow
  then exists t, v = VTime t
  else v = fieldMarker (index fields k).

Definition updateValueOf (fields : gmap string value) (k : string)
    (v : value) : Prop :=
  if isString (index fields k) onUpdateNow
  then exists t, v = VTime t
  else v = fieldMarker (index fields k).

(** The sorted key lists [Init] iterates over. *)
Definition pkKeys (row : Row) : list string := sort_Strings (keys (PK row)).
Definition fieldKeys (row : Row) : list string :=
  sort_Strings (keys (Fields row)).

(** The field keys with an insert column, and with an update column, in
    the order [Init] meets them. *)
Definition insertKeys (flag : bool) (row : Row) : list string :=
  List.filter (insertsField flag (Fields row)) (fieldKeys row).
Definition updateKeys (row : Row) : list string :=
  List.filter (updatesField (Fields row)) (fieldKeys row).

(** The generator's name when the values are exactly one generator
    marker. *)
Definition generatorOf (values : list value) : option string :=
  match values with
  | [VGen name] => Some name
  | _ => None
  end.

(** The test that [columns[0]] is the quoted name id, on a non-empty
    column list. *)
Definition startsWithId (columns : list string) : bool :=
  match columns with
  | c :: _ => String.eqb c (quoted "id")
  | [] => false
  end.

(** The WHERE clause over the primary-key columns [columns]: one condition
    per column, the first one numbered [i+1]. *)
Definition whereClause (driver : string) (i : nat) (columns : list string)
  : string :=
  Join (imap (fun d c => assignment driver (i + d) c) columns) " AND ".

(** The three statements of the checked path of a compiled row. *)
Definition checkCall {DB : Type} (row : Row) (ctx : Context DB) : call :=
  QueryRowCall
    (selectStatement (Table row)
       (whereClause (Driver ctx) 0 (pkColumns row)))
    (GetPKValues row (primaryKeys ctx)).

Definition insertCall {DB : Type} (row : Row) (ctx : Context DB) : call :=
  ExecCall
    (insertStatement (Table row) (GetPKAndInsertColumns row)
       (GetPKAndInsertPlaceholders row (Driver ctx)))
    (GetPKAndInsertValues row (primaryKeys ctx)).

Definition updateCall {DB : Type} (row : Row) (ctx : Context DB) : call :=
  ExecCall
    (updateStatement (Table row) (GetUpdatePlaceholders row (Driver ctx))
       (whereClause (Driver ctx) (length (updateColumns row))
          (pkColumns row)))
    (GetUpdateValues row (primaryKeys ctx)
     ++ GetPKValues row (primaryKeys ctx))%list.

Definition queryOf (c : call) : string :=
  match c with
  | QueryRowCall q _ | ExecCall q _ => q
  | _ => EmptyString
  end.

Definition argsOf (c : call) : list value :=
  match c with
  | QueryRowCall _ args | ExecCall _ args => args
  | _ => []
  end.

(** The statements of the sequence fix-up on [table], read off the answer
    of the handle in state [s]. *)
Definition fixupCalls {DB : Type} (conn : Handle DB) (table : string)
    (s : DB) : list call :=
  QueryRowCall serialSequenceQuery [VStr table; VStr "id"]
  :: match QueryRowScanName conn serialSequenceQuery
             [VStr table; VStr "id"] s with
     | (_, inr (Some seqName)) =>
         [ExecCall (setvalStatement "id" table) [VStr seqName]]
     | _ => []
     end.

(** The outcome of the sequence fix-up for row [i+1], read off the
    answers of the handle. *)
Definition fixupOutcome {DB : Type} (conn : Handle DB) (i : nat)
    (table : string) (s : DB) : outcome :=
  match QueryRowScanName conn serialSequenceQuery
          [VStr table; VStr "id"] s with
  | (_, inl err) => Failure (NewProcessingError (i + 1) err)
  | (_, inr None) => Success
  | (s1, inr (Some seqName)) =>
      match Exec conn (setvalStatement "id" table) [VStr seqName] s1 with
      | (_, inl err) => Failure (NewProcessingError (i + 1) err)
      | (_, inr _) => Success
      end
  end.

(** A handle none of whose operations returns an error. *)
Definition neverFails {DB : Type} (conn : Handle DB) : Prop :=
  (forall q args s, exists s1 n, QueryRowScanInt conn q args s = (s1, inr n))
  /\ (forall q args s,
        exists s1 o, QueryRowScanName conn q args s = (s1, inr o))
  /\ (forall q args s,
        exists s1 n, Exec conn q args s = (s1, inr (mkResult (inr n)))).

(** What a row may do to the registry: nothing, or one key written. *)
Definition registryStep (before after : gmap string value) : Prop :=
  after = before \/ exists name pk, after = <[name := VInt pk]> before.

(** What a failure of row [i+1] looks like. *)
Definition rowFailure (i : nat) (out : outcome) : Prop :=
  forall e, out = Failure e ->
            exists cause, e = NewProcessingError (i + 1) cause.

(** The log of an open transaction: the BEGIN and statements. *)
Definition openLog {DB : Type} (st : DB * list call) : Prop :=
  exists stmts,
    st.2 = BeginCall :: stmts
    /\ Forall (fun c => isStatement c = true) stmts.

(** An open transaction that has not touched the committed state [c0]. *)
Definition inTransaction {DB C : Type} (committed : DB -> C) (c0 : C)
    (st : DB * list call) : Prop :=
  committed st.1 = c0 /\ openLog st.

(** The end of a load that did not succeed, seen on the recorded database:
    the failure is returned as it is, the committed state is the one
    before the call, and the log is the BEGIN, the statements sent, and
    the ROLLBACK, with no COMMIT. *)
Definition rolledBack {DB C : Type} (committed : DB -> C) (s : DB)
    (result : ((DB * list call) * Clock) * outcome) (out : outcome) : Prop :=
  result.2 = out
  /\ committed result.1.1.1 = committed s
  /\ exists stmts,
       result.1.1.2 = (BeginCall :: stmts ++ [RollbackCall])%list
       /\ Forall (fun c => isStatement c = true) stmts.

End Compiled.
Import Compiled.

(* ================================================================= *)
(** ** The first row compiler kept in the repository

    The oldest copy of the row compiler knows one marker for keys,
    [ON_PK_GENERATE(], resolves generators (not references) in its value
    accessors, and puts the primary-key columns among the insert columns. *)

Module RowV0.

Definition onPKGeneratePrefix : string := "ON_PK_GENERATE(".
Definition onPKGenerateSuffix : string := ")".

(** [(pk *PrimaryKeyGenerator) Get(values)]: [values[pk.name]]. *)
Definition Get (name : string) (values : gmap string value) : value :=
  index values name.

Definition appendPK (row : Row) (v : value) : Row :=
  mkRow (Table row) (PK row) (Fields row) (pkColumns row)
    (pkValues row ++ [v]) (insertColumns row) (updateColumns row)
    (insertValues row) (updateValues row).

(** The test of the loop over [row.pkColumns]: both conditions are
    [strings.HasPrefix], as the source has them. *)
Definition isGenerator (v : value) : bool :=
  match v with
  | VStr sv =>
      HasPrefix sv onPKGeneratePrefix && HasPrefix sv onPKGenerateSuffix
  | _ => false
  end.

(** [strings.TrimSpace(strings.TrimPrefix(strings.TrimPrefix(sv, suffix),
    prefix))]. *)
Definition generatorName (v : value) : string :=
  match v with
  | VStr sv =>
      TrimSpace
        (TrimPrefix (TrimPrefix sv onPKGenerateSuffix) onPKGeneratePrefix)
  | _ => EmptyString
  end.

(** Body of the loop over [row.pkColumns]. *)
Definition initPK (row : Row) (pkKey : string) : Row :=
  if isGenerator (index (PK row) pkKey)
  then appendPK row (VGen (generatorName (index (PK row) pkKey)))
  else appendInsert (appendPK row (index (PK row) pkKey)) pkKey
         (index (PK row) pkKey).

(** Body of the loop over the sorted field keys. *)
Definition initField (SetUpdatedAtOnInsert : bool) (st : Row * Clock)
    (fieldKey : string) : Row * Clock :=
  let '(row, clk) := st in
  let fieldValue := index (Fields row) fieldKey in
  if isString fieldValue onInsertNow then
    let '(t, clk1) := Now clk in
    (appendInsert row fieldKey (VTime t), clk1)
  else if isString fieldValue onUpdateNow then
    let '(t, clk1) := Now clk in
    let row1 := appendUpdate row fieldKey (VTime t) in
    if SetUpdatedAtOnInsert then
      let '(t2, clk2) := Now clk1 in
      (appendInsert row1 fieldKey (VTime t2), clk2)
    else (row1, clk1)
  else
    (appendUpdate (appendInsert row fieldKey fieldValue) fieldKey fieldValue,
     clk).

(** [Row.Init] of the first compiler. *)
Definition Init (SetUpdatedAtOnInsert : bool) (row : Row) (clk : Clock)
  : Row * Clock :=
  let pkCols := sort_Strings (keys (PK row)) in
  let row0 :=
    mkRow (Table row) (PK row) (Fields row) pkCols [] [] [] [] [] in
  let row1 := fold_left initPK pkCols row0 in
  let fieldKeys := sort_Strings (keys (Fields row)) in
  fold_left (initField SetUpdatedAtOnInsert) fieldKeys (row1, clk).

(** A [*PrimaryKeyGenerator] is replaced by its registry entry. *)
Definition resolve (primaryKeys : gmap string value) (v : value) : value :=
  match v with
  | VGen name => Get name primaryKeys
  | _ => v
  end.

Definition GetInsertColumns (row : Row) : list string :=
  List.map quoted (insertColumns row).

Definition GetInsertColumnsLength (row : Row) : nat :=
  length (GetInsertColumns row).

Definition GetInsertValues (row : Row) (primaryKeys : gmap string value)
  : list value :=
  List.map (resolve primaryKeys) (insertValues row).

Definition GetInsertPlaceholders (row : Row) (driver : string) : list string :=
  List.map (placeholder driver) (seq 0 (GetInsertColumnsLength row)).

Definition GetUpdateValues (row : Row) (primaryKeys : gmap string value)
  : list value :=
  List.map (resolve primaryKeys) (updateValues row).

(** [Row.GetPKValues()]: the stored slice. *)
Definition GetPKValues (row : Row) : list value := pkValues row.

End RowV0.

(** A value the YAML decoder can produce: no time and no marker pointer. *)
Definition isDecoded (v : value) : bool :=
  match v with
  | VTime _ | VGen _ | VRef _ => false
  | _ => true
  end.

(* ================================================================= *)
(** ** Vocabulary of the statements about the generated path *)

Module Generated.

(** The statement of the generated path of a compiled row. *)
Definition generatedCall {DB : Type} (row : Row) (ctx : Context DB) : call :=
  let q :=
    insertStatement (Table row) (GetInsertColumns row)
      (GetInsertPlaceholders row (Driver ctx)) in
  if String.eqb "postgres" (Driver ctx)
  then QueryRowCall (q +:+ " RETURNING " +:+ hd EmptyString (GetPKColumns row))
         (GetInsertValues row (primaryKeys ctx))
  else ExecCall q (GetInsertValues row (primaryKeys ctx)).

(** What the database answers to it: the new state, and the key from
    RETURNING or from the last insert id, or the error. *)
Definition generatedAnswer {DB : Type} (conn : Handle DB) (row : Row)
    (ctx : Context DB) : DB * (string + Z) :=
  if String.eqb "postgres" (Driver ctx)
  then QueryRowScanInt conn (queryOf (generatedCall row ctx))
         (argsOf (generatedCall row ctx)) (Db ctx)
  else match Exec conn (queryOf (generatedCall row ctx))
               (argsOf (generatedCall row ctx)) (Db ctx) with
       | (s1, inl err) => (s1, inl err)
       | (s1, inr res) => (s1, LastInsertId res)
       end.

(** A run of [n] blanks. *)
Fixpoint blanks (n : nat) : string :=
  match n with
  | O => EmptyString
  | S n => " " +:+ blanks n
  end.

(** An ASCII byte that is no white space. *)
Definition visible (b : N) : bool :=
  ((b <? 128) && negb ((9 <=? b) && (b <=? 13) || (b =? 32)))%N.

(** A name that is empty, or begins and ends with a visible ASCII
    character. *)
Definition tight (name : string) : bool :=
  match bytes_of name with
  | [] => true
  | b :: t => visible b && visible (List.last t b)
  end.

End Generated.
Import Generated.

(* ================================================================= *)
(** ** Facts about the order of columns *)

Section Order.

Lemma str_le_iff a b :
  str_le a b <-> OrderedTypeEx.String_as_OT.lt a b \/ a = b.
Proof.
  unfold str_le, String.leb.
  pose proof (OrderedTypeEx.String_as_OT.cmp_lt a b) as Hlt.
  pose proof (OrderedTypeEx.String_as_OT.cmp_eq a b) as Heq.
  unfold OrderedTypeEx.String_as_OT.cmp in *.
  destruct (String.compare a b) eqn:E; split; intros H; try done.
  - right. by apply Heq.
  - left. by apply Hlt.
  - destruct H as [H | H]; [apply Hlt in H | apply Heq in H]; congruence.
Qed.

#[global] Instance str_le_transitive : Transitive str_le.
Proof.
  intros a b c Hab Hbc. apply str_le_iff in Hab, Hbc. apply str_le_iff.
  destruct Hab as [Hab | ->], Hbc as [Hbc | ->]; eauto.
  left. eapply OrderedTypeEx.String_as_OT.lt_trans; eauto.
Qed.

#[global] Instance str_le_total : Total str_le.
Proof. intros a b. apply String.leb_total. Qed.

#[global] Instance str_le_antisym : AntiSymm (=) str_le.
Proof. intros a b. apply String.leb_antisym. Qed.

Lemma sort_Strings_sorted l : StronglySorted str_le (sort_Strings l).
Proof. apply StronglySorted_merge_sort; apply _. Qed.

Lemma sort_Strings_perm l : sort_Strings l ≡ₚ l.
Proof. apply merge_sort_Permutation. Qed.

Lemma sort_Strings_length l : length (sort_Strings l) = length l.
Proof. by rewrite sort_Strings_perm. Qed.

Lemma keys_length (m : gmap string value) : length (keys m) = size m.
Proof. unfold keys. by rewrite length_fmap, length_map_to_list. Qed.

Lemma elem_of_keys (m : gmap string value) k :
  k ∈ keys m <-> is_Some (m !! k).
Proof.
  unfold keys. rewrite list_elem_of_fmap. split.
  - intros [[k' v] [-> Hin]]. apply elem_of_map_to_list in Hin. by eexists.
  - intros [v Hv]. exists (k, v). split; [done |].
    by apply elem_of_map_to_list.
Qed.

Lemma elem_of_sorted_keys (m : gmap string value) k :
  k ∈ sort_Strings (keys m) <-> is_Some (m !! k).
Proof. by rewrite sort_Strings_perm, elem_of_keys. Qed.

Lemma filter_sorted (P : string -> bool) l :
  StronglySorted str_le l -> StronglySorted str_le (List.filter P l).
Proof.
  induction 1 as [| x l Hl IH Hx]; simpl; [constructor |].
  destruct (P x); [| done]. constructor; [done |].
  rewrite List.Forall_forall in *. intros y Hy.
  apply List.filter_In in Hy. apply Hx, Hy.
Qed.

End Order.

(* ================================================================= *)
(** ** Facts about [Init] *)

Section InitFacts.

Lemma initPK_app pk acc k :
  initPK pk acc k = (acc ++ [pkMarker (index pk k)])%list.
Proof.
  unfold initPK, pkMarker. destruct (index pk k); try done.
  repeat case_match; done.
Qed.

Lemma fold_initPK pk ks : forall acc,
  fold_left (initPK pk) ks acc
  = (acc ++ List.map (fun k => pkMarker (index pk k)) ks)%list.
Proof.
  induction ks as [| k ks IH]; intros acc; simpl.
  - by rewrite app_nil_r.
  - rewrite IH, initPK_app, <- app_assoc. done.
Qed.

(** One step of the field loop, in terms of what it appends. *)
Lemma initField_step flag row clk k :
  let r := initField flag (row, clk) k in
  Table r.1 = Table row /\ PK r.1 = PK row /\ Fields r.1 = Fields row
  /\ pkColumns r.1 = pkColumns row /\ pkValues r.1 = pkValues row
  /\ insertColumns r.1
     = (insertColumns row
        ++ (if insertsField flag (Fields row) k then [k] else []))%list
  /\ updateColumns r.1
     = (updateColumns row
        ++ (if updatesField (Fields row) k then [k] else []))%list
  /\ (exists iv,
        insertValues r.1 = (insertValues row ++ iv)%list
        /\ Forall2 (insertValueOf (Fields row))
             (if insertsField flag (Fields row) k then [k] else []) iv)
  /\ (exists uv,
        updateValues r.1 = (updateValues row ++ uv)%list
        /\ Forall2 (updateValueOf (Fields row))
             (if updatesField (Fields row) k then [k] else []) uv)
  /\ wall r.2 = wall clk /\ ticks clk <= ticks r.2.
Proof.
  unfold initField, insertsField, updatesField, insertValueOf, updateValueOf.
  destruct (isString (index (Fields row) k) onInsertNow) eqn:Ei.
  { assert (isString (index (Fields row) k) onUpdateNow = false) as Eu.
    { destruct (index (Fields row) k); try done. simpl in *.
      apply String.eqb_eq in Ei. by subst. }
    rewrite Eu. simpl. rewrite !app_nil_r.
    repeat split; try done; try lia.
    - eexists; split; [done |]. repeat constructor. rewrite Ei. by eexists.
    - exists []. rewrite app_nil_r. split; [done | constructor]. }
  destruct (isString (index (Fields row) k) onUpdateNow) eqn:Eu.
  { destruct flag; simpl; rewrite ?app_nil_r; repeat split; try done; try lia.
    - eexists; split; [done |]. repeat constructor. rewrite Ei, Eu. by eexists.
    - eexists; split; [done |]. repeat constructor. rewrite Eu. by eexists.
    - exists []. rewrite app_nil_r. split; [done | constructor].
    - eexists; split; [done |]. repeat constructor. rewrite Eu. by eexists. }
  simpl. repeat split; try done; try lia.
  - eexists; split; [done |]. repeat constructor. by rewrite Ei, Eu.
  - eexists; split; [done |]. repeat constructor. by rewrite Eu.
Qed.

Lemma field_loop flag ks : forall row clk,
  let r := fold_left (initField flag) ks (row, clk) in
  Table r.1 = Table row /\ PK r.1 = PK row /\ Fields r.1 = Fields row
  /\ pkColumns r.1 = pkColumns row /\ pkValues r.1 = pkValues row
  /\ insertColumns r.1
     = (insertColumns row
        ++ List.filter (insertsField flag (Fields row)) ks)%list
  /\ updateColumns r.1
     = (updateColumns row ++ List.filter (updatesField (Fields row)) ks)%list
  /\ (exists iv,
        insertValues r.1 = (insertValues row ++ iv)%list
        /\ Forall2 (insertValueOf (Fields row))
             (List.filter (insertsField flag (Fields row)) ks) iv)
  /\ (exists uv,
        updateValues r.1 = (updateValues row ++ uv)%list
        /\ Forall2 (updateValueOf (Fields row))
             (List.filter (updatesField (Fields row)) ks) uv)
  /\ wall r.2 = wall clk /\ ticks clk <= ticks r.2.
Proof.
  induction ks as [| k ks IH]; intros row clk.
  - simpl. rewrite !app_nil_r. repeat split; try done.
    + exists []. by rewrite app_nil_r.
    + exists []. by rewrite app_nil_r.
  - cbn [fold_left List.filter].
    pose proof (initField_step flag row clk k) as Hstep.
    destruct (initField flag (row, clk) k) as [row1 clk1]. simpl in Hstep.
    destruct Hstep as (HT & HP & HF & HpC & HpV & HiC & HuC
                       & (iv1 & HiV & Hi2) & (uv1 & HuV & Hu2) & Hw & Ht).
    specialize (IH row1 clk1).
    destruct (fold_left (initField flag) ks (row1, clk1)) as [row2 clk2].
    simpl in IH |- *.
    destruct IH as (HT' & HP' & HF' & HpC' & HpV' & HiC' & HuC'
                    & (iv2 & HiV' & Hi2') & (uv2 & HuV' & Hu2') & Hw' & Ht').
    rewrite HF in *.
    repeat split; try congruence; try lia.
    + rewrite HiC', HiC, <- app_assoc.
      by destruct (insertsField flag (Fields row) k).
    + rewrite HuC', HuC, <- app_assoc.
      by destruct (updatesField (Fields row) k).
    + exists (iv1 ++ iv2)%list. split.
      * by rewrite HiV', HiV, <- app_assoc.
      * destruct (insertsField flag (Fields row) k); [| by inversion Hi2].
        inversion Hi2 as [| ? v1 ? l1 Hv Hnil]; subst.
        inversion Hnil; subst. by constructor.
    + exists (uv1 ++ uv2)%list. split.
      * by rewrite HuV', HuV, <- app_assoc.
      * destruct (updatesField (Fields row) k); [| by inversion Hu2].
        inversion Hu2 as [| ? v1 ? l1 Hv Hnil]; subst.
        inversion Hnil; subst. by constructor.
Qed.

(** [Init] in closed form. *)
Lemma Init_spec flag row clk :
  let r := (Init flag row clk).1 in
  Table r = Table row /\ PK r = PK row /\ Fields r = Fields row
  /\ pkColumns r = pkKeys row
  /\ pkValues r = List.map (fun k => pkMarker (index (PK row) k)) (pkKeys row)
  /\ insertColumns r
     = List.filter (insertsField flag (Fields row)) (fieldKeys row)
  /\ updateColumns r = List.filter (updatesField (Fields row)) (fieldKeys row)
  /\ Forall2 (insertValueOf (Fields row)) (insertColumns r) (insertValues r)
  /\ Forall2 (updateValueOf (Fields row)) (updateColumns r) (updateValues r).
Proof.
  unfold Init, pkKeys, fieldKeys.
  match goal with
  | |- context [fold_left (initField flag) ?ks (?r0, clk)] =>
      pose proof (field_loop flag ks r0 clk) as H;
      destruct (fold_left (initField flag) ks (r0, clk)) as [r1 clk1]
  end.
  cbn [fst snd Table PK Fields pkColumns pkValues insertColumns updateColumns
       insertValues updateValues] in H |- *.
  destruct H as (HT & HP & HF & HpC & HpV & HiC & HuC
                 & (iv & HiV & Hi2) & (uv & HuV & Hu2) & _).
  rewrite fold_initPK in HpV. simpl in HiC, HuC, HiV, HuV, HpV.
  repeat split; try done.
  - by rewrite HiC, HiV.
  - by rewrite HuC, HuV.
Qed.

End InitFacts.
Section WhereFacts.

Lemma whereLoop_spec driver cols : forall i k (wheres : list string),
  k + length cols <= length wheres ->
  whereLoop driver cols i k wheres
  = Some (take k wheres
          ++ imap (fun d c => assignment driver (i + d) c) cols
          ++ drop (k + length cols) wheres)%list.
Proof.
  induction cols as [| c cols IH]; intros i k wheres Hlen; simpl in *.
  - by rewrite Nat.add_0_r, take_drop.
  - destruct (Nat.ltb_spec k (length wheres)) as [Hk | Hk]; [| lia].
    rewrite IH by (rewrite length_insert; lia).
    f_equal.
    rewrite (take_S_r _ _ (assignment driver i c))
      by (by apply list_lookup_insert_eq).
    rewrite take_insert_ge by lia.
    rewrite drop_insert_lt by lia.
    rewrite <- app_assoc. simpl. rewrite Nat.add_0_r.
    replace (S k + length cols) with (k + S (length cols)) by lia.
    do 3 f_equal; [| f_equal; lia].
    apply imap_ext. intros d x _. simpl. f_equal. lia.
Qed.

Lemma Init_pk_lengths flag row clk :
  let r := (Init flag row clk).1 in
  length (pkColumns r) = size (PK r)
  /\ length (pkValues r) = length (pkColumns r).
Proof.
  destruct (Init_spec flag row clk) as (_ & HP & _ & HpC & HpV & _).
  simpl. rewrite HP, HpC, HpV, length_map. split; [| done].
  unfold pkKeys. by rewrite sort_Strings_length, keys_length.
Qed.

(** After [Init] the WHERE clause never panics: one condition per sorted
    primary-key column, numbered from [i+1]. *)
Lemma GetWhere_Init flag row clk driver i :
  GetWhere (Init flag row clk).1 driver i
  = Some (whereClause driver i (pkColumns (Init flag row clk).1)).
Proof.
  unfold GetWhere, whereClause.
  destruct (Init_pk_lengths flag row clk) as [Hlen _].
  destruct (Init_spec flag row clk) as (_ & _ & _ & HpC & _).
  simpl in *. rewrite whereLoop_spec by (rewrite length_replicate; simpl; lia).
  simpl. rewrite Hlen, drop_ge by (rewrite length_replicate; lia).
  by rewrite app_nil_r.
Qed.

End WhereFacts.
(* ================================================================= *)
(** ** Recording is faithful *)

Section RecordingFacts.

Context {DB : Type}.
Variable conn : Handle DB.

Ltac destruct_answers :=
  repeat match goal with
    | |- context [QueryRowScanInt conn ?q ?a ?s] =>
        destruct (QueryRowScanInt conn q a s) as [? [? | ?]]
    | |- context [QueryRowScanName conn ?q ?a ?s] =>
        destruct (QueryRowScanName conn q a s) as [? [? | [? |]]]
    | |- context [Exec conn ?q ?a ?s] =>
        destruct (Exec conn q a s) as [? [? | [[? | ?]]]]
    end; cbn.

Ltac record_simpl :=
  cbn [recordHandle logged withLog withDb withKey logOf fst snd
       QueryRowScanInt QueryRowScanName Exec primaryKeys Db Driver DumpSQL
       SetUpdatedAtOnInsert LastInsertId].

Lemma record_fixSequence i row ctx log :
  fixSequence (recordHandle conn) i row (withLog ctx log)
  = (withLog (fixSequence conn i row ctx).1
       (log ++ logOf (fixSequence (recordHandle conn) i row
                        (withLog ctx [])).1),
     (fixSequence conn i row ctx).2).
Proof.
  unfold fixSequence, fixPostgresPKSequence. record_simpl.
  destruct (QueryRowScanName conn serialSequenceQuery
              [VStr (Table row); VStr "id"] (Db ctx)) as [s1 [err | [seq |]]];
    record_simpl; try done.
  destruct (Exec conn (setvalStatement "id" (Table row)) [VStr seq] s1)
    as [s2 [err | res]]; record_simpl; by rewrite <- ?app_assoc.
Qed.

Lemma record_generatedInsert i row name ctx log :
  generatedInsert (recordHandle conn) i row name (withLog ctx log)
  = (withLog (generatedInsert conn i row name ctx).1
       (log ++ logOf (generatedInsert (recordHandle conn) i row name
                        (withLog ctx [])).1),
     (generatedInsert conn i row name ctx).2).
Proof.
  unfold generatedInsert. record_simpl.
  destruct (String.eqb "postgres" (Driver ctx)).
  - destruct (GetPKColumns row) as [| c cs]; record_simpl.
    { by rewrite app_nil_r. }
    match goal with
    | |- context [QueryRowScanInt conn ?q ?a ?s] =>
        destruct (QueryRowScanInt conn q a s) as [s1 [err | pk]]
    end; by record_simpl.
  - match goal with
    | |- context [Exec conn ?q ?a ?s] =>
        destruct (Exec conn q a s) as [s1 [err | [[err | pk]]]]
    end; by record_simpl.
Qed.

Lemma withDb_withLog (ctx : Context DB) log s log' :
  withDb (withLog ctx log) (s, log') = withLog (withDb ctx s) log'.
Proof. done. Qed.

Lemma record_insertRow i row ctx log :
  insertRow (recordHandle conn) i row (withLog ctx log)
  = (withLog (insertRow conn i row ctx).1
       (log ++ logOf (insertRow (recordHandle conn) i row
                        (withLog ctx [])).1),
     (insertRow conn i row ctx).2).
Proof.
  unfold insertRow. record_simpl.
  match goal with
  | |- context [Exec conn ?q ?a ?s] =>
      destruct (Exec conn q a s) as [s1 [err | res]]
  end; record_simpl; [done |].
  destruct (String.eqb (Driver ctx) postgresDriver); [| done].
  destruct (GetPKAndInsertColumns row) as [| c cs]; [done |].
  destruct (String.eqb c (quoted "id")); [| done].
  rewrite !withDb_withLog, record_fixSequence.
  rewrite (record_fixSequence _ _ _ ([] ++ _)).
  record_simpl. by rewrite <- !app_assoc.
Qed.

Lemma record_updateRow i row ctx log :
  updateRow (recordHandle conn) i row (withLog ctx log)
  = (withLog (updateRow conn i row ctx).1
       (log ++ logOf (updateRow (recordHandle conn) i row
                        (withLog ctx [])).1),
     (updateRow conn i row ctx).2).
Proof.
  unfold updateRow. record_simpl.
  destruct (GetWhere row (Driver ctx) (GetUpdateColumnsLength row));
    record_simpl; [| by rewrite app_nil_r].
  match goal with
  | |- context [Exec conn ?q ?a ?s] =>
      destruct (Exec conn q a s) as [s1 [err | res]]
  end; record_simpl; [done |].
  destruct (String.eqb (Driver ctx) postgresDriver); [| done].
  destruct (GetUpdateColumns row) as [| c cs]; [done |].
  destruct (String.eqb c (quoted "id")); [| done].
  rewrite !withDb_withLog, record_fixSequence.
  rewrite (record_fixSequence _ _ _ ([] ++ _)).
  record_simpl. by rewrite <- !app_assoc.
Qed.

Lemma record_checkedWrite i row ctx log :
  checkedWrite (recordHandle conn) i row (withLog ctx log)
  = (withLog (checkedWrite conn i row ctx).1
       (log ++ logOf (checkedWrite (recordHandle conn) i row
                        (withLog ctx [])).1),
     (checkedWrite conn i row ctx).2).
Proof.
  unfold checkedWrite. record_simpl.
  destruct (GetWhere row (Driver ctx) 0); record_simpl;
    [| by rewrite app_nil_r].
  match goal with
  | |- context [QueryRowScanInt conn ?q ?a ?s] =>
      destruct (QueryRowScanInt conn q a s) as [s1 [err | count]]
  end; record_simpl; [done |].
  destruct (count =? 0)%Z.
  - rewrite !withDb_withLog, record_insertRow.
    rewrite (record_insertRow _ _ _ ([] ++ _)).
    record_simpl. by rewrite <- !app_assoc.
  - destruct (0 <? GetUpdateColumnsLength row)%nat; [| done].
    rewrite !withDb_withLog, record_updateRow.
    rewrite (record_updateRow _ _ _ ([] ++ _)).
    record_simpl. by rewrite <- !app_assoc.
Qed.

(** Recording changes neither the outcome nor the context; the log grows
    by the statements of the row. *)
Lemma record_loadCompiled i row ctx log :
  loadCompiled (recordHandle conn) i row (withLog ctx log)
  = (withLog (loadCompiled conn i row ctx).1
       (log ++ compiledCalls conn i row ctx),
     (loadCompiled conn i row ctx).2).
Proof.
  unfold compiledCalls, loadCompiled. record_simpl.
  destruct (GetPKValues row (primaryKeys ctx)) as [| v vs];
    [apply record_checkedWrite |].
  destruct v; try apply record_checkedWrite.
  destruct vs; [apply record_generatedInsert | apply record_checkedWrite].
Qed.

Lemma record_loadRow i row ctx clk log :
  loadRow (recordHandle conn) i row (withLog ctx log, clk)
  = ((withLog (loadRow conn i row (ctx, clk)).1.1
        (log ++ rowCalls conn i row ctx clk),
      (loadRow conn i row (ctx, clk)).1.2),
     (loadRow conn i row (ctx, clk)).2).
Proof.
  unfold rowCalls, loadRow. record_simpl.
  destruct (Init (SetUpdatedAtOnInsert ctx) row clk) as [row1 clk1].
  rewrite record_loadCompiled.
  rewrite (record_loadCompiled _ _ _ []).
  destruct (loadCompiled conn i row1 ctx) as [ctx1 out]. done.
Qed.

Lemma rowCalls_compiled i row ctx clk :
  rowCalls conn i row ctx clk
  = compiledCalls conn i (Init (SetUpdatedAtOnInsert ctx) row clk).1 ctx.
Proof.
  unfold rowCalls, compiledCalls, loadRow. record_simpl.
  destruct (Init (SetUpdatedAtOnInsert ctx) row clk) as [row1 clk1].
  cbn [fst].
  by destruct (loadCompiled (recordHandle conn) i row1 (withLog ctx [])).
Qed.

End RecordingFacts.
Section BlockCalls.

Context {DB : Type}.
Variable conn : Handle DB.

Ltac record_simpl :=
  cbn [recordHandle logged withLog withDb withKey logOf fst snd
       QueryRowScanInt QueryRowScanName Exec primaryKeys Db Driver DumpSQL
       SetUpdatedAtOnInsert LastInsertId app].

Lemma loadCompiled_generated {D} (h : Handle D) i row ctx name :
  generatorOf (GetPKValues row (primaryKeys ctx)) = Some name ->
  loadCompiled h i row ctx = generatedInsert h i row name ctx.
Proof.
  unfold loadCompiled, generatorOf.
  destruct (GetPKValues row (primaryKeys ctx)) as [| [] []]; try done.
  by intros [= ->].
Qed.

Lemma loadCompiled_checked {D} (h : Handle D) i row ctx :
  generatorOf (GetPKValues row (primaryKeys ctx)) = None ->
  loadCompiled h i row ctx = checkedWrite h i row ctx.
Proof.
  unfold loadCompiled, generatorOf.
  by destruct (GetPKValues row (primaryKeys ctx)) as [| [] []].
Qed.

(** The statements of the sequence fix-up. *)
Lemma fixSequence_calls i row ctx :
  logOf (fixSequence (recordHandle conn) i row (withLog ctx [])).1
  = fixupCalls conn (Table row) (Db ctx).
Proof.
  unfold fixSequence, fixPostgresPKSequence, fixupCalls. record_simpl.
  destruct (QueryRowScanName conn serialSequenceQuery
              [VStr (Table row); VStr "id"] (Db ctx)) as [s1 [err | [seq |]]];
    record_simpl; try done.
  by destruct (Exec conn (setvalStatement "id" (Table row)) [VStr seq] s1)
    as [s2 [err | res]].
Qed.

Lemma fixSequence_outcome i row ctx :
  (fixSequence conn i row ctx).2 = fixupOutcome conn i (Table row) (Db ctx).
Proof.
  unfold fixSequence, fixPostgresPKSequence, fixupOutcome.
  destruct (QueryRowScanName conn serialSequenceQuery
              [VStr (Table row); VStr "id"] (Db ctx)) as [s1 [err | [seq |]]];
    try done.
  by destruct (Exec conn (setvalStatement "id" (Table row)) [VStr seq] s1)
    as [s2 [err | res]].
Qed.

Lemma setval_neq_serial table :
  String.eqb (setvalStatement "id" table) serialSequenceQuery = false.
Proof. reflexivity. Qed.

Lemma fixupCalls_fixup table s :
  Forall (fun c => isFixupCall table c = true) (fixupCalls conn table s).
Proof.
  unfold fixupCalls. constructor.
  - unfold isFixupCall. rewrite String.eqb_refl. simpl.
    by apply bool_decide_eq_true.
  - destruct (QueryRowScanName conn serialSequenceQuery
                [VStr table; VStr "id"] s) as [s1 [err | [seq |]]];
      try constructor; [| constructor].
    unfold isFixupCall. apply String.eqb_refl.
Qed.

(** The statements of the INSERT after an existence check. *)
Lemma insertRow_calls i row ctx :
  let q := insertStatement (Table row) (GetPKAndInsertColumns row)
             (GetPKAndInsertPlaceholders row (Driver ctx)) in
  let args := GetPKAndInsertValues row (primaryKeys ctx) in
  logOf (insertRow (recordHandle conn) i row (withLog ctx [])).1
  = ExecCall q args
    :: match Exec conn q args (Db ctx) with
       | (s1, inr _) =>
           if isPostgres (Driver ctx)
              && startsWithId (GetPKAndInsertColumns row)
           then fixupCalls conn (Table row) s1
           else []
       | _ => []
       end.
Proof.
  unfold insertRow, isPostgres, startsWithId. record_simpl.
  match goal with
  | |- context [Exec conn ?q ?a ?s] =>
      destruct (Exec conn q a s) as [s1 [err | res]]
  end; record_simpl; [done |].
  destruct (String.eqb (Driver ctx) postgresDriver); [| done].
  destruct (GetPKAndInsertColumns row) as [| c cs]; [done |].
  destruct (String.eqb c (quoted "id")); [| done]. cbn [andb].
  rewrite !withDb_withLog, record_fixSequence, fixSequence_calls.
  by record_simpl.
Qed.

(** The statements of the UPDATE after an existence check. *)
Lemma updateRow_calls i row ctx where_ :
  GetWhere row (Driver ctx) (GetUpdateColumnsLength row) = Some where_ ->
  let q := updateStatement (Table row)
             (GetUpdatePlaceholders row (Driver ctx)) where_ in
  let args := (GetUpdateValues row (primaryKeys ctx)
               ++ GetPKValues row (primaryKeys ctx))%list in
  logOf (updateRow (recordHandle conn) i row (withLog ctx [])).1
  = ExecCall q args
    :: match Exec conn q args (Db ctx) with
       | (s1, inr _) =>
           if isPostgres (Driver ctx) && startsWithId (GetUpdateColumns row)
           then fixupCalls conn (Table row) s1
           else []
       | _ => []
       end.
Proof.
  intros Hw. unfold updateRow, isPostgres, startsWithId. record_simpl.
  rewrite Hw.
  match goal with
  | |- context [Exec conn ?q ?a ?s] =>
      destruct (Exec conn q a s) as [s1 [err | res]]
  end; record_simpl; [done |].
  destruct (String.eqb (Driver ctx) postgresDriver); [| done].
  destruct (GetUpdateColumns row) as [| c cs]; [done |].
  destruct (String.eqb c (quoted "id")); [| done]. cbn [andb].
  rewrite !withDb_withLog, record_fixSequence, fixSequence_calls.
  by record_simpl.
Qed.

(** The statements of the existence check and of the write it selects. *)
Lemma checkedWrite_calls i row ctx where_ :
  GetWhere row (Driver ctx) 0 = Some where_ ->
  let q := selectStatement (Table row) where_ in
  let args := GetPKValues row (primaryKeys ctx) in
  logOf (checkedWrite (recordHandle conn) i row (withLog ctx [])).1
  = QueryRowCall q args
    :: match QueryRowScanInt conn q args (Db ctx) with
       | (s1, inr count) =>
           if (count =? 0)%Z
           then logOf (insertRow (recordHandle conn) i row
                         (withLog (withDb ctx s1) [])).1
           else if (0 <? GetUpdateColumnsLength row)%nat
           then logOf (updateRow (recordHandle conn) i row
                         (withLog (withDb ctx s1) [])).1
           else []
       | _ => []
       end.
Proof.
  intros Hw. unfold checkedWrite. record_simpl. rewrite Hw.
  match goal with
  | |- context [QueryRowScanInt conn ?q ?a ?s] =>
      destruct (QueryRowScanInt conn q a s) as [s1 [err | count]]
  end; record_simpl; [done |].
  destruct (count =? 0)%Z.
  - rewrite !withDb_withLog, record_insertRow. by record_simpl.
  - destruct (0 <? GetUpdateColumnsLength row)%nat; [| done].
    rewrite !withDb_withLog, record_updateRow. by record_simpl.
Qed.

End BlockCalls.
Section RowFacts.

Context {DB : Type}.
Variable conn : Handle DB.

Lemma loadRow_outcome i row ctx clk :
  (loadRow conn i row (ctx, clk)).2
  = (loadCompiled conn i (Init (SetUpdatedAtOnInsert ctx) row clk).1 ctx).2.
Proof.
  unfold loadRow.
  destruct (Init (SetUpdatedAtOnInsert ctx) row clk) as [row1 clk1].
  cbn [fst]. by destruct (loadCompiled conn i row1 ctx).
Qed.

Lemma loadRow_context i row ctx clk :
  (loadRow conn i row (ctx, clk)).1.1
  = (loadCompiled conn i (Init (SetUpdatedAtOnInsert ctx) row clk).1 ctx).1.
Proof.
  unfold loadRow.
  destruct (Init (SetUpdatedAtOnInsert ctx) row clk) as [row1 clk1].
  cbn [fst]. by destruct (loadCompiled conn i row1 ctx).
Qed.

Lemma updateColumnsLength row :
  GetUpdateColumnsLength row = length (updateColumns row).
Proof. unfold GetUpdateColumnsLength, GetUpdateColumns. apply length_map. Qed.

(** The statements of a row on the checked path, read off the answers of
    the handle. *)
Lemma checked_rowCalls i row ctx clk :
  let row1 := (Init (SetUpdatedAtOnInsert ctx) row clk).1 in
  generatorOf (GetPKValues row1 (primaryKeys ctx)) = None ->
  rowCalls conn i row ctx clk
  = checkCall row1 ctx
    :: match QueryRowScanInt conn (queryOf (checkCall row1 ctx))
               (argsOf (checkCall row1 ctx)) (Db ctx) with
       | (s1, inr count) =>
           if (count =? 0)%Z then
             insertCall row1 ctx
             :: match Exec conn (queryOf (insertCall row1 ctx))
                        (argsOf (insertCall row1 ctx)) s1 with
                | (s2, inr _) =>
                    if isPostgres (Driver ctx)
                       && startsWithId (GetPKAndInsertColumns row1)
                    then fixupCalls conn (Table row1) s2
                    else []
                | _ => []
                end
           else if (0 <? length (updateColumns row1))%nat then
             updateCall row1 ctx
             :: match Exec conn (queryOf (updateCall row1 ctx))
                        (argsOf (updateCall row1 ctx)) s1 with
                | (s2, inr _) =>
                    if isPostgres (Driver ctx)
                       && startsWithId (GetUpdateColumns row1)
                    then fixupCalls conn (Table row1) s2
                    else []
                | _ => []
                end
           else []
       | _ => []
       end.
Proof.
  intros row1 Hgen.
  pose proof (GetWhere_Init (SetUpdatedAtOnInsert ctx) row clk (Driver ctx))
    as Hw. fold row1 in Hw.
  rewrite rowCalls_compiled. unfold compiledCalls. fold row1.
  rewrite loadCompiled_checked by done.
  rewrite (checkedWrite_calls conn i row1 ctx _ (Hw 0)).
  unfold checkCall, insertCall, updateCall. cbn [queryOf argsOf].
  f_equal.
  destruct (QueryRowScanInt conn _ _ (Db ctx)) as [s1 [err | count]];
    [done |].
  destruct (count =? 0)%Z.
  - rewrite insertRow_calls. by cbn [primaryKeys Db Driver withDb].
  - rewrite updateColumnsLength.
    destruct (0 <? length (updateColumns row1))%nat; [| done].
    rewrite (updateRow_calls conn i row1 (withDb ctx s1) _)
      by (cbn [Driver withDb]; rewrite updateColumnsLength; apply Hw).
    by cbn [primaryKeys Db Driver withDb].
Qed.

(** The outcome of the write after the existence check. *)
Lemma insertRow_outcome i row ctx :
  (insertRow conn i row ctx).2
  = match Exec conn (queryOf (insertCall row ctx))
            (argsOf (insertCall row ctx)) (Db ctx) with
    | (_, inl err) => Failure (NewProcessingError (i + 1) err)
    | (s1, inr _) =>
        if isPostgres (Driver ctx) then
          match GetPKAndInsertColumns row with
          | [] => Panic
          | c :: _ =>
              if String.eqb c (quoted "id")
              then fixupOutcome conn i (Table row) s1
              else Success
          end
        else Success
    end.
Proof.
  unfold insertRow, insertCall, isPostgres. cbn [queryOf argsOf].
  destruct (Exec conn _ _ (Db ctx)) as [s1 [err | res]]; [done |].
  destruct (String.eqb (Driver ctx) postgresDriver); [| done].
  destruct (GetPKAndInsertColumns row) as [| c cs]; [done |].
  destruct (String.eqb c (quoted "id")); [| done].
  by rewrite fixSequence_outcome.
Qed.

Lemma updateRow_outcome i row ctx :
  GetWhere row (Driver ctx) (GetUpdateColumnsLength row)
  = Some (whereClause (Driver ctx) (length (updateColumns row))
            (pkColumns row)) ->
  (updateRow conn i row ctx).2
  = match Exec conn (queryOf (updateCall row ctx))
            (argsOf (updateCall row ctx)) (Db ctx) with
    | (_, inl err) => Failure (NewProcessingError (i + 1) err)
    | (s1, inr _) =>
        if isPostgres (Driver ctx) then
          match GetUpdateColumns row with
          | [] => Panic
          | c :: _ =>
              if String.eqb c (quoted "id")
              then fixupOutcome conn i (Table row) s1
              else Success
          end
        else Success
    end.
Proof.
  intros Hw. unfold updateRow, updateCall, isPostgres. cbn [queryOf argsOf].
  rewrite Hw.
  destruct (Exec conn _ _ (Db ctx)) as [s1 [err | res]]; [done |].
  destruct (String.eqb (Driver ctx) postgresDriver); [| done].
  destruct (GetUpdateColumns row) as [| c cs]; [done |].
  destruct (String.eqb c (quoted "id")); [| done].
  by rewrite fixSequence_outcome.
Qed.

Lemma checked_outcome i row ctx clk :
  let row1 := (Init (SetUpdatedAtOnInsert ctx) row clk).1 in
  generatorOf (GetPKValues row1 (primaryKeys ctx)) = None ->
  (loadRow conn i row (ctx, clk)).2
  = match QueryRowScanInt conn (queryOf (checkCall row1 ctx))
            (argsOf (checkCall row1 ctx)) (Db ctx) with
    | (_, inl err) => Failure (NewProcessingError (i + 1) err)
    | (s1, inr count) =>
        if (count =? 0)%Z then (insertRow conn i row1 (withDb ctx s1)).2
        else if (0 <? length (updateColumns row1))%nat
        then (updateRow conn i row1 (withDb ctx s1)).2
        else Success
    end.
Proof.
  intros row1 Hgen.
  pose proof (GetWhere_Init (SetUpdatedAtOnInsert ctx) row clk (Driver ctx) 0)
    as Hw. fold row1 in Hw.
  rewrite loadRow_outcome. fold row1. rewrite loadCompiled_checked by done.
  unfold checkedWrite, checkCall. cbn [queryOf argsOf]. rewrite Hw.
  destruct (QueryRowScanInt conn _ _ (Db ctx)) as [s1 [err | count]];
    [done |].
  destruct (count =? 0)%Z; [done |]. rewrite updateColumnsLength.
  by destruct (0 <? length (updateColumns row1))%nat.
Qed.

End RowFacts.
Section NeverFails.

Context {DB : Type}.
Variable conn : Handle DB.
Hypothesis Hconn : neverFails conn.

Ltac answer :=
  match goal with
  | |- context [QueryRowScanInt conn ?q ?a ?s] =>
      let s1 := fresh "s" in let n := fresh "n" in let E := fresh "E" in
      destruct (proj1 Hconn q a s) as (s1 & n & E); rewrite E
  | |- context [QueryRowScanName conn ?q ?a ?s] =>
      let s1 := fresh "s" in let o := fresh "o" in let E := fresh "E" in
      destruct (proj1 (proj2 Hconn) q a s) as (s1 & o & E); rewrite E
  | |- context [Exec conn ?q ?a ?s] =>
      let s1 := fresh "s" in let n := fresh "n" in let E := fresh "E" in
      destruct (proj2 (proj2 Hconn) q a s) as (s1 & n & E); rewrite E
  end.

Lemma fixSequence_never_fails i row ctx e :
  (fixSequence conn i row ctx).2 <> Failure e.
Proof.
  unfold fixSequence, fixPostgresPKSequence. answer.
  destruct o; [answer |]; done.
Qed.

Lemma insertRow_never_fails i row ctx e :
  (insertRow conn i row ctx).2 <> Failure e.
Proof.
  unfold insertRow. answer.
  destruct (String.eqb (Driver ctx) postgresDriver); [| done].
  destruct (GetPKAndInsertColumns row) as [| c cs]; [done |].
  destruct (String.eqb c (quoted "id")); [| done].
  apply fixSequence_never_fails.
Qed.

Lemma updateRow_never_fails i row ctx e :
  (updateRow conn i row ctx).2 <> Failure e.
Proof.
  unfold updateRow.
  destruct (GetWhere row (Driver ctx) (GetUpdateColumnsLength row));
    [| done].
  answer.
  destruct (String.eqb (Driver ctx) postgresDriver); [| done].
  destruct (GetUpdateColumns row) as [| c cs]; [done |].
  destruct (String.eqb c (quoted "id")); [| done].
  apply fixSequence_never_fails.
Qed.

(** Without an error from the database no row fails: the loop has no
    failure of its own. *)
Lemma loadCompiled_never_fails i row ctx e :
  (loadCompiled conn i row ctx).2 <> Failure e.
Proof.
  destruct (generatorOf (GetPKValues row (primaryKeys ctx))) as [name |]
    eqn:Hgen.
  - rewrite (loadCompiled_generated _ _ _ _ name) by done.
    unfold generatedInsert.
    destruct (String.eqb "postgres" (Driver ctx)).
    + destruct (GetPKColumns row); [done |]. by answer.
    + by answer.
  - rewrite loadCompiled_checked by done. unfold checkedWrite.
    destruct (GetWhere row (Driver ctx) 0); [| done]. answer.
    destruct (n =? 0)%Z; [apply insertRow_never_fails |].
    destruct (0 <? GetUpdateColumnsLength row)%nat;
      [apply updateRow_never_fails | done].
Qed.

End NeverFails.
(* ================================================================= *)
(** ** What every database operation keeps, the loop keeps *)

Section Invariant.

Context {DB : Type}.
Variable conn : Handle DB.
Variable P : DB -> Prop.
Hypothesis keep_int : forall q a s, P s -> P (QueryRowScanInt conn q a s).1.
Hypothesis keep_name : forall q a s, P s -> P (QueryRowScanName conn q a s).1.
Hypothesis keep_exec : forall q a s, P s -> P (Exec conn q a s).1.

Ltac step :=
  match goal with
  | |- context [QueryRowScanInt conn ?q ?a ?s] =>
      let H := fresh "H" in
      assert (P (QueryRowScanInt conn q a s).1) as H by (by apply keep_int);
      destruct (QueryRowScanInt conn q a s) as [? [? | ?]]
  | |- context [QueryRowScanName conn ?q ?a ?s] =>
      let H := fresh "H" in
      assert (P (QueryRowScanName conn q a s).1) as H by (by apply keep_name);
      destruct (QueryRowScanName conn q a s) as [? [? | [? |]]]
  | |- context [Exec conn ?q ?a ?s] =>
      let H := fresh "H" in
      assert (P (Exec conn q a s).1) as H by (by apply keep_exec);
      destruct (Exec conn q a s) as [? [? | [[? | ?]]]]
  end; cbn [fst snd Db withDb withKey LastInsertId] in *.

Lemma fixSequence_keeps i row ctx :
  P (Db ctx) -> P (Db (fixSequence conn i row ctx).1).
Proof.
  intros HP. unfold fixSequence, fixPostgresPKSequence.
  step; try done. by step.
Qed.

Lemma generatedInsert_keeps i row name ctx :
  P (Db ctx) -> P (Db (generatedInsert conn i row name ctx).1).
Proof.
  intros HP. unfold generatedInsert.
  destruct (String.eqb "postgres" (Driver ctx)).
  - destruct (GetPKColumns row); [done |]. by step.
  - by step.
Qed.

Lemma insertRow_keeps i row ctx :
  P (Db ctx) -> P (Db (insertRow conn i row ctx).1).
Proof.
  intros HP. unfold insertRow. step; try done.
  all: destruct (String.eqb (Driver ctx) postgresDriver); [| done].
  all: destruct (GetPKAndInsertColumns row) as [| c cs]; [done |].
  all: destruct (String.eqb c (quoted "id")); [| done].
  all: by apply fixSequence_keeps.
Qed.

Lemma updateRow_keeps i row ctx :
  P (Db ctx) -> P (Db (updateRow conn i row ctx).1).
Proof.
  intros HP. unfold updateRow.
  destruct (GetWhere row (Driver ctx) (GetUpdateColumnsLength row));
    [| done].
  step; try done.
  all: destruct (String.eqb (Driver ctx) postgresDriver); [| done].
  all: destruct (GetUpdateColumns row) as [| c cs]; [done |].
  all: destruct (String.eqb c (quoted "id")); [| done].
  all: by apply fixSequence_keeps.
Qed.

Lemma loadCompiled_keeps i row ctx :
  P (Db ctx) -> P (Db (loadCompiled conn i row ctx).1).
Proof.
  intros HP.
  destruct (generatorOf (GetPKValues row (primaryKeys ctx))) as [name |]
    eqn:Hgen.
  - rewrite (loadCompiled_generated _ _ _ _ name) by done.
    by apply generatedInsert_keeps.
  - rewrite loadCompiled_checked by done. unfold checkedWrite.
    destruct (GetWhere row (Driver ctx) 0); [| done]. step; try done.
    destruct (_ =? 0)%Z; [by apply insertRow_keeps |].
    destruct (0 <? GetUpdateColumnsLength row)%nat;
      [by apply updateRow_keeps | done].
Qed.

Lemma loadRow_keeps i row st :
  P (Db st.1) -> P (Db (loadRow conn i row st).1.1).
Proof.
  intros HP. destruct st as [ctx clk]. rewrite loadRow_context.
  by apply loadCompiled_keeps.
Qed.

Lemma loadRows_keeps rows : forall i st,
  P (Db st.1) -> P (Db (loadRows conn i rows st).1.1).
Proof.
  induction rows as [| row rows IH]; intros i st HP; [done |].
  cbn [loadRows].
  pose proof (loadRow_keeps i row st HP) as H1.
  destruct (loadRow conn i row st) as [st1 [| e |]]; try done.
  by apply IH.
Qed.

End Invariant.
(* ================================================================= *)
(** ** Failures and the registry along the loop *)

Section LoopFacts.

Context {DB : Type}.
Variable conn : Handle DB.

Ltac answers :=
  repeat match goal with
    | |- context [QueryRowScanInt conn ?q ?a ?s] =>
        destruct (QueryRowScanInt conn q a s) as [? [? | ?]]
    | |- context [QueryRowScanName conn ?q ?a ?s] =>
        destruct (QueryRowScanName conn q a s) as [? [? | [? |]]]
    | |- context [Exec conn ?q ?a ?s] =>
        destruct (Exec conn q a s) as [? [? | [[? | ?]]]]
    end;
  cbn [fst snd Db primaryKeys withDb withKey LastInsertId Set_].

Ltac close :=
  solve [ by left
        | right; by eexists _, _
        | intros ? [=]; subst; by eexists
        | by intros ? [=] ].

Lemma fixSequence_step i row ctx :
  primaryKeys (fixSequence conn i row ctx).1 = primaryKeys ctx
  /\ rowFailure i (fixSequence conn i row ctx).2.
Proof.
  unfold fixSequence, fixPostgresPKSequence, rowFailure.
  answers; split; try done; close.
Qed.

Lemma loadCompiled_step i row ctx :
  registryStep (primaryKeys ctx) (primaryKeys (loadCompiled conn i row ctx).1)
  /\ rowFailure i (loadCompiled conn i row ctx).2.
Proof.
  destruct (generatorOf (GetPKValues row (primaryKeys ctx))) as [name |]
    eqn:Hgen.
  - rewrite (loadCompiled_generated _ _ _ _ name) by done.
    unfold generatedInsert, registryStep, rowFailure.
    destruct (String.eqb "postgres" (Driver ctx));
      [destruct (GetPKColumns row) |]; answers; split; close.
  - rewrite loadCompiled_checked by done.
    unfold checkedWrite, insertRow, updateRow, registryStep.
    destruct (GetWhere row (Driver ctx) 0); [| split; close].
    destruct (QueryRowScanInt conn _ _ (Db ctx)) as [s1 [err | count]];
      cbn [fst snd Db primaryKeys withDb Driver]; [split; close |].
    destruct (count =? 0)%Z.
    + destruct (Exec conn _ _ s1) as [s2 [err | res]];
        cbn [fst snd Db primaryKeys withDb Driver]; [split; close |].
      destruct (String.eqb (Driver ctx) postgresDriver); [| split; close].
      destruct (GetPKAndInsertColumns row) as [| c cs]; [split; close |].
      destruct (String.eqb c (quoted "id")); [| split; close].
      destruct (fixSequence_step i row (withDb (withDb ctx s1) s2))
        as [Hreg Hfail].
      split; [left; by rewrite Hreg | done].
    + destruct (0 <? GetUpdateColumnsLength row)%nat; [| split; close].
      destruct (GetWhere row (Driver ctx) (GetUpdateColumnsLength row));
        [| split; close].
      destruct (Exec conn _ _ s1) as [s2 [err | res]];
        cbn [fst snd Db primaryKeys withDb Driver]; [split; close |].
      destruct (String.eqb (Driver ctx) postgresDriver); [| split; close].
      destruct (GetUpdateColumns row) as [| c cs]; [split; close |].
      destruct (String.eqb c (quoted "id")); [| split; close].
      destruct (fixSequence_step i row (withDb (withDb ctx s1) s2))
        as [Hreg Hfail].
      split; [left; by rewrite Hreg | done].
Qed.

Lemma registryStep_keeps before after name :
  registryStep before after ->
  is_Some (before !! name) -> is_Some (after !! name).
Proof.
  intros [-> | (n & pk & ->)] Hsome; [done |].
  destruct (decide (n = name)) as [-> | Hne].
  - rewrite lookup_insert_eq. by eexists.
  - by rewrite lookup_insert_ne.
Qed.

(** A key once written stays in the registry for the rest of the rows. *)
Lemma loadRows_registry rows name : forall i st,
  is_Some (primaryKeys st.1 !! name) ->
  is_Some (primaryKeys (loadRows conn i rows st).1.1 !! name).
Proof.
  induction rows as [| row rows IH]; intros i [ctx clk] Hsome; [done |].
  cbn [loadRows].
  assert (is_Some (primaryKeys (loadRow conn i row (ctx, clk)).1.1 !! name))
    as H1.
  { rewrite loadRow_context.
    eapply registryStep_keeps; [apply loadCompiled_step | done]. }
  destruct (loadRow conn i row (ctx, clk)) as [st1 [| e |]]; try done.
  by apply IH.
Qed.

(** The loop over two lists of rows. *)
Lemma loadRows_app pre post : forall i st,
  loadRows conn i (pre ++ post) st
  = match loadRows conn i pre st with
    | (st1, Success) => loadRows conn (i + length pre) post st1
    | failed => failed
    end.
Proof.
  induction pre as [| row pre IH]; intros i st; cbn [loadRows app length].
  - by rewrite Nat.add_0_r.
  - destruct (loadRow conn i row st) as [st1 [| e |]]; try done.
    rewrite IH. by replace (S i + length pre) with (i + S (length pre)) by lia.
Qed.

(** A failing batch stops at its first failing row: the rows before it
    succeeded, the rows after it are not looked at, and the error names
    the row by its 1-based index. *)
Lemma loadRows_failure rows : forall i st st2 e,
  loadRows conn i rows st = (st2, Failure e) ->
  exists pre row post st1 cause,
    rows = (pre ++ row :: post)%list
    /\ loadRows conn i pre st = (st1, Success)
    /\ loadRow conn (i + length pre) row st1 = (st2, Failure e)
    /\ e = NewProcessingError (i + length pre + 1) cause.
Proof.
  induction rows as [| row rows IH]; intros i st st2 e Hrun; [done |].
  cbn [loadRows] in Hrun.
  destruct (loadRow conn i row st) as [st1 [| e1 |]] eqn:Hrow; try done.
  - apply IH in Hrun as (pre & r & post & st' & cause & -> & Hpre & Hr & ->).
    exists (row :: pre), r, post, st', cause. cbn [loadRows app length].
    rewrite Hrow. replace (i + S (length pre)) with (S i + length pre) by lia.
    done.
  - injection Hrun as <- <-.
    destruct st as [ctx clk].
    destruct (proj2 (loadCompiled_step i
                       (Init (SetUpdatedAtOnInsert ctx) row clk).1 ctx) e1)
      as [cause ->].
    { by rewrite <- loadRow_outcome, Hrow. }
    exists [], row, rows, (ctx, clk), cause. cbn [loadRows app length].
    by rewrite Nat.add_0_r, Hrow.
Qed.

End LoopFacts.
(* ================================================================= *)
(** ** The entry points *)

Section BatchFacts.

Context {DB : Type}.
Variable db : Database DB.
Variable Unmarshal : string -> string + list Row.
Variable ReadFile : string -> string + string.
Variable globals : Globals.

Lemma LoadWithContext_keeps (P : DB -> Prop) :
  (forall q a s, P s -> P (QueryRowScanInt (Tx db) q a s).1) ->
  (forall q a s, P s -> P (QueryRowScanName (Tx db) q a s).1) ->
  (forall q a s, P s -> P (Exec (Tx db) q a s).1) ->
  forall ctx data clk,
    P (Db ctx) -> P (Db (LoadWithContext (Tx db) Unmarshal ctx data clk).1.1).
Proof.
  intros H1 H2 H3 ctx data clk HP. unfold LoadWithContext.
  destruct (Unmarshal data) as [err | rows]; [done |].
  by apply (loadRows_keeps (Tx db) P H1 H2 H3 rows 0 (ctx, clk)).
Qed.

Lemma loadFiles_keeps (P : DB -> Prop) :
  (forall q a s, P s -> P (QueryRowScanInt (Tx db) q a s).1) ->
  (forall q a s, P s -> P (QueryRowScanName (Tx db) q a s).1) ->
  (forall q a s, P s -> P (Exec (Tx db) q a s).1) ->
  forall filenames st,
    P (Db st.1) -> P (Db (loadFiles db Unmarshal ReadFile filenames st).1.1).
Proof.
  intros H1 H2 H3 filenames.
  induction filenames as [| f fs IH]; intros [ctx clk] HP; [done |].
  cbn [loadFiles fst snd].
  destruct (ReadFile f) as [err | data]; [done |].
  pose proof (LoadWithContext_keeps P H1 H2 H3 ctx data clk HP) as Hst.
  destruct (LoadWithContext (Tx db) Unmarshal ctx data clk)
    as [st1 [| e |]]; try done.
  by apply IH.
Qed.

Lemma LoadWithContext_registry ctx data clk name :
  is_Some (primaryKeys ctx !! name) ->
  is_Some (primaryKeys (LoadWithContext (Tx db) Unmarshal ctx data clk).1.1
           !! name).
Proof.
  intros Hsome. unfold LoadWithContext.
  destruct (Unmarshal data) as [err | rows]; [done |].
  by apply (loadRows_registry (Tx db) rows name 0 (ctx, clk)).
Qed.

(** A key written while loading one file is still in the registry after
    every later file of the batch. *)
Lemma loadFiles_registry filenames name : forall st,
  is_Some (primaryKeys st.1 !! name) ->
  is_Some (primaryKeys (loadFiles db Unmarshal ReadFile filenames st).1.1
           !! name).
Proof.
  induction filenames as [| f fs IH]; intros [ctx clk] Hsome; [done |].
  cbn [loadFiles fst snd].
  destruct (ReadFile f) as [err | data]; [done |].
  pose proof (LoadWithContext_registry ctx data clk name Hsome) as Hst.
  destruct (LoadWithContext (Tx db) Unmarshal ctx data clk)
    as [st1 [| e |]]; try done.
  by apply IH.
Qed.

(** Each file is loaded with the context the files before it left. *)
Lemma loadFiles_thread pre f post data : forall st st1,
  loadFiles db Unmarshal ReadFile pre st = (st1, Success) ->
  ReadFile f = inr data ->
  loadFiles db Unmarshal ReadFile (pre ++ f :: post) st
  = match LoadWithContext (Tx db) Unmarshal st1.1 data st1.2 with
    | (st2, Success) => loadFiles db Unmarshal ReadFile post st2
    | failed => failed
    end.
Proof.
  induction pre as [| g pre IH]; intros st st1 Hpre Hf.
  - injection Hpre as ->. cbn [app loadFiles]. by rewrite Hf.
  - cbn [app loadFiles] in Hpre |- *.
    destruct (ReadFile g) as [err | gdata]; [done |].
    destruct (LoadWithContext (Tx db) Unmarshal st.1 gdata st.2)
      as [st' [| e |]]; try done.
    by apply IH.
Qed.

End BatchFacts.
(* ================================================================= *)
(** ** Facts about Go's string helpers *)

Section StringFacts.

Lemma append_length p r :
  String.length (p +:+ r) = String.length p + String.length r.
Proof. induction p as [| a p IH]; [reflexivity | exact (f_equal S IH)]. Qed.

Lemma append_assoc3 a b c : (a +:+ b) +:+ c = a +:+ (b +:+ c).
Proof. induction a as [| x a IH]; [reflexivity | exact (f_equal (String x) IH)]. Qed.

Lemma substring_all r : String.substring 0 (String.length r) r = r.
Proof. induction r as [| a r IH]; [reflexivity | exact (f_equal (String a) IH)]. Qed.

Lemma substring_front p r :
  String.substring 0 (String.length p) (p +:+ r) = p.
Proof.
  induction p as [| a p IH]; [by destruct r | exact (f_equal (String a) IH)].
Qed.

Lemma substring_back p r :
  String.substring (String.length p) (String.length r) (p +:+ r) = r.
Proof. induction p as [| a p IH]; [apply substring_all | exact IH]. Qed.

Lemma substring_split s : forall n,
  n <= String.length s ->
  s = String.substring 0 n s
      +:+ String.substring n (String.length s - n) s.
Proof.
  induction s as [| a s IH]; intros [| n] Hn; simpl in Hn; try reflexivity; try lia.
  - exact (f_equal (String a) (eq_sym (substring_all s))).
  - apply (f_equal (String a)), IH. lia.
Qed.

Lemma HasPrefix_head a s b p :
  a <> b -> HasPrefix (String a s) (String b p) = false.
Proof.
  intros Hab. unfold HasPrefix. apply andb_false_iff. right.
  cbn [String.length String.substring String.eqb].
  destruct (Ascii.eqb_spec a b); done.
Qed.

Lemma HasPrefix_append p r : HasPrefix (p +:+ r) p = true.
Proof.
  unfold HasPrefix. rewrite substring_front, String.eqb_refl, append_length.
  apply andb_true_iff. split; [apply Nat.leb_le; lia | done].
Qed.

Lemma HasSuffix_append r q : HasSuffix (r +:+ q) q = true.
Proof.
  unfold HasSuffix. rewrite append_length.
  replace (String.length r + String.length q - String.length q)
    with (String.length r) by lia.
  rewrite substring_back, String.eqb_refl.
  apply andb_true_iff. split; [apply Nat.leb_le; lia | done].
Qed.

Lemma TrimPrefix_append p r : TrimPrefix (p +:+ r) p = r.
Proof.
  unfold TrimPrefix. rewrite HasPrefix_append, append_length.
  replace (String.length p + String.length r - String.length p)
    with (String.length r) by lia.
  apply substring_back.
Qed.

Lemma TrimSuffix_append r q : TrimSuffix (r +:+ q) q = r.
Proof.
  unfold TrimSuffix. rewrite HasSuffix_append, append_length.
  replace (String.length r + String.length q - String.length q)
    with (String.length r) by lia.
  apply substring_front.
Qed.

Lemma HasPrefix_inv s p :
  HasPrefix s p = true -> exists r, s = p +:+ r.
Proof.
  unfold HasPrefix. intros H. apply andb_true_iff in H as [Hlen Heq].
  apply Nat.leb_le in Hlen. apply String.eqb_eq in Heq.
  eexists. rewrite <- Heq at 1. by apply substring_split.
Qed.

Lemma HasPrefix_cons a s p :
  HasPrefix (String a s) (String a p) = HasPrefix s p.
Proof.
  unfold HasPrefix. cbn [String.length String.substring String.eqb Nat.leb].
  by rewrite Ascii.eqb_refl.
Qed.

(** The name inside a well-formed marker. *)
Lemma keyName_marker prefix inner suffix :
  keyName (prefix +:+ inner +:+ suffix) prefix suffix = TrimSpace inner.
Proof.
  unfold keyName.
  by rewrite <- append_assoc3, TrimSuffix_append, TrimPrefix_append.
Qed.

Lemma marker_matches prefix inner suffix :
  HasPrefix (prefix +:+ inner +:+ suffix) prefix
  && HasSuffix (prefix +:+ inner +:+ suffix) suffix = true.
Proof.
  rewrite HasPrefix_append. rewrite <- append_assoc3.
  by rewrite HasSuffix_append.
Qed.

(** A reference marker is no generator marker and no timestamp marker. *)
Lemma reference_not_generator sv :
  HasPrefix sv onPKReferencePrefix = true ->
  HasPrefix sv onPKGeneratePrefix = false.
Proof.
  intros H. apply HasPrefix_inv in H as [r ->].
  change (HasPrefix (String "P" (String "K" (String "_"
            ("REFERENCE(" +:+ r))))
            (String "P" (String "K" (String "_" "GENERATE("))) = false).
  rewrite !HasPrefix_cons. by apply HasPrefix_head.
Qed.

Lemma reference_not_timestamp sv :
  HasPrefix sv onPKReferencePrefix = true ->
  isString (VStr sv) onInsertNow = false
  /\ isString (VStr sv) onUpdateNow = false.
Proof. intros H. apply HasPrefix_inv in H as [r ->]. by split. Qed.

End StringFacts.

(* ================================================================= *)
(** ** Blanks around a name *)

Section Blanks.

Lemma bytes_of_append a b : bytes_of (a +:+ b) = (bytes_of a ++ bytes_of b)%list.
Proof.
  unfold bytes_of. induction a as [| x a IH]; [done |].
  change (N_of_ascii x
          :: List.map N_of_ascii (list_ascii_of_string (a +:+ b))
          = N_of_ascii x
            :: (List.map N_of_ascii (list_ascii_of_string a)
                ++ List.map N_of_ascii (list_ascii_of_string b))%list).
  by rewrite IH.
Qed.

Lemma trim_front_blank rv l : trim_front rv (32%N :: l) = trim_front rv l.
Proof. by destruct rv. Qed.

Lemma is_space_rune_blank_2 b1 : is_space_rune false [b1; 32%N] = false.
Proof. cbn. apply andb_false_r. Qed.

Lemma is_space_rune_blank_3 b1 b2 :
  is_space_rune false [b1; b2; 32%N] = false.
Proof.
  unfold is_space_rune.
  by destruct (b1 =? 225)%N, (b2 =? 154)%N, (b1 =? 226)%N, (b2 =? 128)%N,
    (b2 =? 129)%N, (b1 =? 227)%N.
Qed.

Lemma trim_front_snoc_blank n : forall l,
  length l <= n ->
  trim_front false (l ++ [32%N])
  = match trim_front false l with
    | [] => []
    | y => (y ++ [32%N])%list
    end.
Proof.
  induction n as [| n IH]; intros l Hlen.
  { destruct l; [done | simpl in Hlen; lia]. }
  destruct l as [| b1 t1]; [done |].
  cbn [app trim_front].
  destruct (is_space_rune false [b1]) eqn:E1.
  { apply IH. simpl in Hlen. lia. }
  destruct t1 as [| b2 t2]; cbn [app].
  { by rewrite is_space_rune_blank_2. }
  destruct (is_space_rune false [b1; b2]) eqn:E2.
  { apply IH. simpl in Hlen. lia. }
  destruct t2 as [| b3 t3]; cbn [app].
  { by rewrite is_space_rune_blank_3. }
  destruct (is_space_rune false [b1; b2; b3]) eqn:E3; [| done].
  apply IH. simpl in Hlen. lia.
Qed.

Lemma TrimSpace_blank_front s : TrimSpace (" " +:+ s) = TrimSpace s.
Proof. unfold TrimSpace. by rewrite bytes_of_append. Qed.

Lemma TrimSpace_blank_back s : TrimSpace (s +:+ " ") = TrimSpace s.
Proof.
  unfold TrimSpace. rewrite bytes_of_append.
  change (bytes_of " ") with [32%N].
  rewrite (trim_front_snoc_blank (length (bytes_of s))) by done.
  destruct (trim_front false (bytes_of s)) as [| y ys]; [done |].
  by rewrite rev_app_distr.
Qed.

Lemma TrimSpace_blanks_back m : forall s,
  TrimSpace (s +:+ blanks m) = TrimSpace s.
Proof.
  induction m as [| m IHm]; intros s.
  - change (blanks 0) with EmptyString.
    assert (s +:+ EmptyString = s) as ->; [| done].
    induction s as [| a s IH]; [done |]. exact (f_equal (String a) IH).
  - change (blanks (S m)) with (" " +:+ blanks m).
    rewrite <- append_assoc3, IHm. apply TrimSpace_blank_back.
Qed.

Lemma TrimSpace_blanks n m s :
  TrimSpace (blanks n +:+ s +:+ blanks m) = TrimSpace s.
Proof.
  induction n as [| n IHn].
  - change (blanks 0 +:+ s +:+ blanks m) with (s +:+ blanks m).
    apply TrimSpace_blanks_back.
  - change (blanks (S n) +:+ s +:+ blanks m)
      with (" " +:+ (blanks n +:+ s +:+ blanks m)).
    by rewrite TrimSpace_blank_front.
Qed.

Lemma of_bytes_bytes_of s : of_bytes (bytes_of s) = s.
Proof.
  induction s as [| a s IH]; [done |].
  change (String (ascii_of_N (N_of_ascii a)) (of_bytes (bytes_of s))
          = String a s).
  by rewrite ascii_N_embedding, IH.
Qed.

(** A byte that is ASCII and no white space begins no rune of white space,
    read from the front or from the back. *)
Lemma trim_front_visible rv b t :
  visible b = true -> trim_front rv (b :: t) = b :: t.
Proof.
  unfold visible. intros Hv.
  apply andb_prop in Hv as [Hlt Hsp]. apply N.ltb_lt in Hlt.
  apply negb_true_iff in Hsp.
  assert (is_space_rune rv [b] = false) as H1.
  { unfold is_space_rune. by destruct rv. }
  assert (forall k, (128 <= k)%N -> (b =? k)%N = false) as Hne.
  { intros k Hk. apply N.eqb_neq. lia. }
  assert ((128 <=? b)%N = false) as Hge by (apply N.leb_gt; lia).
  cbn [trim_front]. rewrite H1.
  destruct t as [| b2 t2]; [done |].
  assert (is_space_rune rv [b; b2] = false) as H2.
  { unfold is_space_rune. destruct rv; cbn [rev app].
    - rewrite !Hne by lia. apply andb_false_r.
    - by rewrite Hne by lia. }
  rewrite H2.
  destruct t2 as [| b3 t3]; [done |].
  assert (is_space_rune rv [b; b2; b3] = false) as H3.
  { unfold is_space_rune. destruct rv; cbn [rev app].
    - rewrite !Hne by lia. rewrite Hge. cbn [andb orb].
      by rewrite !andb_false_r.
    - by rewrite !Hne by lia. }
  by rewrite H3.
Qed.

Lemma rev_last (l : list N) d :
  l <> [] -> exists r, rev l = List.last l d :: r.
Proof.
  induction l as [| a l IH]; [done |]. intros _.
  destruct l as [| c l]; [by exists [] |].
  destruct IH as [r Hr]; [done |].
  exists (r ++ [a])%list.
  change (rev (a :: c :: l)) with (rev (c :: l) ++ [a])%list.
  by rewrite Hr.
Qed.

Lemma rev_cons_last (b : N) t :
  exists r, rev (b :: t) = List.last t b :: r.
Proof.
  destruct (rev_last (b :: t) b) as [r Hr]; [done |].
  exists r. rewrite Hr. by destruct t.
Qed.

(** A name that begins and ends with a visible ASCII character is what
    [TrimSpace] returns for it, however many blanks surround it. *)
Lemma TrimSpace_tight name : tight name = true -> TrimSpace name = name.
Proof.
  unfold tight, TrimSpace. intros Ht.
  destruct (bytes_of name) as [| b t] eqn:Hb.
  - rewrite <- (of_bytes_bytes_of name), Hb. done.
  - apply andb_prop in Ht as [Hfirst Hlast].
    rewrite (trim_front_visible false b t Hfirst).
    destruct (rev_cons_last b t) as [r Hr]. rewrite Hr.
    rewrite (trim_front_visible true _ r Hlast), <- Hr, rev_involutive.
    rewrite <- Hb. apply of_bytes_bytes_of.
Qed.

Lemma TrimSpace_padded n m name :
  tight name = true -> TrimSpace (blanks n +:+ name +:+ blanks m) = name.
Proof. intros Ht. rewrite TrimSpace_blanks. by apply TrimSpace_tight. Qed.

End Blanks.
Section RowClaims.

Context {DB : Type}.
Variable conn : Handle DB.



Lemma generatedInsert_calls i row name ctx c cs :
  GetPKColumns row = c :: cs ->
  let q := insertStatement (Table row) (GetInsertColumns row)
             (GetInsertPlaceholders row (Driver ctx)) in
  let values := GetInsertValues row (primaryKeys ctx) in
  logOf (generatedInsert (recordHandle conn) i row name (withLog ctx [])).1
  = if String.eqb "postgres" (Driver ctx)
    then [QueryRowCall (q +:+ " RETURNING " +:+ c) values]
    else [ExecCall q values].
Proof.
  intros Hc. unfold generatedInsert.
  cbn [recordHandle logged withLog withDb withKey logOf fst snd
       QueryRowScanInt QueryRowScanName Exec primaryKeys Db Driver DumpSQL
       SetUpdatedAtOnInsert LastInsertId app].
  rewrite Hc. destruct (String.eqb "postgres" (Driver ctx)).
  - match goal with
    | |- context [QueryRowScanInt conn ?q ?a ?s] =>
        by destruct (QueryRowScanInt conn q a s) as [s1 [err | pk]]
    end.
  - match goal with
    | |- context [Exec conn ?q ?a ?s] =>
        by destruct (Exec conn q a s) as [s1 [err | [[err | pk]]]]
    end.
Qed.

Lemma generatorOf_length values name :
  generatorOf values = Some name -> values = [VGen name].
Proof.
  unfold generatorOf. destruct values as [| [] []]; try done.
  by intros [= ->].
Qed.

Lemma generatorOf_long values :
  2 <= length values -> generatorOf values = None.
Proof.
  unfold generatorOf. destruct values as [| [] []]; simpl; try done; lia.
Qed.



(** C3: a row that does not take the generated-insert path is first
    checked for existence with a COUNT query bound to the resolved
    primary-key values. When the count is 0 the next statement is an
    INSERT whose columns are the sorted primary-key columns followed by
    the sorted field insert columns, with the values in the same combined
    order. When the count is not 0 and there is an update column the next
    statement is an UPDATE. When the count is not 0 and there is no update
    column nothing else is sent and the row succeeds. Statements after the
    write belong to the sequence fix-up only. The three statements are
    given by their text: SELECT COUNT( * ) FROM the quoted table, INSERT
    INTO the quoted table with the quoted columns, and UPDATE. *)
Theorem C3_existence_check_then_write i row ctx clk :
  let flag := SetUpdatedAtOnInsert ctx in
  let row1 := (Init flag row clk).1 in
  let pks := primaryKeys ctx in
  let calls := rowCalls conn i row ctx clk in
  let columns := (pkKeys row ++ insertKeys flag row)%list in
  generatorOf (GetPKValues row1 pks) = None ->
  head calls = Some (checkCall row1 ctx)
  /\ isCountCall (checkCall row1 ctx) = true
  /\ isInsertCall (insertCall row1 ctx) = true
  /\ isInsertCall (updateCall row1 ctx) = false
  /\ HasPrefix (queryOf (updateCall row1 ctx)) "UPDATE " = true
  /\ queryOf (checkCall row1 ctx)
     = "SELECT COUNT(*) FROM " +:+ (dq +:+ Table row +:+ dq) +:+ " WHERE "
       +:+ whereClause (Driver ctx) 0 (pkKeys row)
  /\ queryOf (insertCall row1 ctx)
     = "INSERT INTO " +:+ (dq +:+ Table row +:+ dq) +:+ "("
       +:+ Join (List.map (fun c => dq +:+ c +:+ dq) columns) ", "
       +:+ ") VALUES("
       +:+ Join (List.map (placeholder (Driver ctx))
                   (seq 0 (length columns))) ", "
       +:+ ")"
  /\ StronglySorted str_le (pkKeys row)
  /\ pkKeys row ≡ₚ keys (PK row)
  /\ StronglySorted str_le (insertKeys flag row)
  /\ fieldKeys row ≡ₚ keys (Fields row)
  /\ argsOf (insertCall row1 ctx)
     = List.map (resolve pks) (pkValues row1 ++ insertValues row1)%list
  /\ Forall2 (fun k v => v = pkMarker (index (PK row) k))
       (pkKeys row) (pkValues row1)
  /\ Forall2 (insertValueOf (Fields row))
       (insertKeys flag row) (insertValues row1)
  /\ forall s1 count,
       QueryRowScanInt conn (queryOf (checkCall row1 ctx))
         (argsOf (checkCall row1 ctx)) (Db ctx) = (s1, inr count) ->
       (count = 0%Z ->
        exists tail,
          calls = checkCall row1 ctx :: insertCall row1 ctx :: tail
          /\ Forall (fun c => isFixupCall (Table row) c = true) tail)
       /\ (count <> 0%Z -> updateColumns row1 <> [] ->
           exists tail,
             calls = checkCall row1 ctx :: updateCall row1 ctx :: tail
             /\ Forall (fun c => isFixupCall (Table row) c = true) tail)
       /\ (count <> 0%Z -> updateColumns row1 = [] ->
           calls = [checkCall row1 ctx]
           /\ (loadRow conn i row (ctx, clk)).2 = Success).
Proof.
  intros flag row1 pks calls columns Hgen.
  destruct (Init_spec flag row clk)
    as (HT & HP & HF & HpC & HpV & HiC & HuC & Hi2 & Hu2).
  fold row1 in HT, HP, HF, HpC, HpV, HiC, HuC, Hi2, Hu2.
  fold (insertKeys flag row) in HiC.
  pose proof (checked_rowCalls conn i row ctx clk Hgen) as Hcalls.
  fold flag row1 calls in Hcalls.
  assert (Forall2 (fun k v => v = pkMarker (index (PK row) k))
            (pkKeys row) (pkValues row1)) as Hp2.
  { rewrite HpV. clear. induction (pkKeys row); by constructor. }
  rewrite HiC in Hi2.
  repeat split.
  - by rewrite Hcalls.
  - by apply HasPrefix_head.
  - unfold checkCall. cbn [queryOf]. by rewrite HT, HpC.
  - unfold insertCall, GetPKAndInsertColumns, GetPKAndInsertPlaceholders.
    cbn [queryOf]. rewrite HT, HpC, HiC, <- map_app. unfold columns.
    by rewrite <- (Forall2_length _ _ _ Hp2), <- (Forall2_length _ _ _ Hi2),
         length_app.
  - apply sort_Strings_sorted.
  - apply sort_Strings_perm.
  - apply filter_sorted, sort_Strings_sorted.
  - apply sort_Strings_perm.
  - unfold insertCall, GetPKAndInsertValues. cbn [argsOf]. by rewrite map_app.
  - done.
  - done.
  - intros ->. rewrite H in Hcalls. cbn [Z.eqb] in Hcalls.
    eexists. split; [exact Hcalls |]. rewrite <- HT.
    destruct (Exec conn _ _ s1) as [s2 [err | res]]; [constructor |].
    destruct (_ && _); [apply fixupCalls_fixup | constructor].
  - intros Hc Hu. rewrite H in Hcalls.
    destruct (Z.eqb_spec count 0) as [| _]; [done |].
    destruct (updateColumns row1) as [| u us] eqn:Hus; [done |].
    cbn [length Nat.ltb Nat.leb] in Hcalls.
    eexists. split; [exact Hcalls |]. rewrite <- HT.
    destruct (Exec conn _ _ s1) as [s2 [err | res]]; [constructor |].
    destruct (_ && _); [apply fixupCalls_fixup | constructor].
  - rewrite H in Hcalls.
    destruct (Z.eqb_spec count 0) as [| _]; [done |].
    by rewrite H1 in Hcalls.
  - rewrite checked_outcome by done. fold flag row1. rewrite H.
    destruct (Z.eqb_spec count 0) as [| _]; [done |].
    by rewrite H1.
Qed.



(** C4: the arguments bound to an UPDATE are the update values followed
    by the primary-key values. On postgres the SET clause numbers its
    placeholders $1..$n in the order of the update values and the WHERE
    clause goes on with $n+1.. in the order of the primary-key values; on
    any other driver every placeholder is a question mark, in the same
    order. The numbers are the decimal numerals of the positions: with
    one update column and one primary-key column the text ends in $1 and
    $2. *)
Theorem C4_update_arguments_and_placeholders i row ctx clk :
  let flag := SetUpdatedAtOnInsert ctx in
  let row1 := (Init flag row clk).1 in
  let pks := primaryKeys ctx in
  let calls := rowCalls conn i row ctx clk in
  let n := length (updateKeys row) in
  generatorOf (GetPKValues row1 pks) = None ->
  forall s1 count,
    QueryRowScanInt conn (queryOf (checkCall row1 ctx))
      (argsOf (checkCall row1 ctx)) (Db ctx) = (s1, inr count) ->
    count <> 0%Z ->
    updateColumns row1 <> [] ->
    calls !! 1 = Some (updateCall row1 ctx)
    /\ argsOf (updateCall row1 ctx)
       = (List.map (resolve pks) (updateValues row1)
          ++ List.map (resolve pks) (pkValues row1))%list
    /\ Forall2 (updateValueOf (Fields row)) (updateKeys row)
         (updateValues row1)
    /\ Forall2 (fun k v => v = pkMarker (index (PK row) k))
         (pkKeys row) (pkValues row1)
    /\ (forall j v,
          updateValues row1 !! j = Some v ->
          argsOf (updateCall row1 ctx) !! j = Some (resolve pks v))
    /\ (forall k v,
          pkValues row1 !! k = Some v ->
          argsOf (updateCall row1 ctx) !! (n + k) = Some (resolve pks v))
    /\ queryOf (updateCall row1 ctx)
       = (if isPostgres (Driver ctx)
          then
           "UPDATE " +:+ quoted (Table row) +:+ " SET "
           +:+ Join (imap (fun j c =>
                             quoted c +:+ " = $"
                             +:+ NilEmpty.string_of_uint (Nat.to_uint (j + 1)))
                       (updateKeys row)) ", "
           +:+ " WHERE "
           +:+ Join (imap (fun k c =>
                             c +:+ " = $"
                             +:+ NilEmpty.string_of_uint
                                   (Nat.to_uint (n + k + 1)))
                       (pkKeys row)) " AND "
         else
           "UPDATE " +:+ quoted (Table row) +:+ " SET "
           +:+ Join (imap (fun _ c => quoted c +:+ " = ?") (updateKeys row))
                 ", "
           +:+ " WHERE "
           +:+ Join (imap (fun _ c => c +:+ " = ?") (pkKeys row)) " AND ")
    /\ (forall u p,
          isPostgres (Driver ctx) = true ->
          updateKeys row = [u] ->
          pkKeys row = [p] ->
          queryOf (updateCall row1 ctx)
          = "UPDATE " +:+ (dq +:+ Table row +:+ dq) +:+ " SET "
            +:+ ((dq +:+ u +:+ dq) +:+ " = $1")
            +:+ " WHERE " +:+ (p +:+ " = $2")).
Proof.
  intros flag row1 pks calls n Hgen s1 count Hcount Hne Hupd.
  destruct (Init_spec flag row clk)
    as (HT & HP & HF & HpC & HpV & HiC & HuC & Hi2 & Hu2).
  fold row1 in HT, HP, HF, HpC, HpV, HiC, HuC, Hi2, Hu2.
  fold (updateKeys row) in HuC.
  pose proof (checked_rowCalls conn i row ctx clk Hgen) as Hcalls.
  fold flag row1 calls in Hcalls.
  assert (Forall2 (fun k v => v = pkMarker (index (PK row) k))
            (pkKeys row) (pkValues row1)) as Hp2.
  { rewrite HpV. clear. induction (pkKeys row); by constructor. }
  rewrite HuC in Hu2.
  assert (length (updateValues row1) = n) as Hn
    by (symmetry; apply (Forall2_length _ _ _ Hu2)).
  assert (argsOf (updateCall row1 ctx)
          = (List.map (resolve pks) (updateValues row1)
             ++ List.map (resolve pks) (pkValues row1))%list) as Hargs
    by done.
  split; [| split; [done | split; [done | split; [done |]]]].
  { rewrite Hcalls, Hcount.
    destruct (Z.eqb_spec count 0) as [| _]; [done |].
    destruct (updateColumns row1) as [| u us]; [done |]. done. }
  split; [| split; [| split]].
  - intros j v Hj. rewrite Hargs. apply lookup_app_l_Some.
    change (List.map (resolve pks) (updateValues row1))
      with (resolve pks <$> updateValues row1).
    by rewrite list_lookup_fmap, Hj.
  - intros k v Hk. rewrite Hargs.
    rewrite lookup_app_r by (rewrite length_map; lia).
    rewrite length_map, Hn.
    replace (n + k - n) with k by lia.
    change (List.map (resolve pks) (pkValues row1))
      with (resolve pks <$> pkValues row1).
    by rewrite list_lookup_fmap, Hk.
  - unfold updateCall, updateStatement, GetUpdatePlaceholders,
      GetUpdateColumns, whereClause, assignment.
    cbn [queryOf]. rewrite HT, HpC, HuC. fold n.
    change (List.map quoted (updateKeys row))
      with (quoted <$> updateKeys row).
    rewrite imap_fmap.
    by destruct (isPostgres (Driver ctx)).
  - intros u p Hpg Hu Hp.
    unfold updateCall, updateStatement, GetUpdatePlaceholders,
      GetUpdateColumns, whereClause, assignment.
    cbn [queryOf]. rewrite HT, HpC, HuC. fold (pkKeys row).
    by rewrite Hu, Hp, Hpg.
Qed.





Lemma generator_in_pkValues flag row clk k sv :
  PK row !! k = Some (VStr sv) ->
  HasPrefix sv onPKGeneratePrefix && HasSuffix sv onPKGenerateSuffix = true ->
  In (VGen (keyName sv onPKGeneratePrefix onPKGenerateSuffix))
    (pkValues (Init flag row clk).1).
Proof.
  intros Hk Hpat.
  destruct (Init_spec flag row clk) as (_ & _ & _ & _ & HpV & _).
  simpl in HpV. rewrite HpV. apply in_map_iff. exists k. split.
  - unfold index. rewrite Hk. simpl. by rewrite Hpat.
  - apply list_elem_of_In, elem_of_sorted_keys. by eexists.
Qed.

Lemma resolve_generator pks (values : list value) name :
  In (VGen name) values -> In (VGen name) (List.map (resolve pks) values).
Proof. intros Hin. apply in_map_iff. by exists (VGen name). Qed.

(** C10: a row with two or more primary-key entries, one of them a
    PK_GENERATE marker, does not take the generated-insert shortcut and is
    not rejected: it starts with the existence check, and the generator
    marker itself is among the arguments of that check and of the INSERT
    or UPDATE that follows. With a handle that returns no error the row
    does not fail. *)
Theorem C10_generator_in_composite_key i row ctx clk k sv :
  let flag := SetUpdatedAtOnInsert ctx in
  let row1 := (Init flag row clk).1 in
  let pks := primaryKeys ctx in
  let calls := rowCalls conn i row ctx clk in
  let marker := VGen (keyName sv onPKGeneratePrefix onPKGenerateSuffix) in
  2 <= size (PK row) ->
  PK row !! k = Some (VStr sv) ->
  HasPrefix sv onPKGeneratePrefix && HasSuffix sv onPKGenerateSuffix = true ->
  generatorOf (GetPKValues row1 pks) = None
  /\ In marker (GetPKValues row1 pks)
  /\ In marker (GetPKAndInsertValues row1 pks)
  /\ head calls = Some (checkCall row1 ctx)
  /\ In marker (argsOf (checkCall row1 ctx))
  /\ In marker (argsOf (insertCall row1 ctx))
  /\ In marker (argsOf (updateCall row1 ctx))
  /\ (forall s1 count,
        QueryRowScanInt conn (queryOf (checkCall row1 ctx))
          (argsOf (checkCall row1 ctx)) (Db ctx) = (s1, inr count) ->
        (count = 0%Z -> calls !! 1 = Some (insertCall row1 ctx))
        /\ (count <> 0%Z -> updateColumns row1 <> [] ->
            calls !! 1 = Some (updateCall row1 ctx)))
  /\ (neverFails conn ->
      forall e, (loadRow conn i row (ctx, clk)).2 <> Failure e).
Proof.
  intros flag row1 pks calls marker Hsize Hk Hpat.
  destruct (Init_pk_lengths flag row clk) as [Hl1 Hl2].
  destruct (Init_spec flag row clk) as (_ & HP & _).
  fold row1 in Hl1, Hl2, HP. rewrite HP in Hl1.
  assert (generatorOf (GetPKValues row1 pks) = None) as Hgen.
  { apply generatorOf_long. unfold GetPKValues. rewrite length_map. lia. }
  pose proof (generator_in_pkValues flag row clk k sv Hk Hpat) as Hin.
  fold row1 marker in Hin.
  pose proof (resolve_generator pks _ _ Hin) as Hres.
  pose proof (checked_rowCalls conn i row ctx clk Hgen) as Hcalls.
  fold flag row1 calls in Hcalls.
  split; [done |]. split; [done |].
  split; [by apply in_or_app; left |].
  split; [by rewrite Hcalls |]. split; [done |].
  split; [by apply in_or_app; left |].
  split; [by apply in_or_app; right |].
  split.
  - intros s1 count Hcount. rewrite Hcount in Hcalls. split.
    + intros ->. by rewrite Hcalls.
    + intros Hne Hupd. rewrite Hcalls.
      destruct (Z.eqb_spec count 0) as [| _]; [done |].
      by destruct (updateColumns row1).
  - intros Hconn e. rewrite loadRow_outcome.
    by apply loadCompiled_never_fails.
Qed.

End RowClaims.
Section RecordedBatch.

Context {DB : Type}.
Variable db : Database DB.
Variable Unmarshal : string -> string + list Row.
Variable ReadFile : string -> string + string.
Variable globals : Globals.

Lemma openLog_snoc (s s' : DB) log c :
  isStatement c = true -> openLog (s, log) -> openLog (s', (log ++ [c])%list).
Proof.
  intros Hc (stmts & Hlog & Hall). simpl in Hlog. subst log.
  exists (stmts ++ [c])%list. split; [done |].
  apply Forall_app. split; [done | by constructor].
Qed.

Lemma openLog_keeps :
  (forall q a st, openLog st ->
                  openLog (QueryRowScanInt (Tx (recordDatabase db)) q a st).1)
  /\ (forall q a st, openLog st ->
                     openLog (QueryRowScanName (Tx (recordDatabase db)) q a st).1)
  /\ (forall q a st, openLog st ->
                     openLog (Exec (Tx (recordDatabase db)) q a st).1).
Proof.
  repeat split; intros q a [s log] Hopen; cbn;
    by eapply openLog_snoc.
Qed.

(** C6, for the context-based [LoadFiles] of [load.go]: the whole batch
    runs in one transaction, begun once before the first file and ended
    once after the last; the registry is created empty with that
    transaction, every file is loaded with the context the files before
    it left, a key written while loading one file stays in the registry
    for every later file, and a reference to it resolves to the value
    stored. *)
Theorem C6_LoadFiles_one_transaction_one_registry :
  (forall filenames driver s clk,
     exists stmts rest,
       (LoadFiles (recordDatabase db) Unmarshal ReadFile globals filenames
          driver ((s, []), clk)).1.1.2
       = (BeginCall :: stmts ++ rest)%list
       /\ Forall (fun c => isStatement c = true) stmts
       /\ (rest = [] \/ rest = [RollbackCall]
           \/ rest = [CommitCall; RollbackCall]))
  /\ (forall filenames driver s clk s1,
        Begin db s = (s1, None) ->
        LoadFiles db Unmarshal ReadFile globals filenames driver (s, clk)
        = deferredRollback db
            (commitOrReturn db
               (loadFiles db Unmarshal ReadFile filenames
                  (mkContext ∅ s1 driver (DefaultDumpSQL globals)
                     (DefaultSetUpdatedAtOnInsert globals), clk))))
  /\ (forall pre f post data st st1,
        loadFiles db Unmarshal ReadFile pre st = (st1, Success) ->
        ReadFile f = inr data ->
        loadFiles db Unmarshal ReadFile (pre ++ f :: post) st
        = match LoadWithContext (Tx db) Unmarshal st1.1 data st1.2 with
          | (st2, Success) => loadFiles db Unmarshal ReadFile post st2
          | failed => failed
          end)
  /\ (forall filenames st name,
        is_Some (primaryKeys st.1 !! name) ->
        is_Some
          (primaryKeys (loadFiles db Unmarshal ReadFile filenames st).1.1
           !! name))
  /\ (forall (pks : gmap string value) name v,
        pks !! name = Some v -> resolve pks (VRef name) = v).
Proof.
  split; [| split; [| split; [| split]]].
  - intros filenames driver s clk. unfold LoadFiles.
    cbn [Begin recordDatabase logged fst snd app].
    destruct (Begin db s) as [s1 [err |]]; cbn [fst snd].
    { exists [], []. by repeat split; [| left]. }
    destruct openLog_keeps as (K1 & K2 & K3).
    pose proof (loadFiles_keeps (recordDatabase db) Unmarshal ReadFile
                  openLog K1 K2 K3 filenames
                  (newContext globals (s1, [BeginCall]) driver, clk)) as Hkeep.
    destruct (loadFiles (recordDatabase db) Unmarshal ReadFile filenames
                (newContext globals (s1, [BeginCall]) driver, clk))
      as [[ctx clk1] out].
    destruct Hkeep as (stmts & Hlog & Hall).
    { exists []. by split. }
    cbn [fst snd] in Hlog.
    destruct out; cbn.
    + destruct (Commit db (Db ctx).1) as [s2 [err |]]; cbn; rewrite Hlog;
        exists stmts, [CommitCall; RollbackCall]; cbn;
        rewrite <- !app_assoc; by repeat split; [| right; right].
    + rewrite Hlog. exists stmts, [RollbackCall].
      by repeat split; [| right; left].
    + rewrite Hlog. exists stmts, [RollbackCall].
      by repeat split; [| right; left].
  - intros filenames driver s clk s1 Hbegin. unfold LoadFiles.
    by rewrite Hbegin.
  - intros pre f post data st st1. apply loadFiles_thread.
  - intros filenames st name. apply loadFiles_registry.
  - intros pks name v Hv. unfold resolve, Get, index. by rewrite Hv.
Qed.

Section Laws.

Context {C : Type}.
Variable committed : DB -> C.
Hypothesis begin_keeps : forall s, committed (Begin db s).1 = committed s.
Hypothesis query_int_keeps :
  forall q a s, committed (QueryRowScanInt (Tx db) q a s).1 = committed s.
Hypothesis query_name_keeps :
  forall q a s, committed (QueryRowScanName (Tx db) q a s).1 = committed s.
Hypothesis exec_keeps :
  forall q a s, committed (Exec (Tx db) q a s).1 = committed s.
Hypothesis rollback_keeps :
  forall s, committed (Rollback db s).1 = committed s.

Lemma inTransaction_keeps c0 :
  (forall q a st,
     inTransaction committed c0 st ->
     inTransaction committed c0 (QueryRowScanInt (Tx (recordDatabase db)) q a st).1)
  /\ (forall q a st,
        inTransaction committed c0 st ->
        inTransaction committed c0 (QueryRowScanName (Tx (recordDatabase db)) q a st).1)
  /\ (forall q a st,
        inTransaction committed c0 st ->
        inTransaction committed c0 (Exec (Tx (recordDatabase db)) q a st).1).
Proof.
  repeat split; destruct st as [s log]; destruct H as [Hc Hopen];
    cbn in *; try (by eapply openLog_snoc); congruence.
Qed.

(** The end of an entry point whose load did not succeed. *)
Lemma failed_load_rolled_back s
    (r : (Context (DB * list call) * Clock) * outcome) :
  r.2 <> Success ->
  inTransaction committed (committed s) (Db r.1.1) ->
  rolledBack committed s
    (deferredRollback (recordDatabase db)
       (commitOrReturn (recordDatabase db) r))
    r.2.
Proof.
  destruct r as [[ctx clk] out]. cbn [fst snd].
  intros Hout [Hc (stmts & Hlog & Hall)].
  unfold rolledBack, deferredRollback, commitOrReturn.
  destruct out; [done | |]; cbn; rewrite rollback_keeps, Hlog; eauto.
Qed.

(** C7: when a row fails, the loop stops at that row and reports it by
    its 1-based index; [Load], [LoadFile] and [LoadFiles] return that
    failure, never commit, roll the transaction back, and leave the
    committed state of the database as it was before the call, whatever
    the rows before the failing one had written inside the transaction. *)
Theorem C7_failed_load_rolls_back :
  (forall rows st st2 e,
     loadRows (Tx (recordDatabase db)) 0 rows st = (st2, Failure e) ->
     exists pre row post st1 cause,
       rows = (pre ++ row :: post)%list
       /\ loadRows (Tx (recordDatabase db)) 0 pre st = (st1, Success)
       /\ loadRow (Tx (recordDatabase db)) (length pre) row st1
          = (st2, Failure e)
       /\ e = NewProcessingError (length pre + 1) cause)
  /\ (forall data driver s clk s1 rows st2 out,
        Begin db s = (s1, None) ->
        Unmarshal data = inr rows ->
        loadRows (Tx (recordDatabase db)) 0 rows
          (newContext globals (s1, [BeginCall]) driver, clk) = (st2, out) ->
        out <> Success ->
        rolledBack committed s
          (Load (recordDatabase db) Unmarshal globals data driver
             ((s, []), clk))
          out)
  /\ (forall filename data driver s clk s1 rows st2 out,
        ReadFile filename = inr data ->
        Begin db s = (s1, None) ->
        Unmarshal data = inr rows ->
        loadRows (Tx (recordDatabase db)) 0 rows
          (newContext globals (s1, [BeginCall]) driver, clk) = (st2, out) ->
        out <> Success ->
        rolledBack committed s
          (LoadFile (recordDatabase db) Unmarshal ReadFile globals filename
             driver ((s, []), clk))
          out)
  /\ (forall filenames driver s clk s1 st2 out,
        Begin db s = (s1, None) ->
        loadFiles (recordDatabase db) Unmarshal ReadFile filenames
          (newContext globals (s1, [BeginCall]) driver, clk) = (st2, out) ->
        out <> Success ->
        rolledBack committed s
          (LoadFiles (recordDatabase db) Unmarshal ReadFile globals
             filenames driver ((s, []), clk))
          out).
Proof.
  assert (forall s s1 driver,
            Begin db s = (s1, None) ->
            inTransaction committed (committed s)
              (Db (newContext globals (s1, [BeginCall]) driver))) as Hstart.
  { intros s s1 driver Hbegin. split; cbn.
    - by rewrite <- (begin_keeps s), Hbegin.
    - exists []. by split. }
  assert (forall data driver s clk s1 rows st2 out,
            Begin db s = (s1, None) ->
            Unmarshal data = inr rows ->
            loadRows (Tx (recordDatabase db)) 0 rows
              (newContext globals (s1, [BeginCall]) driver, clk) = (st2, out) ->
            out <> Success ->
            rolledBack committed s
              (Load (recordDatabase db) Unmarshal globals data driver
                 ((s, []), clk))
              out) as Hload.
  { intros data driver s clk s1 rows st2 out Hbegin Hdata Hrun Hout.
    unfold Load, LoadWithContext. cbn [Begin recordDatabase logged fst snd].
    rewrite Hbegin. cbn [fst snd app]. rewrite Hdata.
    change (Tx (recordDatabase db)) with (recordHandle (Tx db)) in Hrun.
    cbn [Tx recordDatabase]. rewrite Hrun.
    apply (failed_load_rolled_back s (st2, out)); [done |].
    destruct (inTransaction_keeps (committed s)) as (K1 & K2 & K3).
    pose proof (loadRows_keeps (Tx (recordDatabase db))
                  (inTransaction committed (committed s)) K1 K2 K3 rows 0
                  (newContext globals (s1, [BeginCall]) driver, clk)
                  (Hstart s s1 driver Hbegin)) as Hkeep.
    change (Tx (recordDatabase db)) with (recordHandle (Tx db)) in Hkeep.
    by rewrite Hrun in Hkeep. }
  split; [| split; [exact Hload | split]].
  - intros rows st st2 e Hrun.
    destruct (loadRows_failure _ rows 0 st st2 e Hrun)
      as (pre & row & post & st1 & cause & H1 & H2 & H3 & H4).
    by exists pre, row, post, st1, cause.
  - intros filename data driver s clk s1 rows st2 out Hfile.
    unfold LoadFile. rewrite Hfile. by apply Hload.
  - intros filenames driver s clk s1 st2 out Hbegin Hrun Hout.
    unfold LoadFiles. cbn [Begin recordDatabase logged fst snd].
    rewrite Hbegin. cbn [fst snd app]. rewrite Hrun.
    apply (failed_load_rolled_back s (st2, out)); [done |].
    destruct (inTransaction_keeps (committed s)) as (K1 & K2 & K3).
    pose proof (loadFiles_keeps (recordDatabase db) Unmarshal ReadFile
                  (inTransaction committed (committed s)) K1 K2 K3 filenames
                  (newContext globals (s1, [BeginCall]) driver, clk)
                  (Hstart s s1 driver Hbegin)) as Hkeep.
    by rewrite Hrun in Hkeep.
Qed.

End Laws.

End RecordedBatch.
Section Timestamps.

Lemma isString_exclusive v :
  isString v onInsertNow = true -> isString v onUpdateNow = false.
Proof.
  destruct v; try done. simpl. intros H. apply String.eqb_eq in H. by subst.
Qed.

(** Where the loop stores the two clock readings of an update timestamp:
    the update value is one reading and, with the flag, the insert value
    is the reading after it. *)
Lemma field_loop_update_now flag ks : forall row clk k,
  length (insertColumns row) = length (insertValues row) ->
  length (updateColumns row) = length (updateValues row) ->
  In k ks ->
  isString (index (Fields row) k) onUpdateNow = true ->
  let r := (fold_left (initField flag) ks (row, clk)).1 in
  exists j n,
    ticks clk <= n
    /\ updateColumns r !! j = Some k
    /\ updateValues r !! j = Some (VTime (wall clk n))
    /\ (flag = true ->
        exists j',
          insertColumns r !! j' = Some k
          /\ insertValues r !! j' = Some (VTime (wall clk (S n)))).
Proof.
  induction ks as [| k0 ks IH]; intros row clk k Hli Hlu Hin Hk; [done |].
  cbn [fold_left].
  pose proof (initField_step flag row clk k0) as Hstep.
  destruct (initField flag (row, clk) k0) as [row1 clk1] eqn:Hinit.
  cbn [fst snd] in Hstep.
  destruct Hstep as (HT & HP & HF & HpC & HpV & HiC & HuC
                     & (iv1 & HiV & Hi2) & (uv1 & HuV & Hu2) & Hw & Ht).
  pose proof (field_loop flag ks row1 clk1) as Hrest.
  destruct (fold_left (initField flag) ks (row1, clk1)) as [row2 clk2] eqn:Hf.
  cbn [fst snd] in Hrest |- *.
  destruct Hrest as (_ & _ & _ & _ & _ & HiC2 & HuC2
                     & (iv2 & HiV2 & _) & (uv2 & HuV2 & _) & _).
  assert (length (insertColumns row1) = length (insertValues row1)) as Hli1.
  { rewrite HiC, HiV, !length_app, Hli. f_equal.
    apply (Forall2_length _ _ _ Hi2). }
  assert (length (updateColumns row1) = length (updateValues row1)) as Hlu1.
  { rewrite HuC, HuV, !length_app, Hlu. f_equal.
    apply (Forall2_length _ _ _ Hu2). }
  destruct (decide (k = k0)) as [-> | Hne].
  - (* the step on [k0] appends the readings at the end of the lists *)
    clear IH. unfold initField in Hinit.
    assert (isString (index (Fields row) k0) onInsertNow = false) as Ei.
    { destruct (isString (index (Fields row) k0) onInsertNow) eqn:E;
        [| done]. apply isString_exclusive in E. congruence. }
    rewrite Ei, Hk in Hinit. cbn [Now] in Hinit.
    exists (length (updateColumns row)), (ticks clk).
    split; [lia |].
    destruct flag; injection Hinit as <- <-;
      cbn [insertColumns insertValues updateColumns updateValues
           appendInsert appendUpdate] in *.
    + rewrite HuC2, HuV2. split; [| split].
      * rewrite lookup_app_l by (rewrite length_app; simpl; lia).
        by rewrite list_lookup_middle.
      * rewrite lookup_app_l by (rewrite length_app; simpl; lia).
        by rewrite list_lookup_middle.
      * intros _. exists (length (insertColumns row)).
        rewrite HiC2, HiV2. split.
        -- rewrite lookup_app_l by (rewrite length_app; simpl; lia).
           by rewrite list_lookup_middle.
        -- rewrite lookup_app_l by (rewrite length_app; simpl; lia).
           by rewrite list_lookup_middle.
    + rewrite HuC2, HuV2. split; [| split; [| done]].
      * rewrite lookup_app_l by (rewrite length_app; simpl; lia).
        by rewrite list_lookup_middle.
      * rewrite lookup_app_l by (rewrite length_app; simpl; lia).
        by rewrite list_lookup_middle.
  - destruct Hin as [-> | Hin]; [done |].
    assert (isString (index (Fields row1) k) onUpdateNow = true) as Hk1
      by (by rewrite HF).
    destruct (IH row1 clk1 k Hli1 Hlu1 Hin Hk1) as (j & n & Hn & H1 & H2 & H3).
    rewrite Hf in H1, H2, H3. cbn [fst] in H1, H2, H3.
    rewrite Hw in H2, H3.
    exists j, n. split; [lia |]. done.
Qed.

(** C8: after [Init], a field whose value is ON_INSERT_NOW() has an insert
    column bound to a time and no update column; a field whose value is
    ON_UPDATE_NOW() has an update column bound to a time and has an insert
    column exactly when the flag is on, in which case the update value
    and the insert value are two successive readings of the clock. *)
Theorem C8_timestamp_columns flag row clk k :
  let row1 := (Init flag row clk).1 in
  (Fields row !! k = Some (VStr onInsertNow) ->
   (exists j t,
      insertColumns row1 !! j = Some k
      /\ insertValues row1 !! j = Some (VTime t))
   /\ ~ In k (updateColumns row1))
  /\ (Fields row !! k = Some (VStr onUpdateNow) ->
      (exists j n,
         ticks clk <= n
         /\ updateColumns row1 !! j = Some k
         /\ updateValues row1 !! j = Some (VTime (wall clk n))
         /\ (flag = true ->
             exists j',
               insertColumns row1 !! j' = Some k
               /\ insertValues row1 !! j' = Some (VTime (wall clk (S n)))))
      /\ (In k (insertColumns row1) <-> flag = true)).
Proof.
  intros row1.
  destruct (Init_spec flag row clk)
    as (HT & HP & HF & HpC & HpV & HiC & HuC & Hi2 & Hu2).
  fold row1 in HT, HP, HF, HpC, HpV, HiC, HuC, Hi2, Hu2.
  split.
  - intros Hk.
    assert (index (Fields row) k = VStr onInsertNow) as Hidx
      by (unfold index; by rewrite Hk).
    assert (In k (fieldKeys row)) as Hin.
    { apply list_elem_of_In, elem_of_sorted_keys. by eexists. }
    split.
    + assert (In k (insertColumns row1)) as Hcol.
      { rewrite HiC. apply List.filter_In. split; [done |].
        unfold insertsField. by rewrite Hidx. }
      apply list_elem_of_In, list_elem_of_lookup in Hcol as [j Hj].
      destruct (Forall2_lookup_l _ _ _ _ _ Hi2 Hj) as (v & Hv & Hrel).
      unfold insertValueOf in Hrel. rewrite Hidx in Hrel.
      destruct Hrel as [t ->]. by exists j, t.
    + rewrite HuC. intros Hcol. apply List.filter_In in Hcol as [_ Hcol].
      unfold updatesField in Hcol. by rewrite Hidx in Hcol.
  - intros Hk.
    assert (index (Fields row) k = VStr onUpdateNow) as Hidx
      by (unfold index; by rewrite Hk).
    assert (In k (fieldKeys row)) as Hin.
    { apply list_elem_of_In, elem_of_sorted_keys. by eexists. }
    split.
    + unfold row1, Init.
      apply field_loop_update_now; try done.
      cbn [Fields]. by rewrite Hidx.
    + rewrite HiC. split.
      * intros Hcol. apply List.filter_In in Hcol as [_ Hcol].
        unfold insertsField in Hcol. rewrite Hidx in Hcol.
        by destruct flag.
      * intros ->. apply List.filter_In. split; [done |].
        unfold insertsField. by rewrite orb_true_r.
Qed.

End Timestamps.
Section Markers.

Lemma index_lookup (m : gmap string value) k v :
  m !! k = Some v -> index m k = v.
Proof. intros H. unfold index. by rewrite H. Qed.

Lemma pkValues_at flag row clk j k :
  let row1 := (Init flag row clk).1 in
  pkColumns row1 !! j = Some k ->
  pkValues row1 !! j = Some (pkMarker (index (PK row) k)).
Proof.
  intros row1 Hj.
  destruct (Init_spec flag row clk) as (_ & _ & _ & HpC & HpV & _).
  fold row1 in HpC, HpV. rewrite HpV. rewrite HpC in Hj.
  change (List.map ?f ?l) with (f <$> l).
  by rewrite list_lookup_fmap, Hj.
Qed.

Lemma insertValues_at flag row clk j k :
  let row1 := (Init flag row clk).1 in
  insertColumns row1 !! j = Some k ->
  exists v, insertValues row1 !! j = Some v
            /\ insertValueOf (Fields row) k v.
Proof.
  intros row1 Hj.
  destruct (Init_spec flag row clk) as (_ & _ & _ & _ & _ & _ & _ & Hi2 & _).
  apply (Forall2_lookup_l _ _ _ _ _ Hi2 Hj).
Qed.

Lemma updateValues_at flag row clk j k :
  let row1 := (Init flag row clk).1 in
  updateColumns row1 !! j = Some k ->
  exists v, updateValues row1 !! j = Some v
            /\ updateValueOf (Fields row) k v.
Proof.
  intros row1 Hj.
  destruct (Init_spec flag row clk) as (_ & _ & _ & _ & _ & _ & _ & _ & Hu2).
  apply (Forall2_lookup_l _ _ _ _ _ Hu2 Hj).
Qed.

(** A field that is no timestamp marker has both columns, bound to its
    marker. *)
Lemma plain_field flag row clk k v :
  let row1 := (Init flag row clk).1 in
  Fields row !! k = Some v ->
  isString v onInsertNow = false ->
  isString v onUpdateNow = false ->
  In k (insertColumns row1) /\ In k (updateColumns row1)
  /\ (forall j, insertColumns row1 !! j = Some k ->
                insertValues row1 !! j = Some (fieldMarker v))
  /\ (forall j, updateColumns row1 !! j = Some k ->
                updateValues row1 !! j = Some (fieldMarker v)).
Proof.
  intros row1 Hk Hi Hu.
  destruct (Init_spec flag row clk) as (_ & _ & _ & _ & _ & HiC & HuC & _).
  fold row1 in HiC, HuC.
  assert (index (Fields row) k = v) as Hidx by (by apply index_lookup).
  assert (In k (fieldKeys row)) as Hin.
  { apply list_elem_of_In, elem_of_sorted_keys. by eexists. }
  split; [| split; [| split]].
  - rewrite HiC. apply List.filter_In. split; [done |].
    unfold insertsField. by rewrite Hidx, Hu.
  - rewrite HuC. apply List.filter_In. split; [done |].
    unfold updatesField. by rewrite Hidx, Hi.
  - intros j Hj.
    destruct (insertValues_at flag row clk j k Hj) as (w & Hw & Hrel).
    unfold insertValueOf in Hrel. rewrite Hidx, Hi, Hu in Hrel.
    simpl in Hrel. by subst w.
  - intros j Hj.
    destruct (updateValues_at flag row clk j k Hj) as (w & Hw & Hrel).
    unfold updateValueOf in Hrel. rewrite Hidx, Hu in Hrel. by subst w.
Qed.

Lemma isString_false sv s : sv <> s -> isString (VStr sv) s = false.
Proof. intros Hne. simpl. by apply String.eqb_neq. Qed.

(** Where [Init] puts the marker of a reference of the field spec, and of
    the primary-key spec. *)
Lemma compiled_reference_field flag row clk k inner :
  let r := (Init flag row clk).1 in
  Fields row !! k
  = Some (VStr (onPKReferencePrefix +:+ inner +:+ onPKReferenceSuffix)) ->
  In k (insertColumns r) /\ In k (updateColumns r)
  /\ (forall j, insertColumns r !! j = Some k ->
                insertValues r !! j = Some (VRef (TrimSpace inner)))
  /\ (forall j, updateColumns r !! j = Some k ->
                updateValues r !! j = Some (VRef (TrimSpace inner))).
Proof.
  intros r Hk.
  destruct (reference_not_timestamp _
              (HasPrefix_append onPKReferencePrefix
                 (inner +:+ onPKReferenceSuffix))) as [Hi Hu].
  destruct (plain_field flag row clk k _ Hk Hi Hu) as (H1 & H2 & H3 & H4).
  fold r in H1, H2, H3, H4.
  assert (fieldMarker
            (VStr (onPKReferencePrefix +:+ inner +:+ onPKReferenceSuffix))
          = VRef (TrimSpace inner)) as Hfm.
  { unfold fieldMarker. by rewrite marker_matches, keyName_marker. }
  rewrite Hfm in H3, H4. done.
Qed.

Lemma compiled_reference_pk flag row clk k inner j :
  let r := (Init flag row clk).1 in
  PK row !! k
  = Some (VStr (onPKReferencePrefix +:+ inner +:+ onPKReferenceSuffix)) ->
  pkColumns r !! j = Some k ->
  pkValues r !! j = Some (VRef (TrimSpace inner)).
Proof.
  intros r Hk Hj.
  rewrite (pkValues_at flag row clk j k Hj : pkValues r !! j = _).
  rewrite (index_lookup _ _ _ Hk). unfold pkMarker.
  rewrite (reference_not_generator _
             (HasPrefix_append onPKReferencePrefix
                (inner +:+ onPKReferenceSuffix))).
  cbn [andb]. by rewrite marker_matches, keyName_marker.
Qed.

Lemma compiled_generator_pk flag row clk k inner j :
  let r := (Init flag row clk).1 in
  PK row !! k
  = Some (VStr (onPKGeneratePrefix +:+ inner +:+ onPKGenerateSuffix)) ->
  pkColumns r !! j = Some k ->
  pkValues r !! j = Some (VGen (TrimSpace inner)).
Proof.
  intros r Hk Hj.
  rewrite (pkValues_at flag row clk j k Hj : pkValues r !! j = _).
  rewrite (index_lookup _ _ _ Hk). unfold pkMarker.
  by rewrite marker_matches, keyName_marker.
Qed.

(** C9: a string that matches no marker pattern is kept as the literal it
    is, in the primary-key spec and in the field spec, and is bound as it
    is; the name inside a PK_GENERATE or PK_REFERENCE marker is the
    enclosed text with the white space around it trimmed: a name that
    begins and ends with a visible character, written with any number of
    blanks before and after it, is stored as that name alone. [Init] has
    no error result. *)
Theorem C9_unrecognised_strings_are_literals flag row clk k sv :
  let row1 := (Init flag row clk).1 in
  (PK row !! k = Some (VStr sv) ->
   HasPrefix sv onPKGeneratePrefix && HasSuffix sv onPKGenerateSuffix
   = false ->
   HasPrefix sv onPKReferencePrefix && HasSuffix sv onPKReferenceSuffix
   = false ->
   In k (pkColumns row1)
   /\ forall j, pkColumns row1 !! j = Some k ->
                pkValues row1 !! j = Some (VStr sv))
  /\ (Fields row !! k = Some (VStr sv) ->
      sv <> onInsertNow ->
      sv <> onUpdateNow ->
      HasPrefix sv onPKReferencePrefix && HasSuffix sv onPKReferenceSuffix
      = false ->
      In k (insertColumns row1) /\ In k (updateColumns row1)
      /\ (forall j, insertColumns row1 !! j = Some k ->
                    insertValues row1 !! j = Some (VStr sv))
      /\ (forall j, updateColumns row1 !! j = Some k ->
                    updateValues row1 !! j = Some (VStr sv)))
  /\ (forall pks, resolve pks (VStr sv) = VStr sv)
  /\ (forall inner,
        sv = onPKGeneratePrefix +:+ inner +:+ onPKGenerateSuffix ->
        PK row !! k = Some (VStr sv) ->
        forall j, pkColumns row1 !! j = Some k ->
                  pkValues row1 !! j = Some (VGen (TrimSpace inner)))
  /\ (forall inner,
        sv = onPKReferencePrefix +:+ inner +:+ onPKReferenceSuffix ->
        (PK row !! k = Some (VStr sv) ->
         forall j, pkColumns row1 !! j = Some k ->
                   pkValues row1 !! j = Some (VRef (TrimSpace inner)))
        /\ (Fields row !! k = Some (VStr sv) ->
            forall j, insertColumns row1 !! j = Some k ->
                      insertValues row1 !! j = Some (VRef (TrimSpace inner))))
  /\ (forall n m name,
        tight name = true ->
        let padded := blanks n +:+ name +:+ blanks m in
        (PK row !! k
         = Some (VStr (onPKGeneratePrefix +:+ padded +:+ onPKGenerateSuffix)) ->
         forall j, pkColumns row1 !! j = Some k ->
                   pkValues row1 !! j = Some (VGen name))
        /\ (PK row !! k
            = Some (VStr (onPKReferencePrefix +:+ padded
                          +:+ onPKReferenceSuffix)) ->
            forall j, pkColumns row1 !! j = Some k ->
                      pkValues row1 !! j = Some (VRef name))
        /\ (Fields row !! k
            = Some (VStr (onPKReferencePrefix +:+ padded
                          +:+ onPKReferenceSuffix)) ->
            (forall j, insertColumns row1 !! j = Some k ->
                       insertValues row1 !! j = Some (VRef name))
            /\ (forall j, updateColumns row1 !! j = Some k ->
                          updateValues row1 !! j = Some (VRef name)))).
Proof.
  intros row1.
  destruct (Init_spec flag row clk) as (_ & _ & _ & HpC & _).
  fold row1 in HpC.
  split; [| split; [| split; [| split; [| split]]]].
  - intros Hk Hgen Href. split.
    + rewrite HpC. apply list_elem_of_In, elem_of_sorted_keys. by eexists.
    + intros j Hj. rewrite (pkValues_at flag row clk j k Hj : pkValues row1 !! j = _).
      rewrite (index_lookup _ _ _ Hk). unfold pkMarker.
      by rewrite Hgen, Href.
  - intros Hk Hi Hu Href.
    destruct (plain_field flag row clk k (VStr sv) Hk
                (isString_false _ _ Hi) (isString_false _ _ Hu))
      as (H1 & H2 & H3 & H4).
    unfold fieldMarker in H3, H4. rewrite Href in H3, H4. done.
  - done.
  - intros inner -> Hk j Hj.
    rewrite (pkValues_at flag row clk j k Hj : pkValues row1 !! j = _).
    rewrite (index_lookup _ _ _ Hk). unfold pkMarker.
    by rewrite marker_matches, keyName_marker.
  - intros inner ->. split.
    + intros Hk j Hj.
      rewrite (pkValues_at flag row clk j k Hj : pkValues row1 !! j = _).
      rewrite (index_lookup _ _ _ Hk). unfold pkMarker.
      rewrite (reference_not_generator _
                 (HasPrefix_append onPKReferencePrefix
                    (inner +:+ onPKReferenceSuffix))).
      cbn [andb]. by rewrite marker_matches, keyName_marker.
    + intros Hk j Hj.
      destruct (reference_not_timestamp _
                  (HasPrefix_append onPKReferencePrefix
                     (inner +:+ onPKReferenceSuffix))) as [Hi Hu].
      destruct (plain_field flag row clk k _ Hk Hi Hu) as (_ & _ & H3 & _).
      fold row1 in H3. rewrite (H3 j Hj). unfold fieldMarker.
      by rewrite marker_matches, keyName_marker.
  - intros n m name Ht padded.
    pose proof (TrimSpace_padded n m name Ht) as Htrim. fold padded in Htrim.
    split; [| split].
    + intros Hk j Hj. rewrite <- Htrim.
      exact (compiled_generator_pk flag row clk k padded j Hk Hj).
    + intros Hk j Hj. rewrite <- Htrim.
      exact (compiled_reference_pk flag row clk k padded j Hk Hj).
    + intros Hk.
      destruct (compiled_reference_field flag row clk k padded Hk)
        as (_ & _ & Hins & Hupd).
      rewrite Htrim in Hins, Hupd. by split.
Qed.

(** C1, in the form the code satisfies: a PK_REFERENCE whose name has not been written to the
    registry is compiled to a reference marker and resolves to nil, which
    is what is bound as the argument, in the primary-key values and in the
    insert and update values. The lookup has no error of its own: with a
    handle that returns no error the row does not fail, and any failure
    of the row carries the 1-based row index. *)
Theorem C1_unwritten_reference_binds_nil {DB : Type} (conn : Handle DB)
    i row (ctx : Context DB) clk k inner :
  let row1 := (Init (SetUpdatedAtOnInsert ctx) row clk).1 in
  let pks := primaryKeys ctx in
  let sv := onPKReferencePrefix +:+ inner +:+ onPKReferenceSuffix in
  let name := TrimSpace inner in
  pks !! name = None ->
  resolve pks (VRef name) = VNil
  /\ (PK row !! k = Some (VStr sv) ->
      forall j, pkColumns row1 !! j = Some k ->
                pkValues row1 !! j = Some (VRef name)
                /\ GetPKValues row1 pks !! j = Some VNil
                /\ GetPKAndInsertValues row1 pks !! j = Some VNil)
  /\ (Fields row !! k = Some (VStr sv) ->
      In k (insertColumns row1) /\ In k (updateColumns row1)
      /\ (forall j, insertColumns row1 !! j = Some k ->
                    insertValues row1 !! j = Some (VRef name)
                    /\ GetInsertValues row1 pks !! j = Some VNil)
      /\ (forall j, updateColumns row1 !! j = Some k ->
                    updateValues row1 !! j = Some (VRef name)
                    /\ GetUpdateValues row1 pks !! j = Some VNil))
  /\ (neverFails conn ->
      forall e, (loadRow conn i row (ctx, clk)).2 <> Failure e)
  /\ (forall e,
        (loadRow conn i row (ctx, clk)).2 = Failure e ->
        exists cause, e = NewProcessingError (i + 1) cause).
Proof.
  intros row1 pks sv name Hnone.
  assert (resolve pks (VRef name) = VNil) as Hres
    by (unfold resolve, Get, index; by rewrite Hnone).
  assert (forall (l : list value) j,
            l !! j = Some (VRef name) ->
            List.map (resolve pks) l !! j = Some VNil) as Hmap.
  { intros l j Hj. change (List.map ?f ?l) with (f <$> l).
    by rewrite list_lookup_fmap, Hj, <- Hres. }
  assert (fieldMarker (VStr sv) = VRef name) as Hfm.
  { unfold fieldMarker, sv. by rewrite marker_matches, keyName_marker. }
  split; [done |]. split; [| split; [| split]].
  - intros Hk j Hj.
    assert (pkValues row1 !! j = Some (VRef name)) as Hv.
    { rewrite (pkValues_at _ row clk j k Hj : pkValues row1 !! j = _).
      rewrite (index_lookup _ _ _ Hk). unfold pkMarker, sv.
      rewrite (reference_not_generator _
                 (HasPrefix_append onPKReferencePrefix
                    (inner +:+ onPKReferenceSuffix))).
      cbn [andb]. by rewrite marker_matches, keyName_marker. }
    split; [done |]. split; [by apply Hmap |].
    unfold GetPKAndInsertValues. apply lookup_app_l_Some. by apply Hmap.
  - intros Hk.
    destruct (reference_not_timestamp _
                (HasPrefix_append onPKReferencePrefix
                   (inner +:+ onPKReferenceSuffix))) as [Hi Hu].
    destruct (plain_field (SetUpdatedAtOnInsert ctx) row clk k _ Hk Hi Hu)
      as (H1 & H2 & H3 & H4).
    fold row1 sv in H1, H2, H3, H4. rewrite Hfm in H3, H4.
    split; [done |]. split; [done |]. split.
    + intros j Hj. split; [by apply H3 |]. by apply Hmap, H3.
    + intros j Hj. split; [by apply H4 |]. by apply Hmap, H4.
  - intros Hconn e. rewrite loadRow_outcome.
    by apply loadCompiled_never_fails.
  - intros e He. rewrite loadRow_outcome in He.
    by apply (proj2 (loadCompiled_step conn i row1 ctx) e).
Qed.

End Markers.
(* ================================================================= *)
(** ** The theorems at work on the in-memory database *)

Section Examples.

Import MemoryDb.

Lemma lenient_never_fails : neverFails (handle false).
Proof.
  repeat split; intros q args s; cbn.
  - destruct (HasPrefix q "INSERT"); by eexists _, _.
  - by eexists _, _.
  - by eexists _, _.
Qed.

(** A reference before its generator: the row succeeds and binds nil. *)
Lemma C1_reference_before_generate_succeeds :
  let ctx := context "postgres" empty in
  let row1 := (Init false postRow clock0).1 in
  primaryKeys ctx !! "uid" = None
  /\ Fields postRow !! "user_id" = Some (VStr "PK_REFERENCE(uid)")
  /\ (loadRow (handle false) 0 postRow (ctx, clock0)).2 = Success
  /\ rowCalls (handle false) 0 postRow ctx clock0
     = [checkCall row1 ctx; insertCall row1 ctx;
        QueryRowCall serialSequenceQuery [VStr "posts"; VStr "id"]]
  /\ argsOf (insertCall row1 ctx) = [VInt 1; VNil].
Proof. vm_compute. by repeat split. Qed.

Lemma C1_witness :
  primaryKeys (context "postgres" empty) !! TrimSpace "uid" = None
  /\ GetInsertValues (Init false postRow clock0).1 ∅ !! 0 = Some VNil.
Proof.
  split; [vm_compute; reflexivity |].
  destruct (C1_unwritten_reference_binds_nil (handle false) 0 postRow
              (context "postgres" empty) clock0 "user_id" "uid")
    as (_ & _ & Hfields & _); [vm_compute; reflexivity |].
  destruct Hfields as (_ & _ & Hins & _); [vm_compute; reflexivity |].
  apply (Hins 0). vm_compute; reflexivity.
Defined.


(** The text and the arguments of the statements at fixed inputs;
    [String "034"] is the double quote. *)
Lemma C3_witness :
  let ctx := context "postgres" (storeWith 0 None) in
  let row1 := (Init false tagRow clock0).1 in
  generatorOf (GetPKValues row1 (primaryKeys ctx)) = None
  /\ exists tail,
       rowCalls (handle true) 0 tagRow ctx clock0
       = QueryRowCall
           ("SELECT COUNT(*) FROM "
            +:+ String "034" ("tags" +:+ String "034" " WHERE id = $1"))
           [VInt 7]
         :: ExecCall
              ("INSERT INTO "
               +:+ String "034" ("tags" +:+ String "034" ("("
               +:+ String "034" ("id" +:+ String "034" (", "
               +:+ String "034" ("label"
               +:+ String "034" ") VALUES($1, $2)"))))))
              [VInt 7; VStr "go"]
         :: tail
       /\ Forall (fun c => isFixupCall "tags" c = true) tail.
Proof.
  split; [vm_compute; reflexivity |].
  destruct (C3_existence_check_then_write (handle true) 0 tagRow
              (context "postgres" (storeWith 0 None)) clock0
              ltac:(vm_compute; reflexivity))
    as (_ & _ & _ & _ & _ & _ & _ & _ & _ & _ & _ & _ & _ & _ & Hpath).
  destruct (Hpath (storeWith 0 None) 0%Z ltac:(vm_compute; reflexivity))
    as (Hinsert & _).
  destruct (Hinsert eq_refl) as (tail & Hcalls & Hfix).
  exists tail. split; [| exact Hfix].
  exact (eq_trans Hcalls ltac:(vm_compute; reflexivity)).
Defined.

Lemma C4_witness :
  let ctx := context "postgres" (storeWith 1 None) in
  let row1 := (Init false tagRow clock0).1 in
  generatorOf (GetPKValues row1 (primaryKeys ctx)) = None
  /\ rowCalls (handle true) 0 tagRow ctx clock0 !! 1
     = Some
         (ExecCall
            ("UPDATE "
             +:+ String "034" ("tags" +:+ String "034" (" SET "
             +:+ String "034" ("label"
             +:+ String "034" " = $1 WHERE id = $2"))))
            [VStr "go"; VInt 7]).
Proof.
  split; [vm_compute; reflexivity |].
  destruct (C4_update_arguments_and_placeholders (handle true) 0 tagRow
              (context "postgres" (storeWith 1 None)) clock0
              ltac:(vm_compute; reflexivity) (storeWith 1 None) 1%Z)
    as (Hcall & _).
  - vm_compute; reflexivity.
  - discriminate.
  - intros H. vm_compute in H. discriminate H.
  - exact (eq_trans Hcall ltac:(vm_compute; reflexivity)).
Defined.



(** The earlier [LoadFiles] on two files: two transactions, and the
    reference of the second file binds nil; the context-based [LoadFiles]
    on the same files: one transaction, and the reference binds the key
    generated by the first file. *)
Lemma C6_legacy_LoadFiles_separate_registries :
  let files := ["users.yml"; "posts.yml"] in
  let legacy :=
    Legacy.LoadFiles (recordDatabase (database false)) unmarshal readFile
      true false files "mysql" ((empty, []), clock0) in
  let current :=
    LoadFiles (recordDatabase (database false)) unmarshal readFile globals0
      files "mysql" ((empty, []), clock0) in
  List.filter (fun c => bool_decide (c = BeginCall)) legacy.1.1.2
  = [BeginCall; BeginCall]
  /\ List.map argsOf (List.filter isInsertCall legacy.1.1.2)
     = [[VStr "Alice"]; [VInt 1; VNil]]
  /\ List.filter (fun c => bool_decide (c = BeginCall)) current.1.1.2
     = [BeginCall]
  /\ List.map argsOf (List.filter isInsertCall current.1.1.2)
     = [[VStr "Alice"]; [VInt 1; VInt 1]].
Proof. vm_compute. by repeat split. Qed.

Lemma C6_witness :
  let st :=
    (loadFiles (database true) unmarshal readFile ["users.yml"]
       (context "mysql" empty, clock0)).1 in
  primaryKeys st.1 !! "uid" = Some (VInt 1)
  /\ is_Some
       (primaryKeys
          (loadFiles (database true) unmarshal readFile ["posts.yml"] st).1.1
        !! "uid").
Proof.
  split; [vm_compute; reflexivity |].
  destruct (C6_LoadFiles_one_transaction_one_registry (database true)
              unmarshal readFile globals0) as (_ & _ & _ & Hkeep & _).
  apply Hkeep. exists (VInt 1). vm_compute; reflexivity.
Defined.

Lemma store_committed_begin s :
  committed (Begin (database true) s).1 = committed s.
Proof. done. Qed.

Lemma store_committed_int q a s :
  committed (QueryRowScanInt (Tx (database true)) q a s).1 = committed s.
Proof.
  cbn. destruct (existsb isNil a); [done |].
  by destruct (HasPrefix q "INSERT").
Qed.

Lemma store_committed_name q a s :
  committed (QueryRowScanName (Tx (database true)) q a s).1 = committed s.
Proof. done. Qed.

Lemma store_committed_exec q a s :
  committed (Exec (Tx (database true)) q a s).1 = committed s.
Proof. cbn. by destruct (existsb isNil a). Qed.

Lemma store_committed_rollback s :
  committed (Rollback (database true) s).1 = committed s.
Proof. done. Qed.

Lemma C7_witness :
  let run :=
    LoadFile (recordDatabase (database true)) unmarshal readFile globals0
      "tags.yml" "mysql" ((empty, []), clock0) in
  run.2
  = Failure "Error loading row 2: null value violates not-null constraint"
  /\ committed run.1.1.1 = committed empty.
Proof.
  destruct (C7_failed_load_rolls_back (database true) unmarshal readFile
              globals0 committed store_committed_begin store_committed_int
              store_committed_name store_committed_exec
              store_committed_rollback) as (_ & _ & Hfile & _).
  destruct (Hfile "tags.yml" "tags-doc" "mysql" empty clock0 empty twoRows
              (loadRows (Tx (recordDatabase (database true))) 0 twoRows
                 (newContext globals0 (empty, [BeginCall]) "mysql",
                  clock0)).1
              (Failure
                 "Error loading row 2: null value violates not-null constraint"))
    as (Hout & Hkept & _); try (vm_compute; reflexivity); [discriminate |].
  by split.
Defined.

Lemma C8_witness :
  Fields eventRow !! "updated_at" = Some (VStr onUpdateNow)
  /\ (In "updated_at" (insertColumns (Init true eventRow clock0).1)
      <-> true = true).
Proof.
  split; [vm_compute; reflexivity |].
  apply (proj2 (C8_timestamp_columns true eventRow clock0 "updated_at")).
  vm_compute; reflexivity.
Defined.

(** The two readings of an update timestamp differ on a running clock. *)
Lemma update_timestamp_two_readings :
  let row1 := (Init true eventRow clock0).1 in
  updateValues row1 = [VStr "PK_GENERATE(x"; VTime 1]
  /\ insertValues row1 = [VTime 0; VStr "PK_GENERATE(x"; VTime 2].
Proof. vm_compute. by split. Qed.

Lemma C9_witness :
  Fields eventRow !! "note" = Some (VStr "PK_GENERATE(x")
  /\ In "note" (insertColumns (Init false eventRow clock0).1)
  /\ PK userRow !! "id" = Some (VStr "PK_GENERATE( uid )")
  /\ pkValues (Init false userRow clock0).1 !! 0 = Some (VGen "uid")
  /\ TrimSpace (" " +:+ tab +:+ "uid" +:+ nl +:+ " ") = "uid".
Proof.
  split; [vm_compute; reflexivity |].
  destruct (C9_unrecognised_strings_are_literals false eventRow clock0
              "note" "PK_GENERATE(x") as (_ & Hfield & _).
  destruct Hfield as (Hin & _).
  - vm_compute; reflexivity.
  - intros H. vm_compute in H. discriminate H.
  - intros H. vm_compute in H. discriminate H.
  - vm_compute; reflexivity.
  - split; [exact Hin |].
    split; [vm_compute; reflexivity |].
    destruct (C9_unrecognised_strings_are_literals false userRow clock0
                "id" "PK_GENERATE( uid )") as (_ & _ & _ & _ & _ & Hpad).
    destruct (Hpad 1 1 "uid") as (Hgen & _); [vm_compute; reflexivity |].
    split; [| vm_compute; reflexivity].
    apply (Hgen ltac:(vm_compute; reflexivity) 0).
    vm_compute; reflexivity.
Defined.

(** White space inside a marker is trimmed. *)
Lemma marker_name_trimmed :
  pkValues (Init false userRow clock0).1 = [VGen "uid"]
  /\ TrimSpace (" " +:+ tab +:+ "a b" +:+ nl) = "a b".
Proof. vm_compute. by split. Qed.

Lemma C10_witness :
  let ctx := context "postgres" (storeWith 0 None) in
  let row1 := (Init false memberRow clock0).1 in
  2 <= size (PK memberRow)
  /\ PK memberRow !! "id" = Some (VStr "PK_GENERATE(mid)")
  /\ generatorOf (GetPKValues row1 (primaryKeys ctx)) = None
  /\ In (VGen "mid") (argsOf (checkCall row1 ctx)).
Proof.
  assert (2 <= size (PK memberRow)) as Hsize by (vm_compute; lia).
  assert (PK memberRow !! "id" = Some (VStr "PK_GENERATE(mid)")) as Hid
    by (vm_compute; reflexivity).
  destruct (C10_generator_in_composite_key (handle true) 0 memberRow
              (context "postgres" (storeWith 0 None)) clock0 "id"
              "PK_GENERATE(mid)" Hsize Hid ltac:(vm_compute; reflexivity))
    as (Hgen & _ & _ & _ & Hin & _).
  exact (conj Hsize (conj Hid (conj Hgen Hin))).
Defined.

End Examples.
(* ================================================================= *)
(** ** More about the row compiler *)

Section CompiledRows.

(** X1: every statement built from a compiled row has as many placeholders as
    columns and as arguments: the INSERT of the generated path, the INSERT
    of the checked path, and the UPDATE with its WHERE clause. *)
Theorem placeholders_match_arguments flag row clk driver
    (pks : gmap string value) :
  let r := (Init flag row clk).1 in
  (length (GetInsertPlaceholders r driver) = length (GetInsertColumns r)
   /\ length (GetInsertValues r pks) = length (GetInsertColumns r))
  /\ (length (GetPKAndInsertPlaceholders r driver)
      = length (GetPKAndInsertColumns r)
      /\ length (GetPKAndInsertValues r pks)
         = length (GetPKAndInsertColumns r))
  /\ (length (GetUpdatePlaceholders r driver) = length (GetUpdateValues r pks)
      /\ length (pkColumns r) = length (GetPKValues r pks)
      /\ length (pkColumns r) = size (PK row)).
Proof.
  intros r.
  destruct (Init_spec flag row clk) as (_ & HP & _ & _ & _ & _ & _ & Hi2 & Hu2).
  destruct (Init_pk_lengths flag row clk) as [Hl1 Hl2].
  fold r in HP, Hi2, Hu2, Hl1, Hl2.
  apply Forall2_length in Hi2, Hu2.
  unfold GetInsertPlaceholders, GetInsertColumns, GetInsertValues,
    GetPKAndInsertPlaceholders, GetPKAndInsertColumns, GetPKAndInsertValues,
    GetUpdatePlaceholders, GetUpdateColumns, GetUpdateValues, GetPKValues.
  rewrite length_imap, !length_app, !length_map, !length_seq.
  rewrite <- HP. repeat split; lia.
Qed.

Lemma sorted_keys_NoDup (m : gmap string value) :
  NoDup (sort_Strings (keys m)).
Proof. rewrite sort_Strings_perm. apply NoDup_fst_map_to_list. Qed.

Lemma filter_NoDup (P : string -> bool) l : NoDup l -> NoDup (List.filter P l).
Proof.
  intros H. apply NoDup_ListNoDup. apply List.NoDup_filter.
  by apply NoDup_ListNoDup.
Qed.

(** X2: no column is listed twice: the primary-key columns are the keys of
    the primary-key spec, each once; the insert and the update columns are
    field keys, each at most once; and every field has an insert or an
    update column. *)
Theorem columns_are_distinct_keys flag row clk :
  let r := (Init flag row clk).1 in
  NoDup (pkColumns r) /\ NoDup (insertColumns r) /\ NoDup (updateColumns r)
  /\ (forall k, In k (pkColumns r) <-> is_Some (PK row !! k))
  /\ (forall k, In k (insertColumns r) -> is_Some (Fields row !! k))
  /\ (forall k, In k (updateColumns r) -> is_Some (Fields row !! k))
  /\ (forall k, is_Some (Fields row !! k) ->
                In k (insertColumns r) \/ In k (updateColumns r)).
Proof.
  intros r.
  destruct (Init_spec flag row clk) as (_ & _ & _ & HpC & _ & HiC & HuC & _).
  fold r in HpC, HiC, HuC. rewrite HpC, HiC, HuC.
  split; [apply sorted_keys_NoDup |].
  split; [apply filter_NoDup, sorted_keys_NoDup |].
  split; [apply filter_NoDup, sorted_keys_NoDup |].
  split; [| split; [| split]].
  - intros k. rewrite <- list_elem_of_In. apply elem_of_sorted_keys.
  - intros k Hin. apply List.filter_In in Hin as [Hin _].
    by apply list_elem_of_In, elem_of_sorted_keys in Hin.
  - intros k Hin. apply List.filter_In in Hin as [Hin _].
    by apply list_elem_of_In, elem_of_sorted_keys in Hin.
  - intros k Hk. apply elem_of_sorted_keys, list_elem_of_In in Hk.
    destruct (isString (index (Fields row) k) onUpdateNow) eqn:Eu.
    + right. apply List.filter_In. split; [done |]. unfold updatesField.
      destruct (isString (index (Fields row) k) onInsertNow) eqn:Ei;
        [| done].
      apply isString_exclusive in Ei. congruence.
    + left. apply List.filter_In. split; [done |]. unfold insertsField.
      by rewrite Eu.
Qed.

(** X3: the order in which a Go [range] visits the keys of a map does not
    matter: sorting any arrangement of the keys gives the column order
    [Init] uses. *)
Theorem column_order_independent_of_map_iteration
    (m : gmap string value) (visited : list string) :
  visited ≡ₚ keys m ->
  sort_Strings visited = sort_Strings (keys m).
Proof.
  intros Hperm. apply (Sorted_unique str_le).
  - apply Sorted_merge_sort. apply _.
  - apply Sorted_merge_sort. apply _.
  - by rewrite !sort_Strings_perm.
Qed.

End CompiledRows.
(* ================================================================= *)
(** ** Panics of the loop *)

Section Panics.

Context {DB : Type}.
Variable conn : Handle DB.

Lemma fixupOutcome_no_panic i table s : fixupOutcome conn i table s <> Panic.
Proof.
  unfold fixupOutcome.
  destruct (QueryRowScanName conn _ _ s) as [s1 [err | [seq |]]]; try done.
  by destruct (Exec conn _ _ s1) as [s2 [err | res]].
Qed.

Lemma pkKeys_nonempty row : PK row <> ∅ -> pkKeys row <> [].
Proof.
  intros Hne Hnil. apply Hne. apply map_size_empty_iff.
  rewrite <- keys_length, <- (sort_Strings_length (keys (PK row))).
  fold (pkKeys row). by rewrite Hnil.
Qed.

(** With the registry allocated, as every context of [Load], [LoadFile] and
    [LoadFiles] has it, the only index an iteration can take out of range
    is the first column of the INSERT after the existence check. *)
Lemma loadRow_no_panic i row ctx clk :
  PK row <> ∅ \/ isPostgres (Driver ctx) = false ->
  (loadRow conn i row (ctx, clk)).2 <> Panic.
Proof.
  intros Hsafe.
  set (flag := SetUpdatedAtOnInsert ctx).
  set (row1 := (Init flag row clk).1).
  destruct (Init_spec flag row clk)
    as (HT & HP & HF & HpC & HpV & HiC & HuC & Hi2 & Hu2).
  destruct (Init_pk_lengths flag row clk) as [Hl1 Hl2].
  fold row1 in HT, HP, HF, HpC, HpV, HiC, HuC, Hi2, Hu2, Hl1, Hl2.
  pose proof (GetWhere_Init flag row clk (Driver ctx)) as Hw.
  fold row1 in Hw.
  destruct (generatorOf (GetPKValues row1 (primaryKeys ctx))) as [name |]
    eqn:Hgen.
  - rewrite loadRow_outcome. fold flag row1.
    rewrite (loadCompiled_generated _ _ _ _ name) by done.
    apply generatorOf_length in Hgen. apply (f_equal length) in Hgen.
    unfold GetPKValues in Hgen. rewrite length_map, Hl2 in Hgen.
    unfold generatedInsert, GetPKColumns.
    destruct (pkColumns row1) as [| c cs]; [done |].
    destruct (String.eqb "postgres" (Driver ctx)).
    + by destruct (QueryRowScanInt conn _ _ (Db ctx)) as [s1 [err | pk]].
    + by destruct (Exec conn _ _ (Db ctx)) as [s1 [err | [[err | pk]]]].
  - rewrite checked_outcome by done. fold flag row1.
    destruct (QueryRowScanInt conn _ _ (Db ctx)) as [s1 [err | count]];
      [done |].
    destruct (count =? 0)%Z.
    + rewrite insertRow_outcome. cbn [Db Driver withDb].
      destruct (Exec conn _ _ s1) as [s2 [err | res]]; [done |].
      destruct (isPostgres (Driver ctx)) eqn:Hpg; [| done].
      destruct Hsafe as [Hpk | Hoff]; [| done].
      apply pkKeys_nonempty in Hpk.
      unfold GetPKAndInsertColumns. rewrite HpC.
      destruct (pkKeys row) as [| c cs]; [done |]. cbn [List.map app].
      destruct (String.eqb _ _); [apply fixupOutcome_no_panic | done].
    + destruct (updateColumns row1) as [| u us] eqn:Hus; [done |].
      cbn [length Nat.ltb Nat.leb].
      rewrite updateRow_outcome
        by (cbn [Driver withDb]; rewrite updateColumnsLength; apply Hw).
      cbn [Db Driver withDb].
      destruct (Exec conn _ _ s1) as [s2 [err | res]]; [done |].
      destruct (isPostgres (Driver ctx)); [| done].
      unfold GetUpdateColumns. rewrite Hus. cbn [List.map].
      destruct (String.eqb _ _); [apply fixupOutcome_no_panic | done].
Qed.

(** X5: on postgres a row without a primary key and without an insert column
    panics after its INSERT: when the existence check counts 0 and the
    INSERT is accepted, the first column of an empty column list is
    read. *)
Theorem row_without_columns_panics_on_postgres i row ctx clk s1 s2 res :
  let flag := SetUpdatedAtOnInsert ctx in
  let row1 := (Init flag row clk).1 in
  PK row = ∅ ->
  insertKeys flag row = [] ->
  isPostgres (Driver ctx) = true ->
  QueryRowScanInt conn (queryOf (checkCall row1 ctx)) [] (Db ctx)
  = (s1, inr 0%Z) ->
  Exec conn (queryOf (insertCall row1 ctx)) [] s1 = (s2, inr res) ->
  argsOf (checkCall row1 ctx) = []
  /\ argsOf (insertCall row1 ctx) = []
  /\ GetPKAndInsertColumns row1 = []
  /\ rowCalls conn i row ctx clk = [checkCall row1 ctx; insertCall row1 ctx]
  /\ (loadRow conn i row (ctx, clk)).2 = Panic.
Proof.
  intros flag row1 Hpk Hins Hpg Hcount Hexec.
  destruct (Init_spec flag row clk)
    as (HT & HP & HF & HpC & HpV & HiC & HuC & Hi2 & Hu2).
  fold row1 in HT, HP, HF, HpC, HpV, HiC, HuC, Hi2, Hu2.
  fold (insertKeys flag row) in HiC.
  assert (pkKeys row = []) as Hkeys.
  { apply length_zero_iff_nil. unfold pkKeys.
    by rewrite sort_Strings_length, keys_length, Hpk. }
  rewrite Hkeys in HpC, HpV. cbn [List.map] in HpV.
  rewrite Hins in HiC. rewrite HiC in Hi2. apply Forall2_nil_inv_l in Hi2.
  assert (argsOf (checkCall row1 ctx) = []) as Ha1
    by (unfold checkCall, GetPKValues; cbn [argsOf]; by rewrite HpV).
  assert (argsOf (insertCall row1 ctx) = []) as Ha2.
  { unfold insertCall, GetPKAndInsertValues. cbn [argsOf].
    by rewrite HpV, Hi2. }
  assert (GetPKAndInsertColumns row1 = []) as Hcols
    by (unfold GetPKAndInsertColumns; by rewrite HpC, HiC).
  assert (generatorOf (GetPKValues row1 (primaryKeys ctx)) = None) as Hgen
    by (unfold GetPKValues; by rewrite HpV).
  split; [done |]. split; [done |]. split; [done |]. split.
  - rewrite checked_rowCalls by done. fold flag row1.
    rewrite Ha1, Hcount. cbn [Z.eqb]. rewrite Ha2, Hexec, Hcols.
    by rewrite andb_false_r.
  - rewrite checked_outcome by done. fold flag row1.
    rewrite Ha1, Hcount. cbn [Z.eqb]. rewrite insertRow_outcome.
    cbn [Db Driver withDb].
    change (insertCall row1 (withDb ctx s1)) with (insertCall row1 ctx).
    by rewrite Ha2, Hexec, Hpg, Hcols.
Qed.

(** An iteration leaves the driver of the context alone. *)
Lemma loadCompiled_driver i row ctx :
  Driver (loadCompiled conn i row ctx).1 = Driver ctx.
Proof.
  unfold loadCompiled, generatedInsert, checkedWrite, insertRow, updateRow,
    fixSequence.
  repeat (case_match; cbn [fst snd Driver withDb withKey]); done.
Qed.

Lemma loadRows_no_panic rows : forall i ctx clk,
  Forall (fun row => PK row <> ∅) rows \/ isPostgres (Driver ctx) = false ->
  (loadRows conn i rows (ctx, clk)).2 <> Panic.
Proof.
  induction rows as [| row rows IH]; intros i ctx clk Hsafe; [done |].
  cbn [loadRows].
  assert (PK row <> ∅ \/ isPostgres (Driver ctx) = false) as Hrow.
  { destruct Hsafe as [Hall | Hoff]; [left | by right].
    by apply Forall_cons in Hall as [? _]. }
  pose proof (loadRow_no_panic i row ctx clk Hrow) as Hout.
  pose proof (loadRow_context conn i row ctx clk) as Hctx.
  destruct (loadRow conn i row (ctx, clk)) as [[ctx1 clk1] [| e |]];
    [| done | done].
  apply IH. cbn [fst] in Hctx. rewrite Hctx, loadCompiled_driver.
  destruct Hsafe as [Hall | Hoff]; [left | by right].
  by apply Forall_cons in Hall as [_ ?].
Qed.

End Panics.

Section EntryPanics.

Context {DB : Type}.
Variable db : Database DB.
Variable Unmarshal : string -> string + list Row.
Variable ReadFile : string -> string + string.
Variable globals : Globals.

Lemma LoadWithContext_no_panic ctx data clk :
  (forall rows, Unmarshal data = inr rows ->
                Forall (fun row => PK row <> ∅) rows)
  \/ isPostgres (Driver ctx) = false ->
  (LoadWithContext (Tx db) Unmarshal ctx data clk).2 <> Panic.
Proof.
  intros Hsafe. unfold LoadWithContext.
  destruct (Unmarshal data) as [err | rows]; [done |].
  apply loadRows_no_panic.
  destruct Hsafe as [Hall | Hoff]; [left; by apply Hall | by right].
Qed.

Lemma LoadWithContext_driver ctx data clk :
  Driver (LoadWithContext (Tx db) Unmarshal ctx data clk).1.1 = Driver ctx.
Proof.
  unfold LoadWithContext.
  destruct (Unmarshal data) as [err | rows]; [done |].
  generalize 0. revert ctx clk.
  induction rows as [| row rows IH]; intros ctx clk i; [done |].
  cbn [loadRows].
  pose proof (loadRow_context (Tx db) i row ctx clk) as Hctx.
  destruct (loadRow (Tx db) i row (ctx, clk)) as [[ctx1 clk1] [| e |]];
    cbn [fst] in Hctx |- *; try (by rewrite Hctx, loadCompiled_driver).
  by rewrite IH, Hctx, loadCompiled_driver.
Qed.

Lemma loadFiles_no_panic filenames : forall ctx clk,
  (forall filename data rows,
     In filename filenames -> ReadFile filename = inr data ->
     Unmarshal data = inr rows -> Forall (fun row => PK row <> ∅) rows)
  \/ isPostgres (Driver ctx) = false ->
  (loadFiles db Unmarshal ReadFile filenames (ctx, clk)).2 <> Panic.
Proof.
  induction filenames as [| f rest IH]; intros ctx clk Hsafe; [done |].
  cbn [loadFiles fst snd].
  destruct (ReadFile f) as [err | data] eqn:Hread; [done |].
  assert ((LoadWithContext (Tx db) Unmarshal ctx data clk).2 <> Panic)
    as Hout.
  { apply LoadWithContext_no_panic.
    destruct Hsafe as [Hall | Hoff]; [left | by right].
    intros rows Hrows. apply (Hall f data rows); [by left | done | done]. }
  pose proof (LoadWithContext_driver ctx data clk) as Hdrv.
  destruct (LoadWithContext (Tx db) Unmarshal ctx data clk)
    as [[ctx1 clk1] [| e |]]; [| done | done].
  apply IH. cbn [fst] in Hdrv. rewrite Hdrv.
  destruct Hsafe as [Hall | Hoff]; [left | by right].
  intros g gdata rows Hin. apply Hall. by right.
Qed.

Lemma finish_no_panic (r : (Context DB * Clock) * outcome) :
  r.2 <> Panic -> (deferredRollback db (commitOrReturn db r)).2 <> Panic.
Proof.
  destruct r as [[ctx clk] [| e |]]; intros Hout; cbn; [| done | done].
  by destruct (Commit db (Db ctx)) as [s [err |]].
Qed.

(** X4: in [Load], [LoadFile] and [LoadFiles], which allocate the registry
    of their context themselves, the only index the row loop can take out
    of range is the first column of the INSERT after the existence check:
    no index is out of range when every row of the documents has a primary
    key, and none on a driver other than postgres. *)
Theorem loads_panic_only_without_columns driver st :
  (forall data,
     (forall rows, Unmarshal data = inr rows ->
                   Forall (fun row => PK row <> ∅) rows)
     \/ isPostgres driver = false ->
     (Load db Unmarshal globals data driver st).2 <> Panic)
  /\ (forall filename,
        (forall data rows,
           ReadFile filename = inr data -> Unmarshal data = inr rows ->
           Forall (fun row => PK row <> ∅) rows)
        \/ isPostgres driver = false ->
        (LoadFile db Unmarshal ReadFile globals filename driver st).2
        <> Panic)
  /\ (forall filenames,
        (forall filename data rows,
           In filename filenames -> ReadFile filename = inr data ->
           Unmarshal data = inr rows ->
           Forall (fun row => PK row <> ∅) rows)
        \/ isPostgres driver = false ->
        (LoadFiles db Unmarshal ReadFile globals filenames driver st).2
        <> Panic).
Proof.
  destruct st as [s clk].
  assert (forall data,
            (forall rows, Unmarshal data = inr rows ->
                          Forall (fun row => PK row <> ∅) rows)
            \/ isPostgres driver = false ->
            (Load db Unmarshal globals data driver (s, clk)).2 <> Panic)
    as HLoad.
  { intros data Hsafe. unfold Load.
    destruct (Begin db s) as [s1 [err |]]; [done |].
    apply finish_no_panic, LoadWithContext_no_panic. exact Hsafe. }
  split; [exact HLoad | split].
  - intros filename Hsafe. unfold LoadFile.
    destruct (ReadFile filename) as [err | data] eqn:Hread; [done |].
    apply HLoad.
    destruct Hsafe as [Hall | Hoff]; [left | by right].
    intros rows Hrows. by apply (Hall data rows).
  - intros filenames Hsafe. unfold LoadFiles.
    destruct (Begin db s) as [s1 [err |]]; [done |].
    apply finish_no_panic, loadFiles_no_panic. exact Hsafe.
Qed.

End EntryPanics.

(* ================================================================= *)
(** ** The registry along the rows *)

Section RegistryFlow.

Context {DB : Type}.
Variable conn : Handle DB.

(** The result of a row on the generated path, read off the answer of the
    database. *)
Lemma generated_result i row ctx clk name :
  let row1 := (Init (SetUpdatedAtOnInsert ctx) row clk).1 in
  let result := loadRow conn i row (ctx, clk) in
  generatorOf (GetPKValues row1 (primaryKeys ctx)) = Some name ->
  match generatedAnswer conn row1 ctx with
  | (s1, inr pk) =>
      result.2 = Success
      /\ result.1.1 = withKey (withDb ctx s1) name pk
  | (s1, inl err) =>
      result.2 = Failure (NewProcessingError (i + 1) err)
      /\ result.1.1 = withDb ctx s1
  end.
Proof.
  intros row1 result Hgen.
  destruct (Init_pk_lengths (SetUpdatedAtOnInsert ctx) row clk) as [_ Hl2].
  fold row1 in Hl2.
  unfold result. rewrite loadRow_outcome, loadRow_context. fold row1.
  rewrite (loadCompiled_generated _ _ _ _ name) by done.
  apply generatorOf_length in Hgen. apply (f_equal length) in Hgen.
  unfold GetPKValues in Hgen. rewrite length_map, Hl2 in Hgen.
  unfold generatedAnswer, generatedCall, generatedInsert, GetPKColumns.
  destruct (pkColumns row1) as [| c cs]; [done |]. cbn [hd].
  destruct (String.eqb "postgres" (Driver ctx)); cbn [queryOf argsOf].
  - by destruct (QueryRowScanInt conn _ _ (Db ctx)) as [s1 [err | pk]].
  - by destruct (Exec conn _ _ (Db ctx)) as [s1 [err | [[err | pk]]]].
Qed.

Lemma resolved_reference_at (pks : gmap string value) name v
    (l : list value) j :
  pks !! name = Some v ->
  l !! j = Some (VRef name) ->
  List.map (resolve pks) l !! j = Some v.
Proof.
  intros Hv Hj. change (List.map ?f ?l) with (f <$> l).
  rewrite list_lookup_fmap, Hj. cbn. unfold Get, index. by rewrite Hv.
Qed.

(** X6: a reference to a name that is in the registry binds the value stored
    under it, in the primary-key values and in the insert and update
    values. *)
Theorem reference_binds_written_key flag row clk (pks : gmap string value)
    k inner v :
  let r := (Init flag row clk).1 in
  let sv := onPKReferencePrefix +:+ inner +:+ onPKReferenceSuffix in
  pks !! TrimSpace inner = Some v ->
  (PK row !! k = Some (VStr sv) ->
   forall j, pkColumns r !! j = Some k ->
             GetPKValues r pks !! j = Some v
             /\ GetPKAndInsertValues r pks !! j = Some v)
  /\ (Fields row !! k = Some (VStr sv) ->
      (forall j, insertColumns r !! j = Some k ->
                 GetInsertValues r pks !! j = Some v
                 /\ GetPKAndInsertValues r pks !! (length (pkValues r) + j)
                    = Some v)
      /\ (forall j, updateColumns r !! j = Some k ->
                    GetUpdateValues r pks !! j = Some v)).
Proof.
  intros r sv Hv. split.
  - intros Hk j Hj.
    pose proof (compiled_reference_pk flag row clk k inner j Hk Hj) as Hp.
    fold r in Hp.
    split; [by apply (resolved_reference_at pks _ v _ j Hv) |].
    unfold GetPKAndInsertValues. apply lookup_app_l_Some.
    by apply (resolved_reference_at pks _ v _ j Hv).
  - intros Hk.
    destruct (compiled_reference_field flag row clk k inner Hk)
      as (_ & _ & H3 & H4).
    fold r in H3, H4. split.
    + intros j Hj. split.
      * apply (resolved_reference_at pks _ v _ j Hv). by apply H3.
      * unfold GetPKAndInsertValues.
        rewrite lookup_app_r by (rewrite length_map; lia).
        rewrite length_map.
        replace (length (pkValues r) + j - length (pkValues r)) with j
          by lia.
        apply (resolved_reference_at pks _ v _ j Hv). by apply H3.
    + intros j Hj. apply (resolved_reference_at pks _ v _ j Hv).
      by apply H4.
Qed.

(** X7: the key a generated insert obtains is the value a reference to the
    same name binds in the row that follows. *)
Theorem generated_key_reaches_next_row i row row' ctx clk k inner :
  let flag := SetUpdatedAtOnInsert ctx in
  let row1 := (Init flag row clk).1 in
  let result := loadRow conn i row (ctx, clk) in
  let r' := (Init (SetUpdatedAtOnInsert result.1.1) row' result.1.2).1 in
  let pks' := primaryKeys result.1.1 in
  generatorOf (GetPKValues row1 (primaryKeys ctx)) = Some (TrimSpace inner) ->
  result.2 = Success ->
  Fields row' !! k
  = Some (VStr (onPKReferencePrefix +:+ inner +:+ onPKReferenceSuffix)) ->
  exists s1 pk,
    generatedAnswer conn row1 ctx = (s1, inr pk)
    /\ pks' !! TrimSpace inner = Some (VInt pk)
    /\ In k (insertColumns r')
    /\ (forall j, insertColumns r' !! j = Some k ->
                  GetInsertValues r' pks' !! j = Some (VInt pk)
                  /\ GetPKAndInsertValues r' pks' !! (length (pkValues r') + j)
                     = Some (VInt pk))
    /\ (forall j, updateColumns r' !! j = Some k ->
                  GetUpdateValues r' pks' !! j = Some (VInt pk)).
Proof.
  intros flag row1 result r' pks' Hgen Hok Hk.
  pose proof (generated_result i row ctx clk _ Hgen) as Hres.
  fold flag row1 result in Hres.
  destruct (generatedAnswer conn row1 ctx) as [s1 [err | pk]].
  { destruct Hres as [Hout _]. congruence. }
  destruct Hres as [_ Hctx].
  assert (pks' !! TrimSpace inner = Some (VInt pk)) as Hpk.
  { unfold pks'. rewrite Hctx. cbn [primaryKeys withKey Set_].
    apply lookup_insert_eq. }
  destruct (compiled_reference_field (SetUpdatedAtOnInsert result.1.1) row'
              result.1.2 k inner Hk) as (Hin & _ & H3 & H4).
  fold r' in Hin, H3, H4.
  exists s1, pk. split; [done |]. split; [done |]. split; [done |]. split.
  - intros j Hj. split.
    + apply (resolved_reference_at pks' _ _ _ j Hpk). by apply H3.
    + unfold GetPKAndInsertValues.
      rewrite lookup_app_r by (rewrite length_map; lia).
      rewrite length_map.
      replace (length (pkValues r') + j - length (pkValues r')) with j
        by lia.
      apply (resolved_reference_at pks' _ _ _ j Hpk). by apply H3.
  - intros j Hj. apply (resolved_reference_at pks' _ _ _ j Hpk).
    by apply H4.
Qed.

(** X8: a row on the checked path leaves the registry as it was, and no row
    of a batch removes a key from it. *)
Theorem registry_changes_only_by_generators i row rows ctx clk name :
  let row1 := (Init (SetUpdatedAtOnInsert ctx) row clk).1 in
  (generatorOf (GetPKValues row1 (primaryKeys ctx)) = None ->
   primaryKeys (loadRow conn i row (ctx, clk)).1.1 = primaryKeys ctx)
  /\ (is_Some (primaryKeys ctx !! name) ->
      is_Some (primaryKeys (loadRows conn i rows (ctx, clk)).1.1 !! name)).
Proof.
  intros row1. split.
  - intros Hgen. rewrite loadRow_context. fold row1.
    rewrite loadCompiled_checked by done.
    unfold checkedWrite, insertRow, updateRow, fixSequence.
    destruct (GetWhere row1 (Driver ctx) 0); [| done].
    destruct (QueryRowScanInt conn _ _ (Db ctx)) as [s1 [err | count]];
      [done |].
    destruct (count =? 0)%Z.
    + destruct (Exec conn _ _ _) as [s2 [err | res]]; [done |].
      cbn [Driver withDb]. destruct (String.eqb (Driver ctx) postgresDriver);
        [| done].
      destruct (GetPKAndInsertColumns row1) as [| c cs]; [done |].
      destruct (String.eqb c (quoted "id")); [| done].
      by destruct (fixPostgresPKSequence conn _ _ _) as [s3 [err |]].
    + destruct (0 <? GetUpdateColumnsLength row1)%nat; [| done].
      cbn [Driver withDb].
      destruct (GetWhere row1 (Driver ctx) _); [| done].
      destruct (Exec conn _ _ _) as [s2 [err | res]]; [done |].
      cbn [Driver withDb]. destruct (String.eqb (Driver ctx) postgresDriver);
        [| done].
      destruct (GetUpdateColumns row1) as [| c cs]; [done |].
      destruct (String.eqb c (quoted "id")); [| done].
      by destruct (fixPostgresPKSequence conn _ _ _) as [s3 [err |]].
  - apply (loadRows_registry conn rows name i (ctx, clk)).
Qed.

End RegistryFlow.
(* ================================================================= *)
(** ** More about the entry points *)

Section EntryPointFacts.

Context {DB : Type}.
Variable db : Database DB.
Variable Unmarshal : string -> string + list Row.
Variable ReadFile : string -> string + string.
Variable globals : Globals.

(** X9: a load whose rows all succeed commits once, after the last statement,
    and returns what the commit returns; so do the files of a batch. *)
Theorem successful_load_commits_once :
  (forall data driver s clk s1 rows st2,
     Begin db s = (s1, None) ->
     Unmarshal data = inr rows ->
     loadRows (Tx (recordDatabase db)) 0 rows
       (newContext globals (s1, [BeginCall]) driver, clk) = (st2, Success) ->
     let run :=
       Load (recordDatabase db) Unmarshal globals data driver
         ((s, []), clk) in
     run.2 = match (Commit db (Db st2.1).1).2 with
             | None => Success
             | Some err => Failure err
             end
     /\ exists stmts,
          run.1.1.2 = (BeginCall :: stmts ++ [CommitCall; RollbackCall])%list
          /\ Forall (fun c => isStatement c = true) stmts)
  /\ (forall filenames driver s clk s1 st2,
        Begin db s = (s1, None) ->
        loadFiles (recordDatabase db) Unmarshal ReadFile filenames
          (newContext globals (s1, [BeginCall]) driver, clk)
        = (st2, Success) ->
        let run :=
          LoadFiles (recordDatabase db) Unmarshal ReadFile globals filenames
            driver ((s, []), clk) in
        run.2 = match (Commit db (Db st2.1).1).2 with
                | None => Success
                | Some err => Failure err
                end
        /\ exists stmts,
             run.1.1.2
             = (BeginCall :: stmts ++ [CommitCall; RollbackCall])%list
             /\ Forall (fun c => isStatement c = true) stmts).
Proof.
  assert (forall driver (s1 : DB), openLog
            (Db (newContext globals (s1, [BeginCall]) driver))) as Hstart.
  { intros driver s1. exists []. by split. }
  destruct (openLog_keeps db) as (K1 & K2 & K3).
  assert (forall (st2 : Context (DB * list call) * Clock),
            openLog (Db st2.1) ->
            let end_ :=
              deferredRollback (recordDatabase db)
                (commitOrReturn (recordDatabase db) (st2, Success)) in
            end_.2 = match (Commit db (Db st2.1).1).2 with
                     | None => Success
                     | Some err => Failure err
                     end
            /\ exists stmts,
                 end_.1.1.2
                 = (BeginCall :: stmts ++ [CommitCall; RollbackCall])%list
                 /\ Forall (fun c => isStatement c = true) stmts) as Hend.
  { intros [ctx clk] (stmts & Hlog & Hall). cbn [fst snd] in *.
    unfold deferredRollback, commitOrReturn.
    cbn [Commit Rollback recordDatabase logged fst snd].
    destruct (Commit db (Db ctx).1) as [s3 [err |]]; cbn [fst snd];
      rewrite Hlog; (split; [done |]); exists stmts;
      by rewrite <- app_assoc. }
  split.
  - intros data driver s clk s1 rows st2 Hbegin Hdata Hrun.
    pose proof (loadRows_keeps (Tx (recordDatabase db)) openLog K1 K2 K3
                  rows 0 (newContext globals (s1, [BeginCall]) driver, clk)
                  (Hstart driver s1)) as Hkeep.
    rewrite Hrun in Hkeep.
    unfold Load, LoadWithContext. cbn [Begin recordDatabase logged fst snd].
    rewrite Hbegin. cbn [fst snd app]. rewrite Hdata.
    change (recordHandle (Tx db)) with (Tx (recordDatabase db)).
    rewrite Hrun. by apply Hend.
  - intros filenames driver s clk s1 st2 Hbegin Hrun.
    pose proof (loadFiles_keeps (recordDatabase db) Unmarshal ReadFile
                  openLog K1 K2 K3 filenames
                  (newContext globals (s1, [BeginCall]) driver, clk)
                  (Hstart driver s1)) as Hkeep.
    rewrite Hrun in Hkeep.
    unfold LoadFiles. cbn [Begin recordDatabase logged fst snd].
    rewrite Hbegin. cbn [fst snd app]. rewrite Hrun. by apply Hend.
Qed.

(** X10: before the first row: when the transaction cannot be opened nothing
    else is called; on a document that does not decode the context-based
    [Load] has already opened its transaction and rolls it back, while
    the earlier [Load] returns before it opens one. Both return the
    decoder's error as it is. *)
Theorem load_before_the_first_row data driver s clk :
  let run :=
    Load (recordDatabase db) Unmarshal globals data driver ((s, []), clk) in
  (forall s1 err,
     Begin db s = (s1, Some err) ->
     run = (((s1, [BeginCall]), clk), Failure err))
  /\ (forall s1 err,
        Begin db s = (s1, None) ->
        Unmarshal data = inl err ->
        run = ((((Rollback db s1).1, [BeginCall; RollbackCall]), clk),
               Failure err))
  /\ (forall err dump flag,
        Unmarshal data = inl err ->
        Legacy.Load (recordDatabase db) Unmarshal dump flag data driver
          ((s, []), clk)
        = (((s, []), clk), Failure err)).
Proof.
  intros run. split; [| split].
  - intros s1 err Hbegin. unfold run, Load.
    cbn [Begin recordDatabase logged fst snd]. by rewrite Hbegin.
  - intros s1 err Hbegin Hdata. unfold run, Load, LoadWithContext.
    cbn [Begin recordDatabase logged fst snd]. rewrite Hbegin.
    cbn [fst snd app]. by rewrite Hdata.
  - intros err dump flag Hdata. unfold Legacy.Load. by rewrite Hdata.
Qed.

(** X11: a file that cannot be read: [LoadFile] returns the file error with
    the file name and calls nothing; inside a batch the files after it
    are not read, nothing is committed and the transaction is rolled
    back. *)
Theorem unreadable_file_stops_the_load filename err driver s clk :
  ReadFile filename = inl err ->
  LoadFile (recordDatabase db) Unmarshal ReadFile globals filename driver
    ((s, []), clk)
  = (((s, []), clk), Failure (NewFileError filename err))
  /\ (forall dump flag,
        Legacy.LoadFile (recordDatabase db) Unmarshal ReadFile dump flag
          filename driver ((s, []), clk)
        = (((s, []), clk), Failure (NewFileError filename err)))
  /\ (forall pre post s1 st1,
        Begin db s = (s1, None) ->
        loadFiles (recordDatabase db) Unmarshal ReadFile pre
          (newContext globals (s1, [BeginCall]) driver, clk)
        = (st1, Success) ->
        let run :=
          LoadFiles (recordDatabase db) Unmarshal ReadFile globals
            (pre ++ filename :: post) driver ((s, []), clk) in
        run.2 = Failure (NewFileError filename err)
        /\ run.1.1.1 = (Rollback db (Db st1.1).1).1
        /\ run.1.1.2 = ((Db st1.1).2 ++ [RollbackCall])%list
        /\ ~ In CommitCall run.1.1.2).
Proof.
  intros Hfile. split; [| split].
  - unfold LoadFile. by rewrite Hfile.
  - intros dump flag. unfold Legacy.LoadFile. by rewrite Hfile.
  - intros pre post s1 st1 Hbegin Hpre run.
    assert (loadFiles (recordDatabase db) Unmarshal ReadFile
              (pre ++ filename :: post)
              (newContext globals (s1, [BeginCall]) driver, clk)
            = (st1, Failure (NewFileError filename err))) as Hrun.
    { clear run. revert Hpre.
      generalize (newContext globals (s1, [BeginCall]) driver, clk).
      induction pre as [| g pre IH]; intros st Hpre.
      - injection Hpre as ->. cbn [app loadFiles]. by rewrite Hfile.
      - cbn [app loadFiles] in Hpre |- *.
        destruct (ReadFile g) as [e | gdata]; [done |].
        destruct (LoadWithContext _ Unmarshal st.1 gdata st.2)
          as [st' [| e |]]; try done.
        by apply IH. }
    destruct (openLog_keeps db) as (K1 & K2 & K3).
    pose proof (loadFiles_keeps (recordDatabase db) Unmarshal ReadFile
                  openLog K1 K2 K3 pre
                  (newContext globals (s1, [BeginCall]) driver, clk)) as Hkeep.
    rewrite Hpre in Hkeep. destruct Hkeep as (stmts & Hlog & Hall).
    { exists []. by split. }
    cbn [fst snd] in Hlog.
    unfold run, LoadFiles. cbn [Begin recordDatabase logged fst snd].
    rewrite Hbegin. cbn [fst snd app]. rewrite Hrun.
    destruct st1 as [ctx1 clk1].
    cbn [commitOrReturn deferredRollback Rollback recordDatabase logged
         fst snd].
    repeat split; try done. cbn [fst snd] in Hlog. rewrite Hlog.
    intros Hin. apply in_app_or in Hin as [Hin | Hin].
    + destruct Hin as [Hin | Hin]; [done |].
      rewrite List.Forall_forall in Hall. by apply Hall in Hin.
    + by destruct Hin.
Qed.

End EntryPointFacts.
(* ================================================================= *)
(** ** The earlier entry points *)

Section LegacyFacts.

Context {DB C : Type}.
Variable db : Database DB.
Variable Unmarshal : string -> string + list Row.
Variable ReadFile : string -> string + string.
Variable dump flag : bool.
Variable committed : DB -> C.
Hypothesis begin_keeps : forall s, committed (Begin db s).1 = committed s.
Hypothesis query_int_keeps :
  forall q a s, committed (QueryRowScanInt (Tx db) q a s).1 = committed s.
Hypothesis query_name_keeps :
  forall q a s, committed (QueryRowScanName (Tx db) q a s).1 = committed s.
Hypothesis exec_keeps :
  forall q a s, committed (Exec (Tx db) q a s).1 = committed s.
Hypothesis rollback_keeps :
  forall s, committed (Rollback db s).1 = committed s.

Lemma legacy_LoadFiles_app pre rest driver : forall st,
  Legacy.LoadFiles db Unmarshal ReadFile dump flag (pre ++ rest) driver st
  = match Legacy.LoadFiles db Unmarshal ReadFile dump flag pre driver st with
    | (st1, Success) =>
        Legacy.LoadFiles db Unmarshal ReadFile dump flag rest driver st1
    | failed => failed
    end.
Proof.
  induction pre as [| f pre IH]; intros st; cbn [app Legacy.LoadFiles];
    [done |].
  by destruct (Legacy.LoadFile db Unmarshal ReadFile dump flag f driver st)
    as [st1 [| e |]].
Qed.

(** X12: the earlier [LoadFiles] ends one transaction per file: when a row of
    a later file fails, that file alone is rolled back, the files after
    it are not loaded, and the committed state is the one the files
    before it left. *)
Theorem legacy_LoadFiles_keeps_earlier_files
    pre f post driver st st1 data rows s1 st2 out :
  Legacy.LoadFiles db Unmarshal ReadFile dump flag pre driver st
  = (st1, Success) ->
  ReadFile f = inr data ->
  Unmarshal data = inr rows ->
  Begin db st1.1 = (s1, None) ->
  loadRows (Tx db) 0 rows (mkContext ∅ s1 driver dump flag, st1.2)
  = (st2, out) ->
  out <> Success ->
  let run :=
    Legacy.LoadFiles db Unmarshal ReadFile dump flag (pre ++ f :: post)
      driver st in
  run.2 = out
  /\ run.1.1 = (Rollback db (Db st2.1)).1
  /\ committed run.1.1 = committed st1.1.
Proof.
  intros Hpre Hfile Hdata Hbegin Hrun Hout run.
  assert (committed (Db st2.1) = committed st1.1) as Hkept.
  { pose proof (loadRows_keeps (Tx db)
                  (fun s => committed s = committed st1.1)) as Hkeep.
    specialize (Hkeep
                  ltac:(intros q a s Hs; cbv beta in *;
                        by rewrite query_int_keeps)
                  ltac:(intros q a s Hs; cbv beta in *;
                        by rewrite query_name_keeps)
                  ltac:(intros q a s Hs; cbv beta in *;
                        by rewrite exec_keeps)
                  rows 0 (mkContext ∅ s1 driver dump flag, st1.2)).
    rewrite Hrun in Hkeep. apply Hkeep. cbn [fst Db].
    by rewrite <- (begin_keeps st1.1), Hbegin. }
  unfold run. rewrite legacy_LoadFiles_app, Hpre.
  cbn [Legacy.LoadFiles]. unfold Legacy.LoadFile, Legacy.Load.
  rewrite Hfile. destruct st1 as [s0 clk0]. cbn [fst snd] in *.
  rewrite Hdata, Hbegin, Hrun.
  destruct st2 as [ctx2 clk2]. cbn [fst snd] in *.
  destruct out; [done | |];
    cbn [commitOrReturn deferredRollback fst snd];
    by rewrite rollback_keeps.
Qed.

End LegacyFacts.

(* ================================================================= *)
(** ** The first row compiler *)

Section FirstCompiler.

(** No string begins with both the generator prefix and the closing
    parenthesis. *)
Lemma RowV0_never_generator v : RowV0.isGenerator v = false.
Proof.
  destruct v as [| | | sv | | | |]; try done. cbn [RowV0.isGenerator].
  destruct (HasPrefix sv RowV0.onPKGeneratePrefix) eqn:Hp; [| done].
  apply HasPrefix_inv in Hp as [r ->]. by apply HasPrefix_head.
Qed.

Lemma RowV0_pk_loop ks : forall row,
  let r := fold_left RowV0.initPK ks row in
  Table r = Table row /\ PK r = PK row /\ Fields r = Fields row
  /\ pkColumns r = pkColumns row
  /\ pkValues r = (pkValues row ++ List.map (index (PK row)) ks)%list
  /\ insertColumns r = (insertColumns row ++ ks)%list
  /\ insertValues r = (insertValues row ++ List.map (index (PK row)) ks)%list
  /\ updateColumns r = updateColumns row
  /\ updateValues r = updateValues row.
Proof.
  induction ks as [| k ks IH]; intros row.
  - cbn. by rewrite !app_nil_r.
  - cbn [fold_left].
    assert (RowV0.initPK row k
            = appendInsert (RowV0.appendPK row (index (PK row) k)) k
                (index (PK row) k)) as ->
      by (unfold RowV0.initPK; by rewrite RowV0_never_generator).
    specialize (IH (appendInsert (RowV0.appendPK row (index (PK row) k)) k
                      (index (PK row) k))).
    cbv zeta in IH |- *.
    cbn [Table PK Fields pkColumns pkValues insertColumns insertValues
         updateColumns updateValues appendInsert RowV0.appendPK] in IH.
    destruct IH as (H1 & H2 & H3 & H4 & H5 & H6 & H7 & H8 & H9).
    cbn [List.map]. rewrite H5, H6, H7, <- !app_assoc. done.
Qed.

Lemma RowV0_field_loop flag ks : forall row clk,
  let r := (fold_left (RowV0.initField flag) ks (row, clk)).1 in
  pkColumns r = pkColumns row /\ pkValues r = pkValues row
  /\ exists cols vals,
       insertColumns r = (insertColumns row ++ cols)%list
       /\ insertValues r = (insertValues row ++ vals)%list
       /\ length cols = length vals
       /\ Forall (fun k => In k ks) cols.
Proof.
  induction ks as [| k ks IH]; intros row clk.
  - cbn. repeat split. exists [], []. by rewrite !app_nil_r.
  - cbn [fold_left].
    assert (exists row1 clk1 cols vals,
              RowV0.initField flag (row, clk) k = (row1, clk1)
              /\ pkColumns row1 = pkColumns row
              /\ pkValues row1 = pkValues row
              /\ insertColumns row1 = (insertColumns row ++ cols)%list
              /\ insertValues row1 = (insertValues row ++ vals)%list
              /\ length cols = length vals
              /\ Forall (fun x => x = k) cols) as Hstep.
    { unfold RowV0.initField.
      destruct (isString (index (Fields row) k) onInsertNow).
      { eexists _, _, [k], [_]. cbn. repeat split; by repeat constructor. }
      destruct (isString (index (Fields row) k) onUpdateNow).
      { destruct flag.
        - eexists _, _, [k], [_]. cbn. repeat split; by repeat constructor.
        - eexists _, _, [], []. cbn. rewrite !app_nil_r.
          repeat split; by repeat constructor. }
      eexists _, _, [k], [_]. cbn. repeat split; by repeat constructor. }
    destruct Hstep as (row1 & clk1 & cols & vals & -> & H1 & H2 & H3 & H4
                       & H5 & H6).
    destruct (IH row1 clk1) as (G1 & G2 & cols2 & vals2 & G3 & G4 & G5 & G6).
    split; [congruence |]. split; [congruence |].
    exists (cols ++ cols2)%list, (vals ++ vals2)%list.
    rewrite G3, G4, H3, H4, <- !app_assoc, !length_app.
    repeat split; try done; [lia |].
    apply Forall_app. split.
    + eapply Forall_impl; [exact H6 |]. intros x ->. by left.
    + eapply Forall_impl; [exact G6 |]. intros x Hx. by right.
Qed.

(** X13: in the first row compiler the test for a generator marker can never
    succeed, so no primary key is left to the database: every
    primary-key value is stored as it is decoded, and the insert columns
    and values begin with the sorted primary-key columns and their
    values, followed by field columns. Placeholders and values of the
    INSERT have the same number. *)
Theorem first_compiler_never_generates flag row clk driver
    (pks : gmap string value) :
  let r := (RowV0.Init flag row clk).1 in
  (forall v, RowV0.isGenerator v = false)
  /\ pkColumns r = pkKeys row
  /\ RowV0.GetPKValues r = List.map (index (PK row)) (pkKeys row)
  /\ (exists cols vals,
        insertColumns r = (pkKeys row ++ cols)%list
        /\ insertValues r
           = (List.map (index (PK row)) (pkKeys row) ++ vals)%list
        /\ length cols = length vals
        /\ Forall (fun k => is_Some (Fields row !! k)) cols)
  /\ length (RowV0.GetInsertPlaceholders r driver)
     = length (RowV0.GetInsertValues r pks).
Proof.
  intros r. unfold r, RowV0.Init.
  set (row0 := mkRow (Table row) (PK row) (Fields row)
                 (sort_Strings (keys (PK row))) [] [] [] [] []).
  destruct (RowV0_pk_loop (sort_Strings (keys (PK row))) row0)
    as (H1 & H2 & H3 & H4 & H5 & H6 & H7 & H8 & H9).
  destruct (RowV0_field_loop flag (sort_Strings (keys (Fields row)))
              (fold_left RowV0.initPK (sort_Strings (keys (PK row))) row0)
              clk)
    as (G1 & G2 & cols & vals & G3 & G4 & G5 & G6).
  subst row0.
  cbn [pkColumns pkValues insertColumns insertValues PK app] in *.
  fold (pkKeys row) in *.
  split; [apply RowV0_never_generator |].
  split; [by rewrite G1, H4 |].
  split; [unfold RowV0.GetPKValues; by rewrite G2, H5 |].
  split.
  - exists cols, vals. rewrite G3, G4, H6, H7. repeat split; try done.
    eapply Forall_impl; [exact G6 |]. intros k Hk.
    by apply list_elem_of_In, elem_of_sorted_keys in Hk.
  - unfold RowV0.GetInsertPlaceholders, RowV0.GetInsertColumnsLength,
      RowV0.GetInsertColumns, RowV0.GetInsertValues.
    rewrite !length_map, length_seq, G3, G4, H6, H7, !length_app, length_map.
    lia.
Qed.

End FirstCompiler.
(* ================================================================= *)
(** ** Statements on drivers other than postgres *)

Section OtherDrivers.

Context {DB : Type}.
Variable conn : Handle DB.

(** X14: on a driver other than postgres a row sends one statement on the
    generated path, an [Exec] whose key comes from the last insert id, and
    at most two on the checked path, the existence check and one INSERT or
    UPDATE; no sequence is looked up or set. *)
Theorem other_drivers_send_no_sequence_statement i row ctx clk :
  let row1 := (Init (SetUpdatedAtOnInsert ctx) row clk).1 in
  let calls := rowCalls conn i row ctx clk in
  isPostgres (Driver ctx) = false ->
  (calls = [generatedCall row1 ctx]
   /\ (exists q args, generatedCall row1 ctx = ExecCall q args)
   \/ calls = [checkCall row1 ctx]
   \/ calls = [checkCall row1 ctx; insertCall row1 ctx]
   \/ calls = [checkCall row1 ctx; updateCall row1 ctx])
  /\ Forall (fun c => isFixupCall (Table row) c = false) calls.
Proof.
  intros row1 calls Hpg.
  assert (String.eqb "postgres" (Driver ctx) = false) as Hpg'.
  { rewrite String.eqb_sym. exact Hpg. }
  assert (isFixupCall (Table row) (checkCall row1 ctx) = false
          /\ isFixupCall (Table row) (insertCall row1 ctx) = false
          /\ isFixupCall (Table row) (updateCall row1 ctx) = false) as Hnot.
  { by repeat split. }
  destruct Hnot as (Hn1 & Hn2 & Hn3).
  destruct (Init_pk_lengths (SetUpdatedAtOnInsert ctx) row clk) as [_ Hl2].
  fold row1 in Hl2.
  destruct (generatorOf (GetPKValues row1 (primaryKeys ctx))) as [name |]
    eqn:Hgen.
  - apply generatorOf_length in Hgen as Hone.
    apply (f_equal length) in Hone. unfold GetPKValues in Hone.
    rewrite length_map, Hl2 in Hone.
    destruct (pkColumns row1) as [| c cs] eqn:Hcols; [done |].
    assert (calls = [generatedCall row1 ctx]) as Hcalls.
    { unfold calls. rewrite rowCalls_compiled. unfold compiledCalls.
      fold row1. rewrite (loadCompiled_generated _ _ _ _ name) by done.
      rewrite (generatedInsert_calls conn i row1 name ctx c cs Hcols).
      unfold generatedCall. by rewrite Hpg'. }
    split.
    + left. split; [done |]. unfold generatedCall. rewrite Hpg'.
      by eexists _, _.
    + rewrite Hcalls. constructor; [| constructor].
      unfold generatedCall. rewrite Hpg'. reflexivity.
  - pose proof (checked_rowCalls conn i row ctx clk Hgen) as Hcalls.
    fold row1 calls in Hcalls. rewrite Hpg in Hcalls.
    cbn [andb] in Hcalls.
    destruct (QueryRowScanInt conn _ _ (Db ctx)) as [s1 [err | count]].
    { rewrite Hcalls. split; [by right; left | by repeat constructor]. }
    destruct (count =? 0)%Z.
    { assert (calls = [checkCall row1 ctx; insertCall row1 ctx]) as ->.
      { rewrite Hcalls. by destruct (Exec conn _ _ s1) as [s2 [err | res]]. }
      split; [by right; right; left | by repeat constructor]. }
    destruct (0 <? length (updateColumns row1))%nat.
    { assert (calls = [checkCall row1 ctx; updateCall row1 ctx]) as ->.
      { rewrite Hcalls. by destruct (Exec conn _ _ s1) as [s2 [err | res]]. }
      split; [by right; right; right | by repeat constructor]. }
    rewrite Hcalls. split; [by right; left | by repeat constructor].
Qed.

End OtherDrivers.

(* ================================================================= *)
(** ** Blanks around the name of a marker *)

Section PaddedMarkers.

(** X15: blanks around the name inside a marker do not change the key it
    names: whatever the number of blanks on either side, [Init] stores for
    a PK_GENERATE value of the primary key the generator of the trimmed
    name, and for a PK_REFERENCE value, of a field or of the primary key
    of any row, the reference of that same name. *)
Theorem padded_marker_names_the_same_key flag row clk flag' row' clk'
    k k' name n m n' m' :
  let r := (Init flag row clk).1 in
  let r' := (Init flag' row' clk').1 in
  let written := blanks n +:+ name +:+ blanks m in
  let read := blanks n' +:+ name +:+ blanks m' in
  PK row !! k
  = Some (VStr (onPKGeneratePrefix +:+ written +:+ onPKGenerateSuffix)) ->
  (forall j, pkColumns r !! j = Some k ->
             pkValues r !! j = Some (VGen (TrimSpace name)))
  /\ (Fields row' !! k'
      = Some (VStr (onPKReferencePrefix +:+ read +:+ onPKReferenceSuffix)) ->
      (forall j, insertColumns r' !! j = Some k' ->
                 insertValues r' !! j = Some (VRef (TrimSpace name)))
      /\ (forall j, updateColumns r' !! j = Some k' ->
                    updateValues r' !! j = Some (VRef (TrimSpace name))))
  /\ (PK row' !! k'
      = Some (VStr (onPKReferencePrefix +:+ read +:+ onPKReferenceSuffix)) ->
      forall j, pkColumns r' !! j = Some k' ->
                pkValues r' !! j = Some (VRef (TrimSpace name))).
Proof.
  intros r r' written read Hgen.
  pose proof (TrimSpace_blanks n m name) as Hw. fold written in Hw.
  pose proof (TrimSpace_blanks n' m' name) as Hr. fold read in Hr.
  split; [| split].
  - intros j Hj. rewrite <- Hw.
    exact (compiled_generator_pk flag row clk k written j Hgen Hj).
  - intros Hk.
    destruct (compiled_reference_field flag' row' clk' k' read Hk)
      as (_ & _ & Hins & Hupd).
    rewrite Hr in Hins, Hupd. by split.
  - intros Hk j Hj. rewrite <- Hr.
    exact (compiled_reference_pk flag' row' clk' k' read j Hk Hj).
Qed.

End PaddedMarkers.
(* ================================================================= *)
(** ** The further properties at work on the in-memory database *)

Section MoreExamples.

Import MemoryDb.

Lemma columns_are_distinct_keys_witness :
  In "label" (insertColumns (Init false tagRow clock0).1)
  /\ is_Some (Fields tagRow !! "label").
Proof.
  assert (In "label" (insertColumns (Init false tagRow clock0).1)) as Hin.
  { vm_compute. left. reflexivity. }
  destruct (columns_are_distinct_keys false tagRow clock0)
    as (_ & _ & _ & _ & Hins & _).
  exact (conj Hin (Hins "label" Hin)).
Defined.

Lemma column_order_witness :
  rev (keys (PK memberRow)) ≡ₚ keys (PK memberRow)
  /\ sort_Strings (rev (keys (PK memberRow)))
     = sort_Strings (keys (PK memberRow)).
Proof.
  assert (rev (keys (PK memberRow)) ≡ₚ keys (PK memberRow)) as Hp.
  { symmetry. apply Permutation_rev. }
  exact (conj Hp
           (column_order_independent_of_map_iteration (PK memberRow)
              (rev (keys (PK memberRow))) Hp)).
Defined.

Lemma loads_panic_witness :
  let run :=
    Load (database true) unmarshal globals0 "tags-doc" "postgres"
      (empty, clock0) in
  (forall rows, unmarshal "tags-doc" = inr rows ->
                Forall (fun row => PK row <> ∅) rows)
  /\ run.2 <> Panic.
Proof.
  assert (forall rows, unmarshal "tags-doc" = inr rows ->
                       Forall (fun row => PK row <> ∅) rows) as Hkeyed.
  { intros rows Hrows. vm_compute in Hrows. injection Hrows as <-.
    repeat constructor; intros Hnil;
      apply (f_equal (fun pk : gmap string value => pk !! "id")) in Hnil;
      vm_compute in Hnil; discriminate Hnil. }
  exact (conj Hkeyed
           (proj1 (loads_panic_only_without_columns (database true)
                     unmarshal readFile globals0 "postgres" (empty, clock0))
              "tags-doc" (or_introl Hkeyed))).
Defined.

Lemma row_without_columns_witness :
  let ctx := context "postgres" (storeWith 0 None) in
  PK (decoded "logs" ∅ ∅) = ∅
  /\ (loadRow (handle true) 0 (decoded "logs" ∅ ∅) (ctx, clock0)).2 = Panic.
Proof.
  split; [reflexivity |].
  destruct (row_without_columns_panics_on_postgres (handle true) 0
              (decoded "logs" ∅ ∅) (context "postgres" (storeWith 0 None))
              clock0 (storeWith 0 None)
              (Exec (handle true)
                 (queryOf
                    (insertCall (Init false (decoded "logs" ∅ ∅) clock0).1
                       (context "postgres" (storeWith 0 None))))
                 [] (storeWith 0 None)).1
              (mkResult (inr 1%Z)))
    as (_ & _ & _ & _ & Hp).
  - reflexivity.
  - vm_compute; reflexivity.
  - vm_compute; reflexivity.
  - vm_compute; reflexivity.
  - vm_compute; reflexivity.
  - exact Hp.
Defined.

Lemma reference_binds_witness :
  ({["uid" := VInt 4]} : gmap string value) !! TrimSpace "uid"
  = Some (VInt 4)
  /\ GetInsertValues (Init false postRow clock0).1 {["uid" := VInt 4]} !! 0
     = Some (VInt 4).
Proof.
  assert (({["uid" := VInt 4]} : gmap string value) !! TrimSpace "uid"
          = Some (VInt 4)) as Hk.
  { vm_compute; reflexivity. }
  split; [exact Hk |].
  destruct (reference_binds_written_key false postRow clock0
              {["uid" := VInt 4]} "user_id" "uid" (VInt 4) Hk)
    as (_ & Hfield).
  destruct Hfield as (Hins & _); [vm_compute; reflexivity |].
  apply (Hins 0). vm_compute; reflexivity.
Defined.

Lemma generated_key_witness :
  let result := loadRow (handle false) 0 userRow
                  (context "mysql" empty, clock0) in
  result.2 = Success
  /\ exists pk, primaryKeys result.1.1 !! TrimSpace "uid" = Some (VInt pk).
Proof.
  assert ((loadRow (handle false) 0 userRow
             (context "mysql" empty, clock0)).2 = Success) as Hok.
  { vm_compute; reflexivity. }
  split; [exact Hok |].
  destruct (generated_key_reaches_next_row (handle false) 0 userRow postRow
              (context "mysql" empty) clock0 "user_id" "uid")
    as (s1 & pk & _ & Hkey & _).
  - vm_compute; reflexivity.
  - exact Hok.
  - vm_compute; reflexivity.
  - exists pk. exact Hkey.
Defined.

Lemma registry_unchanged_witness :
  let ctx := context "mysql" empty in
  generatorOf (GetPKValues (Init false tagRow clock0).1 (primaryKeys ctx))
  = None
  /\ primaryKeys (loadRow (handle true) 0 tagRow (ctx, clock0)).1.1
     = primaryKeys ctx.
Proof.
  assert (generatorOf (GetPKValues (Init false tagRow clock0).1
                         (primaryKeys (context "mysql" empty))) = None)
    as Hgen.
  { vm_compute; reflexivity. }
  split; [exact Hgen |].
  exact (proj1 (registry_changes_only_by_generators (handle true) 0 tagRow
                  [] (context "mysql" empty) clock0 "uid") Hgen).
Defined.

Lemma successful_load_witness :
  let run :=
    Load (recordDatabase (database true)) unmarshal globals0 "users-doc"
      "mysql" ((empty, []), clock0) in
  Begin (database true) empty = (empty, None)
  /\ exists stmts,
       run.1.1.2 = (BeginCall :: stmts ++ [CommitCall; RollbackCall])%list
       /\ Forall (fun c => isStatement c = true) stmts.
Proof.
  split; [reflexivity |].
  destruct (successful_load_commits_once (database true) unmarshal readFile
              globals0) as [Hload _].
  destruct (Hload "users-doc" "mysql" empty clock0 empty usersRows
              (loadRows (Tx (recordDatabase (database true))) 0 usersRows
                 (newContext globals0 (empty, [BeginCall]) "mysql",
                  clock0)).1) as [_ Hlog].
  - reflexivity.
  - vm_compute; reflexivity.
  - vm_compute; reflexivity.
  - exact Hlog.
Defined.

Lemma undecodable_document_witness :
  unmarshal "other-doc" = inl "yaml: unmarshal errors"
  /\ Load (recordDatabase (database true)) unmarshal globals0 "other-doc"
       "mysql" ((empty, []), clock0)
     = ((((Rollback (database true) empty).1, [BeginCall; RollbackCall]),
         clock0), Failure "yaml: unmarshal errors").
Proof.
  assert (unmarshal "other-doc" = inl "yaml: unmarshal errors") as Hdoc.
  { vm_compute; reflexivity. }
  split; [exact Hdoc |].
  destruct (load_before_the_first_row (database true) unmarshal globals0
              "other-doc" "mysql" empty clock0) as (_ & Hbad & _).
  exact (Hbad empty "yaml: unmarshal errors" eq_refl Hdoc).
Defined.

Lemma unreadable_file_witness :
  readFile "missing.yml" = inl "open: no such file or directory"
  /\ LoadFile (recordDatabase (database true)) unmarshal readFile globals0
       "missing.yml" "mysql" ((empty, []), clock0)
     = (((empty, []), clock0),
        Failure (NewFileError "missing.yml"
                   "open: no such file or directory")).
Proof.
  assert (readFile "missing.yml" = inl "open: no such file or directory")
    as Hread.
  { vm_compute; reflexivity. }
  exact (conj Hread
           (proj1 (unreadable_file_stops_the_load (database true) unmarshal
                     readFile globals0 "missing.yml"
                     "open: no such file or directory" "mysql" empty clock0
                     Hread))).
Defined.

Lemma legacy_earlier_files_witness :
  let files := ["users.yml"; "tags.yml"; "posts.yml"] in
  let before :=
    Legacy.LoadFiles (database true) unmarshal readFile true false
      ["users.yml"] "mysql" (empty, clock0) in
  let run :=
    Legacy.LoadFiles (database true) unmarshal readFile true false files
      "mysql" (empty, clock0) in
  before.2 = Success
  /\ run.2
     = Failure "Error loading row 2: null value violates not-null constraint"
  /\ committed run.1.1 = committed before.1.1.
Proof.
  split; [vm_compute; reflexivity |].
  destruct (legacy_LoadFiles_keeps_earlier_files (database true) unmarshal
              readFile true false committed store_committed_begin
              store_committed_int store_committed_name store_committed_exec
              store_committed_rollback ["users.yml"] "tags.yml"
              ["posts.yml"] "mysql" (empty, clock0)
              (Legacy.LoadFiles (database true) unmarshal readFile true
                 false ["users.yml"] "mysql" (empty, clock0)).1
              "tags-doc" twoRows
              (Begin (database true)
                 (Legacy.LoadFiles (database true) unmarshal readFile true
                    false ["users.yml"] "mysql" (empty, clock0)).1.1).1
              (loadRows (Tx (database true)) 0 twoRows
                 (mkContext ∅
                    (Begin (database true)
                       (Legacy.LoadFiles (database true) unmarshal readFile
                          true false ["users.yml"] "mysql"
                          (empty, clock0)).1.1).1
                    "mysql" true false,
                  (Legacy.LoadFiles (database true) unmarshal readFile true
                     false ["users.yml"] "mysql" (empty, clock0)).1.2)).1
              (Failure
                 "Error loading row 2: null value violates not-null constraint"))
    as (Hout & _ & Hkept).
  - vm_compute; reflexivity.
  - vm_compute; reflexivity.
  - vm_compute; reflexivity.
  - vm_compute; reflexivity.
  - vm_compute; reflexivity.
  - intros H. discriminate H.
  - exact (conj Hout Hkept).
Defined.

Lemma other_drivers_witness :
  isPostgres (Driver (context "mysql" empty)) = false
  /\ Forall (fun c => isFixupCall (Table tagRow) c = false)
       (rowCalls (handle true) 0 tagRow (context "mysql" empty) clock0).
Proof.
  assert (isPostgres (Driver (context "mysql" empty)) = false) as Hd.
  { vm_compute; reflexivity. }
  exact (conj Hd
           (proj2 (other_drivers_send_no_sequence_statement (handle true) 0
                     tagRow (context "mysql" empty) clock0 Hd))).
Defined.

Lemma padded_marker_witness :
  PK userRow !! "id"
  = Some (VStr (onPKGeneratePrefix +:+ (blanks 1 +:+ "uid" +:+ blanks 1)
                +:+ onPKGenerateSuffix))
  /\ pkValues (Init false userRow clock0).1 !! 0
     = Some (VGen (TrimSpace "uid"))
  /\ insertValues (Init false postRow clock0).1 !! 0
     = Some (VRef (TrimSpace "uid"))
  /\ TrimSpace (blanks 1 +:+ "uid" +:+ blanks 1) = "uid".
Proof.
  assert (PK userRow !! "id"
          = Some (VStr (onPKGeneratePrefix
                        +:+ (blanks 1 +:+ "uid" +:+ blanks 1)
                        +:+ onPKGenerateSuffix))) as Hgen.
  { vm_compute; reflexivity. }
  destruct (padded_marker_names_the_same_key false userRow clock0 false
              postRow clock0 "id" "user_id" "uid" 1 1 0 0 Hgen)
    as (Hpk & Hfield & _).
  destruct Hfield as (Hins & _); [vm_compute; reflexivity |].
  split; [exact Hgen |].
  split; [apply (Hpk 0); vm_compute; reflexivity |].
  split; [apply (Hins 0) |]; vm_compute; reflexivity.
Defined.

End MoreExamples.
